(** * spx-backend controller: AIGC job dispatch, status resolution and the
      image-URL validator

    A shallow embedding of the AIGC file of package [controller]
    ([Validate], [Generating], [GetAIAssetStatus]) and of [AddUserAsset]
    from [internal/controller/user_asset.go].

    The controller functions talk to the outside world (the database, the
    AIGC service, the DNS resolver, the logger, the clock).  They are
    embedded as programs of a small free monad [Prog] whose constructors are
    exactly those outside calls, in the order the Go code makes them; the
    outside world itself is a relation [exec] on a [World]. *)

From Stdlib Require Import ZArith String Ascii List Bool Lia.
From Stdlib Require DecimalString DecimalPos DecimalZ.
From stdpp Require Import base option gmap strings list.

Local Open Scope string_scope.
Local Open Scope Z_scope.

(** ** Go values shared by the whole package *)

(** Go's [error] values, by kind.  The kinds are the ones the functions of
    this package can meet: the store's "no such record", any other
    persistence failure, a failure of the remote call, and the two
    [*strconv.NumError] kinds. *)
Inductive error : Type :=
| ErrNotFound
| ErrStore (msg : string)
| ErrTransport (msg : string)
| ErrSyntax (fn input : string)
| ErrRange (fn input : string).

(** A Go [(T, error)] return pair where exactly one side is meaningful. *)
Inductive result (A : Type) : Type :=
| Ok (a : A)
| Err (e : error).
Arguments Ok {A} a.
Arguments Err {A} e.

(** ** Package [net]: the address predicates used by [isIPPrivate]

    [net.IP] is a byte slice of length 4 or 16. *)
Module net.

Definition IP : Type := list Z.

Definition IPv4len : nat := 4.
Definition IPv6len : nat := 16.

(** [ip[i]] *)
Definition at_ (ip : IP) (i : nat) : Z := nth i ip 0.

Definition isZeros (p : list Z) : bool := forallb (Z.eqb 0) p.

Definition bytesEqual (a b : list Z) : bool :=
  Nat.eqb (length a) (length b) && forallb (fun xy => Z.eqb (fst xy) (snd xy)) (combine a b).

Definition v4InV6Prefix : list Z := [0; 0; 0; 0; 0; 0; 0; 0; 0; 0; 255; 255].

Definition IPv6loopback : IP := [0; 0; 0; 0; 0; 0; 0; 0; 0; 0; 0; 0; 0; 0; 0; 1].

(** [To4] returns [nil] (here [None]) when the address is not an IPv4
    address, in 4-byte or in IPv4-mapped 16-byte form. *)
Definition To4 (ip : IP) : option IP :=
  if Nat.eqb (length ip) IPv4len then Some ip
  else if Nat.eqb (length ip) IPv6len
          && isZeros (firstn 10 ip)
          && Z.eqb (at_ ip 10) 255
          && Z.eqb (at_ ip 11) 255
       then Some (skipn 12 ip)
       else None.

Definition Equal (ip x : IP) : bool :=
  if Nat.eqb (length ip) (length x) then bytesEqual ip x
  else if Nat.eqb (length ip) IPv4len && Nat.eqb (length x) IPv6len
       then bytesEqual (firstn 12 x) v4InV6Prefix && bytesEqual ip (skipn 12 x)
  else if Nat.eqb (length ip) IPv6len && Nat.eqb (length x) IPv4len
       then bytesEqual (firstn 12 ip) v4InV6Prefix && bytesEqual (skipn 12 ip) x
  else false.

Definition IsLoopback (ip : IP) : bool :=
  match To4 ip with
  | Some ip4 => Z.eqb (at_ ip4 0) 127
  | None => Equal ip IPv6loopback
  end.

Definition IsLinkLocalUnicast (ip : IP) : bool :=
  match To4 ip with
  | Some ip4 => Z.eqb (at_ ip4 0) 169 && Z.eqb (at_ ip4 1) 254
  | None => Nat.eqb (length ip) IPv6len
            && Z.eqb (at_ ip 0) 254
            && Z.eqb (Z.land (at_ ip 1) 192) 128
  end.

Definition IsLinkLocalMulticast (ip : IP) : bool :=
  match To4 ip with
  | Some ip4 => Z.eqb (at_ ip4 0) 224 && Z.eqb (at_ ip4 1) 0 && Z.eqb (at_ ip4 2) 0
  | None => Nat.eqb (length ip) IPv6len
            && Z.eqb (at_ ip 0) 255
            && Z.eqb (Z.land (at_ ip 1) 15) 2
  end.

Definition IsPrivate (ip : IP) : bool :=
  match To4 ip with
  | Some ip4 =>
      Z.eqb (at_ ip4 0) 10
      || (Z.eqb (at_ ip4 0) 172 && Z.eqb (Z.land (at_ ip4 1) 240) 16)
      || (Z.eqb (at_ ip4 0) 192 && Z.eqb (at_ ip4 1) 168)
  | None => Nat.eqb (length ip) IPv6len && Z.eqb (Z.land (at_ ip 0) 254) 252
  end.

End net.

(** ** Package [net/url]: the two fields of [url.URL] that [Validate] reads,
    and [URL.Hostname] *)
Module url.

Record URL : Type := mkURL { Scheme : string; Host : string }.

Definition isDigit (c : ascii) : bool :=
  (48 <=? Z.of_nat (nat_of_ascii c)) && (Z.of_nat (nat_of_ascii c) <=? 57).

(** [validOptionalPort] reports whether [port] is either an empty string
    or matches [:[0-9]*]. *)
Definition validOptionalPort (port : string) : bool :=
  match port with
  | EmptyString => true
  | String c rest =>
      if Ascii.eqb c ":" then forallb isDigit (list_ascii_of_string rest) else false
  end.

(** [strings.LastIndexByte]: index of the last occurrence of [c]. *)
Fixpoint lastIndexByte (s : string) (c : ascii) : option nat :=
  match s with
  | EmptyString => None
  | String d rest =>
      match lastIndexByte rest c with
      | Some i => Some (S i)
      | None => if Ascii.eqb d c then Some O else None
      end
  end.

Definition hasPrefix (s p : string) : bool := String.prefix p s.

Definition hasSuffix (s p : string) : bool :=
  (String.length p <=? String.length s)%nat
  && String.eqb (String.substring (String.length s - String.length p) (String.length p) s) p.

(** [splitHostPort], of which [Hostname] keeps the host: a valid port is
    cut off, then the square brackets of an IPv6 literal. *)
Definition Hostname (u : URL) : string :=
  let host := Host u in
  let host :=
    match lastIndexByte host ":" with
    | Some colon =>
        if validOptionalPort (String.substring colon (String.length host - colon) host)
        then String.substring 0 colon host
        else host
    | None => host
    end in
  if hasPrefix host "[" && hasSuffix host "]"
  then String.substring 1 (String.length host - 2) host
  else host.

End url.

(** ** Package [strconv]: [Atoi] on a 64-bit platform *)
Module strconv.

Definition intSize : Z := 64.
Definition maxInt : Z := 2 ^ 63 - 1.
Definition minInt : Z := - 2 ^ 63.
Definition maxUint64 : Z := 2 ^ 64 - 1.

(** [c - '0'] for a decimal digit; every other byte is refused (in base 10
    a letter has a digit value of ten or more and an underscore is accepted
    only with base 0). *)
Definition digitVal (c : ascii) : option Z :=
  if url.isDigit c then Some (Z.of_nat (nat_of_ascii c) - 48) else None.

(** The loop of the fast path of [Atoi]: [n = n*10 + int(ch)], a syntax
    error at the first byte that is not a digit.  The fast path is taken
    for fewer than 19 bytes only, where [n] stays below [10^18] and the
    64-bit [int] cannot wrap. *)
Fixpoint fastDigits (s : string) (n : Z) : option Z :=
  match s with
  | EmptyString => Some n
  | String ch rest =>
      match digitVal ch with
      | Some d => fastDigits rest (n * 10 + d)
      | None => None
      end
  end.

(** [cutoff] of [ParseUint] in base 10: the smallest number such that
    [cutoff * 10 > maxUint64]. *)
Definition cutoff : Z := maxUint64 / 10 + 1.

(** The loop of [ParseUint(s, 10, 64)] over the bytes of [s], [n] a
    [uint64].  For each byte, in this order: a byte that is not a digit is
    a syntax error with value 0; [n >= cutoff] is a range error with value
    [maxVal]; so is [n*10 + d] when the sum wraps ([n1 < n]) or exceeds
    [maxVal].  A range error is returned at once: the bytes after it are
    not read.  [s0] is the whole argument, kept for the error. *)
Fixpoint parseUintLoop (s0 s : string) (n : Z) : Z * option error :=
  match s with
  | EmptyString => (n, None)
  | String c rest =>
      match digitVal c with
      | None => (0, Some (ErrSyntax "ParseUint" s0))
      | Some d =>
          if cutoff <=? n then (maxUint64, Some (ErrRange "ParseUint" s0))
          else
            let n10 := (n * 10) mod 2 ^ 64 in
            let n1 := (n10 + d) mod 2 ^ 64 in
            if (n1 <? n10) || (maxUint64 <? n1)
            then (maxUint64, Some (ErrRange "ParseUint" s0))
            else parseUintLoop s0 rest n1
      end
  end.

Definition ParseUint (s : string) : Z * option error :=
  match s with
  | EmptyString => (0, Some (ErrSyntax "ParseUint" s))
  | _ => parseUintLoop s s 0
  end.

(** [ParseInt(s, 10, 0)]: one leading sign is picked off, the rest goes to
    [ParseUint]; an error of [ParseUint] other than a range error is
    returned with value 0; then the value is checked against [2^63], so
    that the [maxVal] of a range error of [ParseUint] ends as the nearest
    [int64] with a range error.  [int64(un)] and its negation are exact
    below the cutoff (and give [-2^63] at [un = 2^63] with a minus sign). *)
Definition ParseInt (s : string) : Z * option error :=
  match s with
  | EmptyString => (0, Some (ErrSyntax "ParseInt" s))
  | String c rest =>
      let neg := Ascii.eqb c "-" in
      let s1 := if Ascii.eqb c "+" then rest
                else if Ascii.eqb c "-" then rest else s in
      let '(un, err) := ParseUint s1 in
      match err with
      | Some (ErrRange _ _) | None =>
          let cutoff := 2 ^ (intSize - 1) in
          if negb neg && (cutoff <=? un)
          then (cutoff - 1, Some (ErrRange "ParseInt" s))
          else if neg && (cutoff <? un)
          then (- cutoff, Some (ErrRange "ParseInt" s))
          else (if neg then - un else un, None)
      | Some _ => (0, Some (ErrSyntax "ParseInt" s))
      end
  end.

(** [Atoi s]: the value and the error.  Strings of 1 to 18 bytes take the
    fast path; every other string goes through [ParseInt], whose
    [NumError] gets [Atoi] as its function name. *)
Definition Atoi (s : string) : Z * option error :=
  let sLen := String.length s in
  if (0 <? sLen)%nat && (sLen <? 19)%nat then
    match s with
    | EmptyString => (0, Some (ErrSyntax "Atoi" s))
    | String c rest =>
        let sign := Ascii.eqb c "-" || Ascii.eqb c "+" in
        let s1 := if sign then rest else s in
        if sign && (String.length s1 <? 1)%nat
        then (0, Some (ErrSyntax "Atoi" s))
        else
          match fastDigits s1 0 with
          | None => (0, Some (ErrSyntax "Atoi" s))
          | Some n => (if Ascii.eqb c "-" then - n else n, None)
          end
    end
  else
    let '(i64, err) := ParseInt s in
    (i64,
     match err with
     | Some (ErrSyntax _ num) => Some (ErrSyntax "Atoi" num)
     | Some (ErrRange _ num) => Some (ErrRange "Atoi" num)
     | _ => err
     end).

End strconv.

(** ** Package [model]: the records the controller hands to the store *)
Module model.

(** Modelled from the spec: the declaration of [AssetType] is in package
    [model]; section 3 gives it as the enumeration Sprite, Backdrop and
    further kinds.  The controller names [AssetTypeSprite] and
    [AssetTypeBackdrop] only. *)
Inductive AssetType : Type :=
| AssetTypeSprite
| AssetTypeBackdrop
| AssetTypeSound.

(** The value of a field the struct literal leaves out.  Nothing below
    depends on which constant it is. *)
Definition zeroAssetType : AssetType := AssetTypeSprite.

(** Modelled from the spec: the Job Record of section 3.  [ID] is the
    handle, [AssetType] the classification, [FilesHash] the result
    marker.  These are the three fields of [model.Asset] the controller
    reads or writes. *)
Record Asset : Type := mkAsset {
  ID : string;
  AssetType_ : AssetType;
  FilesHash : string
}.

(** The fields of [model.UserAsset] that [AddUserAsset] fills in. *)
Record UserAsset : Type := mkUserAsset {
  Owner : string;
  AssetID : Z;
  RelationType : string;
  RelationTimestamp : Z
}.

End model.

(** ** The request and response structs of the AIGC file

    Field names are global here: where two structs have a field of the same
    name, or the name is reserved, the later one carries a prefix or a
    trailing underscore ([gg_Category], [files_ImageUrl], [Type_]). *)

Record MattingParams : Type := mkMattingParams { ImageUrl : string }.

Record GenerateParams : Type := mkGenerateParams {
  Category : list string;
  Keyword : string;
  Width : Z;
  Height : Z
}.

Record GetGenerateParams : Type := mkGetGenerateParams {
  gg_Category : string;
  gg_Prompt : string
}.

Record GetGenerateResult : Type := mkGetGenerateResult { gg_ImageUrl : string }.

Record GenerateResult : Type := mkGenerateResult { ImageJobId : string }.

Inductive AssetStatus : Type :=
| waiting
| generating
| finish.

Record AIStatusFiles : Type := mkAIStatusFiles {
  files_ImageUrl : string;
  SkeletonUrl : string
}.

Record AIStatusResult : Type := mkAIStatusResult {
  JobId : string;
  Type_ : model.AssetType;
  Files : AIStatusFiles
}.

Record GetAIAssetStatusResult : Type := mkGetAIAssetStatusResult {
  Status : AssetStatus;
  Result : AIStatusResult
}.

Record AddUserAssetParams : Type := mkAddUserAssetParams { AssetID : string }.

(** What the closure passed to [go] in [Generating] captures: the ID of the
    new record and the request. *)
Record Task : Type := mkTask {
  task_id : string;
  task_param : GenerateParams
}.

(** ** Programs

    One constructor per call that leaves the package, each with the
    continuation that receives what the call returns.  [aigcClient_Call]
    returns the content of the response variable after the call together
    with the error; [go_func] starts the goroutine of [Generating]. *)
Inductive Prog (A : Type) : Type :=
| Ret (a : A)
| logger_Printf (format : string) (e : error) (k : Prog A)
| fmt_Println (a b : string) (k : Prog A)
| time_Now (k : Z -> Prog A)
| net_LookupIP (host : string) (k : option (list net.IP) -> Prog A)
| model_AddAsset (a : model.Asset) (k : result model.Asset -> Prog A)
| model_UpdateAssetByID (id : string) (a : model.Asset) (k : result model.Asset -> Prog A)
| model_CheckAssetFilesHashByID (id : string) (k : result model.Asset -> Prog A)
| model_AddUserAsset (ua : model.UserAsset) (k : result model.UserAsset -> Prog A)
| aigcClient_Call (method path : string) (params : GetGenerateParams)
    (k : GetGenerateResult * option error -> Prog A)
| go_func (t : Task) (k : Prog A).
Arguments Ret {A} a.
Arguments logger_Printf {A} format e k.
Arguments fmt_Println {A} a b k.
Arguments time_Now {A} k.
Arguments net_LookupIP {A} host k.
Arguments model_AddAsset {A} a k.
Arguments model_UpdateAssetByID {A} id a k.
Arguments model_CheckAssetFilesHashByID {A} id k.
Arguments model_AddUserAsset {A} ua k.
Arguments aigcClient_Call {A} method path params k.
Arguments go_func {A} t k.

Definition MethodPost : string := "POST".

(** ** The controller *)
Section Controller.

(** [url.Parse], with [None] for a non-nil error. *)
Variable url_Parse : string -> option url.URL.

(** [StringArrayToString], a helper of the package that joins the
    categories. *)
Variable StringArrayToString : list string -> string.

Definition isIPPrivate (ip : net.IP) : bool :=
  if net.IsLoopback ip || net.IsLinkLocalUnicast ip
     || net.IsLinkLocalMulticast ip || net.IsPrivate ip
  then true
  else false.

(** The [for _, ip := range ips] loop of [Validate] with its return
    inside, and the return after it. *)
Fixpoint Validate_ips (ips : list net.IP) : bool * string :=
  match ips with
  | [] => (true, "")
  | ip :: rest =>
      if isIPPrivate ip then (false, "invalid imageUrl: private IP")
      else Validate_ips rest
  end.

Definition Validate (p : MattingParams) : Prog (bool * string) :=
  if String.eqb (ImageUrl p) "" then Ret (false, "missing imageUrl")
  else
    match url_Parse (ImageUrl p) with
    | None => Ret (false, "invalid imageUrl")
    | Some url =>
        if String.eqb (url.Host url) "" then Ret (false, "invalid imageUrl")
        else if negb (String.eqb (url.Scheme url) "http")
                && negb (String.eqb (url.Scheme url) "https")
        then Ret (false, "invalid imageUrl: unsupported scheme")
        else
          let hostname := url.Hostname url in
          net_LookupIP hostname (fun r =>
            match r with
            | None => Ret (false, "invalid imageUrl: lookup IP failed")
            | Some ips => Ret (Validate_ips ips)
            end)
    end.

(** The body of the goroutine started by [Generating]. *)
Definition generatingTask (t : Task) : Prog unit :=
  let param := task_param t in
  aigcClient_Call MethodPost "/generate"
    {| gg_Category := StringArrayToString (Category param);
       gg_Prompt := Keyword param |}
    (fun '(generateResult, err) =>
       let update :=
         model_UpdateAssetByID (task_id t)
           {| model.ID := "";
              model.AssetType_ := model.zeroAssetType;
              model.FilesHash := gg_ImageUrl generateResult |}
           (fun r =>
              match r with
              | Err err => logger_Printf "failed to update asset: %v" err (Ret tt)
              | Ok _ => Ret tt
              end) in
       match err with
       | Some err => logger_Printf "failed to call: %v" err update
       | None => update
       end).

Definition Generating (param : GenerateParams) : Prog (result GenerateResult) :=
  let assetType :=
    if (Height param >? 0) && (Width param >? 0)
    then model.AssetTypeBackdrop
    else model.AssetTypeSprite in
  model_AddAsset
    {| model.ID := ""; model.AssetType_ := assetType; model.FilesHash := "" |}
    (fun r =>
       match r with
       | Err err => logger_Printf "failed to add asset: %v" err (Ret (Err err))
       | Ok newAIAsset =>
           go_func {| task_id := model.ID newAIAsset; task_param := param |}
             (Ret (Ok {| ImageJobId := model.ID newAIAsset |}))
       end).

Definition GetAIAssetStatus (id : string) : Prog (result GetAIAssetStatusResult) :=
  model_CheckAssetFilesHashByID id (fun r =>
    match r with
    | Err err => logger_Printf "failed to get asset: %v" err (Ret (Err err))
    | Ok result =>
        let status :=
          if String.eqb (model.FilesHash result) "" then generating else finish in
        Ret (Ok {| Status := status;
                   Result := {| JobId := id;
                                Type_ := model.AssetType_ result;
                                Files := {| files_ImageUrl := model.FilesHash result;
                                            SkeletonUrl := "" |} |} |})
    end).

(** [AddUserAsset] returns the error, [None] for [nil]. *)
Definition AddUserAsset (params : AddUserAssetParams) (assetType owner : string)
  : Prog (option error) :=
  fmt_Println "AddUserAsset, assetType: " assetType
    (let '(assetId, err) := strconv.Atoi (AssetID params) in
     time_Now (fun now =>
       model_AddUserAsset
         {| model.Owner := owner;
            model.AssetID := assetId;
            model.RelationType := assetType;
            model.RelationTimestamp := now |}
         (fun r =>
            let err := match r with Err e => Some e | Ok _ => None end in
            match err with
            | Some err => logger_Printf "failed to add asset: %v" err (Ret (Some err))
            | None => Ret None
            end))).

End Controller.

(** ** The outside world *)

(** The calls made, as they are recorded in the trace of a world. *)
Inductive Event : Type :=
| EvPrintf (format : string) (e : error)
| EvPrintln (a b : string)
| EvLookupIP (host : string)
| EvAddAsset (a : model.Asset) (r : result model.Asset)
| EvUpdateAssetByID (id : string) (a : model.Asset) (r : result model.Asset)
| EvCheckAssetFilesHashByID (id : string)
| EvAddUserAsset (ua : model.UserAsset) (r : result model.UserAsset)
| EvCall (path : string) (params : GetGenerateParams) (err : option error)
| EvGo (t : Task).

Record World : Type := mkWorld {
  db : gmap string model.Asset;
  user_assets : list model.UserAsset;
  tasks : list Task;
  dns : string -> option (list net.IP);
  trace : list Event
}.

Definition emit (ev : Event) (w : World) : World :=
  {| db := db w; user_assets := user_assets w; tasks := tasks w;
     dns := dns w; trace := trace w ++ [ev] |}.

Definition set_db (d : gmap string model.Asset) (w : World) : World :=
  {| db := d; user_assets := user_assets w; tasks := tasks w;
     dns := dns w; trace := trace w |}.

Definition set_user_assets (l : list model.UserAsset) (w : World) : World :=
  {| db := db w; user_assets := l; tasks := tasks w;
     dns := dns w; trace := trace w |}.

Definition set_tasks (ts : list Task) (w : World) : World :=
  {| db := db w; user_assets := user_assets w; tasks := ts;
     dns := dns w; trace := trace w |}.

Definition with_ID (id : string) (a : model.Asset) : model.Asset :=
  {| model.ID := id; model.AssetType_ := model.AssetType_ a;
     model.FilesHash := model.FilesHash a |}.

Definition with_FilesHash (h : string) (a : model.Asset) : model.Asset :=
  {| model.ID := model.ID a; model.AssetType_ := model.AssetType_ a;
     model.FilesHash := h |}.

Definition zeroGetGenerateResult : GetGenerateResult := {| gg_ImageUrl := "" |}.

(** Modelled from the spec: the functions of package [model] (the Job Store
    of sections 3 and 6) and [aigcClient.Call] (section 4.2), which the
    controller calls and which are not in its files.
    - [AddAsset] (CreateJob) either fails and stores nothing, or stores the
      record it is given under an ID that no stored record has and returns
      it;
    - [UpdateAssetByID] (UpdateJobResult) either fails and changes nothing,
      or sets the result marker of the stored record to the one it is given
      and returns the record;
    - [CheckAssetFilesHashByID] (GetJob) returns the stored record, and
      fails with NotFound when there is none;
    - [AddUserAsset] either fails and stores nothing, or stores the record;
    - [aigcClient.Call] either succeeds and has filled the response it was
      given, or fails; section 4.2 says what the response holds on success
      only, and counts a failure to decode it among the errors, so a failed
      call may leave any value in the response.
    [ctrl.db] and [ctrl.ormDb] are two handles on the one database [db].
    The resolver answers from [dns]; the clock returns any time.
    [exec w p a w']: program [p], started in [w], returns [a] in [w']. *)
Inductive exec {A : Type} : World -> Prog A -> A -> World -> Prop :=
| exec_Ret w a :
    exec w (Ret a) a w
| exec_Printf w format e k a w' :
    exec (emit (EvPrintf format e) w) k a w' ->
    exec w (logger_Printf format e k) a w'
| exec_Println w x y k a w' :
    exec (emit (EvPrintln x y) w) k a w' ->
    exec w (fmt_Println x y k) a w'
| exec_Now w now k a w' :
    exec w (k now) a w' ->
    exec w (time_Now k) a w'
| exec_LookupIP w host k a w' :
    exec (emit (EvLookupIP host) w) (k (dns w host)) a w' ->
    exec w (net_LookupIP host k) a w'
| exec_AddAsset_ok w x id k a w' :
    db w !! id = None ->
    exec (emit (EvAddAsset x (Ok (with_ID id x)))
            (set_db (<[id := with_ID id x]> (db w)) w))
         (k (Ok (with_ID id x))) a w' ->
    exec w (model_AddAsset x k) a w'
| exec_AddAsset_err w x msg k a w' :
    exec (emit (EvAddAsset x (Err (ErrStore msg))) w) (k (Err (ErrStore msg))) a w' ->
    exec w (model_AddAsset x k) a w'
| exec_UpdateAssetByID_ok w id x old k a w' :
    db w !! id = Some old ->
    exec (emit (EvUpdateAssetByID id x (Ok (with_FilesHash (model.FilesHash x) old)))
            (set_db (<[id := with_FilesHash (model.FilesHash x) old]> (db w)) w))
         (k (Ok (with_FilesHash (model.FilesHash x) old))) a w' ->
    exec w (model_UpdateAssetByID id x k) a w'
| exec_UpdateAssetByID_err w id x msg k a w' :
    exec (emit (EvUpdateAssetByID id x (Err (ErrStore msg))) w)
         (k (Err (ErrStore msg))) a w' ->
    exec w (model_UpdateAssetByID id x k) a w'
| exec_UpdateAssetByID_absent w id x k a w' :
    db w !! id = None ->
    exec (emit (EvUpdateAssetByID id x (Err ErrNotFound)) w) (k (Err ErrNotFound)) a w' ->
    exec w (model_UpdateAssetByID id x k) a w'
| exec_CheckAssetFilesHashByID_ok w id rec k a w' :
    db w !! id = Some rec ->
    exec (emit (EvCheckAssetFilesHashByID id) w) (k (Ok rec)) a w' ->
    exec w (model_CheckAssetFilesHashByID id k) a w'
| exec_CheckAssetFilesHashByID_absent w id k a w' :
    db w !! id = None ->
    exec (emit (EvCheckAssetFilesHashByID id) w) (k (Err ErrNotFound)) a w' ->
    exec w (model_CheckAssetFilesHashByID id k) a w'
| exec_AddUserAsset_ok w ua k a w' :
    exec (emit (EvAddUserAsset ua (Ok ua)) (set_user_assets (user_assets w ++ [ua]) w))
         (k (Ok ua)) a w' ->
    exec w (model_AddUserAsset ua k) a w'
| exec_AddUserAsset_err w ua msg k a w' :
    exec (emit (EvAddUserAsset ua (Err (ErrStore msg))) w) (k (Err (ErrStore msg))) a w' ->
    exec w (model_AddUserAsset ua k) a w'
| exec_Call_ok w method path params res k a w' :
    exec (emit (EvCall path params None) w) (k (res, None)) a w' ->
    exec w (aigcClient_Call method path params k) a w'
| exec_Call_err w method path params res msg k a w' :
    exec (emit (EvCall path params (Some (ErrTransport msg))) w)
         (k (res, Some (ErrTransport msg))) a w' ->
    exec w (aigcClient_Call method path params k) a w'
| exec_Go w t k a w' :
    exec (emit (EvGo t) (set_tasks (tasks w ++ [t]) w)) k a w' ->
    exec w (go_func t k) a w'.

(** Inversion of [exec] on a program whose head constructor is known. *)
Ltac exec_inv H := inversion H; subst; clear H; simpl in *.

Ltac exec_all :=
  repeat match goal with
    | H : exec _ (Ret _) _ _ |- _ => exec_inv H
    | H : exec _ (logger_Printf _ _ _) _ _ |- _ => exec_inv H
    | H : exec _ (fmt_Println _ _ _) _ _ |- _ => exec_inv H
    | H : exec _ (time_Now _) _ _ |- _ => exec_inv H
    | H : exec _ (net_LookupIP _ _) _ _ |- _ => exec_inv H
    | H : exec _ (model_AddAsset _ _) _ _ |- _ => exec_inv H
    | H : exec _ (model_UpdateAssetByID _ _ _) _ _ |- _ => exec_inv H
    | H : exec _ (model_CheckAssetFilesHashByID _ _) _ _ |- _ => exec_inv H
    | H : exec _ (model_AddUserAsset _ _) _ _ |- _ => exec_inv H
    | H : exec _ (aigcClient_Call _ _ _ _) _ _ |- _ => exec_inv H
    | H : exec _ (go_func _ _) _ _ |- _ => exec_inv H
    end.

(** Number of calls of [model.UpdateAssetByID] in a trace, and the ones that
    the store carried out. *)
Definition is_update (ev : Event) : bool :=
  match ev with EvUpdateAssetByID _ _ _ => true | _ => false end.

Definition is_lookup (ev : Event) : bool :=
  match ev with EvLookupIP _ => true | _ => false end.

(** [ev] is a call of [model.UpdateAssetByID] that the store carried out
    and that gave the record [id] a non-empty result marker. *)
Definition sets_marker (id : string) (ev : Event) : bool :=
  match ev with
  | EvUpdateAssetByID id' a (Ok _) =>
      String.eqb id' id && negb (String.eqb (model.FilesHash a) "")
  | _ => false
  end.

(** The part of the trace of [w'] added since [w]. *)
Definition since (w w' : World) : list Event := skipn (length (trace w)) (trace w').


(** ** The system: requests and goroutines over one world

    Every controller function and the goroutine body make at most one call
    to the Job Store, so running each of them in one piece, in any order,
    covers every interleaving of their store calls.  A goroutine runs at any
    time after [go] has started it, or never. *)
Section System.

Variable url_Parse : string -> option url.URL.
Variable StringArrayToString : list string -> string.

Inductive step : World -> World -> Prop :=
| step_Generating w param r w' :
    exec w (Generating param) r w' ->
    step w w'
| step_generatingTask w (ts1 : list Task) t (ts2 : list Task) w' :
    tasks w = (ts1 ++ t :: ts2)%list ->
    exec (set_tasks (ts1 ++ ts2)%list w) (generatingTask StringArrayToString t) tt w' ->
    step w w'
| step_GetAIAssetStatus w id r w' :
    exec w (GetAIAssetStatus id) r w' ->
    step w w'
| step_Validate w p r w' :
    exec w (Validate url_Parse p) r w' ->
    step w w'
| step_AddUserAsset w params assetType owner r w' :
    exec w (AddUserAsset params assetType owner) r w' ->
    step w w'.

Definition steps : World -> World -> Prop := rtc step.

End System.

(** A world before the first request: no record, no goroutine, nothing
    called yet. *)
Definition initial (w : World) : Prop := db w = ∅ /\ tasks w = [] /\ trace w = [].

(** How often the marker of [id] has been set so far, and whether it is
    set now. *)
Definition marker_writes (id : string) (w : World) : nat :=
  length (List.filter (sets_marker id) (trace w)).

Definition marker_set (id : string) (w : World) : bool :=
  match db w !! id with
  | Some rec => negb (String.eqb (model.FilesHash rec) "")
  | None => false
  end.

(** The marker of a record is set exactly when one write has set it; no
    marker has been set twice. *)
Definition writes_ok (w : World) : Prop :=
  forall id, marker_writes id w = if marker_set id w then 1%nat else 0%nat.

(** Every goroutine that has not run yet belongs to a stored record whose
    result marker is still empty, and no two of them belong to the same
    record. *)
Definition pending_ok (w : World) : Prop :=
  NoDup (map task_id (tasks w))
  /\ forall t, In t (tasks w) ->
       exists rec, db w !! task_id t = Some rec /\ model.FilesHash rec = "".

(** The goroutine of the job [id] has been started and has not run yet. *)
Definition pending (id : string) (w : World) : Prop :=
  exists t, In t (tasks w) /\ task_id t = id.

(** The status [GetAIAssetStatus] computes from a record. *)
Definition status_of (rec : model.Asset) : AssetStatus :=
  if String.eqb (model.FilesHash rec) "" then generating else finish.

Definition details_of (id : string) (rec : model.Asset) : AIStatusResult :=
  {| JobId := id;
     Type_ := model.AssetType_ rec;
     Files := {| files_ImageUrl := model.FilesHash rec; SkeletonUrl := "" |} |}.

(** The record [Generating] asks the store to create. *)
Definition newAsset (param : GenerateParams) : model.Asset :=
  {| model.ID := "";
     model.AssetType_ := if (Height param >? 0) && (Width param >? 0)
                         then model.AssetTypeBackdrop
                         else model.AssetTypeSprite;
     model.FilesHash := "" |}.

(** [s] is an optional sign followed by at least one decimal digit. *)
Definition validDecimal (s : string) : bool :=
  match s with
  | EmptyString => false
  | String c rest =>
      let body := if Ascii.eqb c "+" || Ascii.eqb c "-" then rest else s in
      negb (String.eqb body "") && forallb url.isDigit (list_ascii_of_string body)
  end.

(** [s] without the one leading sign that [ParseInt] picks off. *)
Definition unsignedPart (s : string) : string :=
  match s with
  | EmptyString => s
  | String c rest => if Ascii.eqb c "+" || Ascii.eqb c "-" then rest else s
  end.

Definition hasMinus (s : string) : bool :=
  match s with
  | EmptyString => false
  | String c _ => Ascii.eqb c "-"
  end.

(** The number written by the decimal digits that [s] starts with, as an
    unbounded integer, continuing [acc]. *)
Fixpoint leadingValue (s : string) (acc : Z) : Z :=
  match s with
  | EmptyString => acc
  | String c rest =>
      match strconv.digitVal c with
      | Some d => leadingValue rest (acc * 10 + d)
      | None => acc
      end
  end.

(** The digits that [s] starts with, after its sign, do not fit 64 bits:
    [ParseUint] reports a range error before it reads any later byte. *)
Definition overflowsUint64 (s : string) : bool :=
  2 ^ 64 <=? leadingValue (unsignedPart s) 0.

(** ** A sample environment for the concrete scenarios *)
Module Sample.

Definition code (c : ascii) : Z := Z.of_nat (nat_of_ascii c).

Definition isLetter (c : ascii) : bool :=
  ((97 <=? code c) && (code c <=? 122)) || ((65 <=? code c) && (code c <=? 90)).

Definition toLower (c : ascii) : ascii :=
  if (65 <=? code c) && (code c <=? 90) then ascii_of_nat (nat_of_ascii c + 32) else c.

Fixpoint lower (s : string) : string :=
  match s with
  | EmptyString => EmptyString
  | String c rest => String (toLower c) (lower rest)
  end.

Definition isSchemePunct (c : ascii) : bool :=
  Ascii.eqb c "+" || Ascii.eqb c "-" || Ascii.eqb c ".".

(** [getScheme] of [net/url]: [None] is "missing protocol scheme". *)
Fixpoint getScheme_from (s : string) (i : nat) (rawURL : string) : option (string * string) :=
  match s with
  | EmptyString => Some ("", rawURL)
  | String c rest =>
      if isLetter c then getScheme_from rest (S i) rawURL
      else if url.isDigit c || isSchemePunct c
      then (if Nat.eqb i 0 then Some ("", rawURL) else getScheme_from rest (S i) rawURL)
      else if Ascii.eqb c ":"
      then (if Nat.eqb i 0 then None else Some (String.substring 0 i rawURL, rest))
      else Some ("", rawURL)
  end.

Definition getScheme (rawURL : string) : option (string * string) :=
  getScheme_from rawURL 0 rawURL.

(** [strings.Cut s sep] for a one-byte separator: the part before it. *)
Fixpoint before (sep : ascii) (s : string) : string :=
  match s with
  | EmptyString => EmptyString
  | String c rest => if Ascii.eqb c sep then EmptyString else String c (before sep rest)
  end.

Definition plainChar (c : ascii) : bool :=
  isLetter c || url.isDigit c || isSchemePunct c
  || Ascii.eqb c "_" || Ascii.eqb c "~" || Ascii.eqb c ":" || Ascii.eqb c "/".

(** [url.Parse] on the URLs written with letters, digits and [+-._~:/]
    only (no user, query, fragment, escape or bracket); any other input is
    refused. *)
Definition Parse (rawURL : string) : option url.URL :=
  if negb (forallb plainChar (list_ascii_of_string rawURL)) then None
  else
    match getScheme rawURL with
    | None => None
    | Some (scheme, rest) =>
        let scheme := lower scheme in
        if negb (url.hasPrefix rest "/")
        then
          if negb (String.eqb scheme "") then Some (url.mkURL scheme "")
          else if existsb (Ascii.eqb ":") (list_ascii_of_string (before "/" rest))
          then None
          else Some (url.mkURL scheme "")
        else if url.hasPrefix rest "//"
                && (negb (String.eqb scheme "") || negb (url.hasPrefix rest "///"))
        then
          let authority := before "/" (String.substring 2 (String.length rest - 2) rest) in
          match url.lastIndexByte authority ":" with
          | Some i =>
              if url.validOptionalPort
                   (String.substring i (String.length authority - i) authority)
              then Some (url.mkURL scheme authority)
              else None
          | None => Some (url.mkURL scheme authority)
          end
        else Some (url.mkURL scheme "")
    end.

(** One decimal field of a dotted IPv4 literal. *)
Definition field (s : string) : option Z :=
  if String.eqb s "" || (3 <? String.length s)%nat
     || ((1 <? String.length s)%nat && url.hasPrefix s "0")
  then None
  else match strconv.fastDigits s 0 with
       | Some n => if n <=? 255 then Some n else None
       | None => None
       end.

Fixpoint after (sep : ascii) (s : string) : option string :=
  match s with
  | EmptyString => None
  | String c rest => if Ascii.eqb c sep then Some rest else after sep rest
  end.

Definition parseIPv4 (s : string) : option net.IP :=
  match after "." s with
  | Some s1 =>
      match after "." s1 with
      | Some s2 =>
          match after "." s2 with
          | Some s3 =>
              match field (before "." s), field (before "." s1),
                    field (before "." s2), field s3 with
              | Some a, Some b, Some c, Some d => Some [a; b; c; d]
              | _, _, _, _ => None
              end
          | None => None
          end
      | None => None
      end
  | None => None
  end.

(** A resolver: an IPv4 literal resolves to itself, one name has a public
    and a private address, any other name is unknown. *)
Definition resolver (host : string) : option (list net.IP) :=
  match parseIPv4 host with
  | Some ip => Some [ip]
  | None =>
      if String.eqb host "two.example" then Some [[93; 184; 216; 34]; [10; 0; 0; 7]]
      else None
  end.

Definition join (l : list string) : string := String.concat "," l.

Definition world0 : World :=
  {| db := ∅; user_assets := []; tasks := []; dns := resolver; trace := [] |}.

Definition catParam : GenerateParams :=
  {| Category := ["animal"]; Keyword := "cat"; Width := 0; Height := 0 |}.

(** The spec's scenario: the request gets the ID [job1]; then the remote
    call answers with an image URL and the update succeeds. *)
Definition job1 : string := "job-1".

Definition task1 : Task := {| task_id := job1; task_param := catParam |}.

Definition record1 : model.Asset :=
  {| model.ID := job1; model.AssetType_ := model.AssetTypeSprite; model.FilesHash := "" |}.

Definition world1 : World :=
  {| db := <[job1 := record1]> ∅;
     user_assets := [];
     tasks := [task1];
     dns := resolver;
     trace := [EvAddAsset (newAsset catParam) (Ok record1); EvGo task1] |}.

Definition callParams : GetGenerateParams :=
  {| gg_Category := join ["animal"]; gg_Prompt := "cat" |}.

Definition update1 : model.Asset :=
  {| model.ID := ""; model.AssetType_ := model.zeroAssetType;
     model.FilesHash := "https://cdn/x.png" |}.

Definition world2 : World :=
  {| db := <[job1 := with_FilesHash "https://cdn/x.png" record1]> (<[job1 := record1]> ∅);
     user_assets := [];
     tasks := [];
     dns := resolver;
     trace := [EvAddAsset (newAsset catParam) (Ok record1); EvGo task1;
               EvCall "/generate" callParams None;
               EvUpdateAssetByID job1 update1
                 (Ok (with_FilesHash "https://cdn/x.png" record1))] |}.

End Sample.

(** ** [ListUserAssets]

    The function builds the conditions of one query and hands them to
    [model.ListUserAssets].  What it reads of [ListAssetsParams], the
    constants [TimeDesc] and [ClickCountDesc], [model.Pagination] and the
    page type [model.ByPage] are declared outside these files, and the
    store function is not part of them: they are the variables of the
    section.  [params] itself is taken to be non-nil; a nil [Owner], which
    the function dereferences, makes it panic: the result is then
    [None]. *)
Section ListUserAssets.

Variable AssetTypeFilter : Type.
Variable ListAssetsOrderBy : Type.
Context `{EqDecision ListAssetsOrderBy}.
Variable TimeDesc ClickCountDesc : ListAssetsOrderBy.
Variable Pagination : Type.
Variable Page : Type.

(** The [Value] of a condition is a string or the asset type asked for. *)
Inductive FilterValue : Type :=
| ValString (s : string)
| ValAssetType (a : AssetTypeFilter).

Record FilterCondition : Type := mkFilterCondition {
  Column : string;
  Operation : string;
  Value : FilterValue
}.

(** [c] is a condition on the column [col]. *)
Definition onColumn (col : string) (c : FilterCondition) : bool :=
  String.eqb (Column c) col.

Record OrderByCondition : Type := mkOrderByCondition {
  order_Column : string;
  Direction : string
}.

(** The fields of [ListAssetsParams] the function reads; [Owner] and
    [AssetType] are pointers. *)
Record ListAssetsParams : Type := mkListAssetsParams {
  list_Owner : option string;
  list_Keyword : string;
  list_AssetType : option AssetTypeFilter;
  list_OrderBy : ListAssetsOrderBy;
  list_Pagination : Pagination
}.

Variable model_ListUserAssets :
  Pagination -> list FilterCondition -> list OrderByCondition -> string -> result Page.

Definition newline : string := String (ascii_of_nat 10) EmptyString.
Definition tab : string := String (ascii_of_nat 9) EmptyString.

(** The raw string literal [query]. *)
Definition listQuery : string :=
  String.concat ""
    [newline; tab; tab; "SELECT a.*";
     newline; tab; tab; "FROM asset a";
     newline; tab; tab; "JOIN user_asset ua ON a.id = ua.asset_id";
     newline; tab].

(** The filter conditions, with [owner] for [*params.Owner]. *)
Definition listWheres (assetType owner : string) (params : ListAssetsParams)
  : list FilterCondition :=
  let wheres :=
    [ {| Column := "ua.owner"; Operation := "="; Value := ValString owner |};
      {| Column := "ua.relation_type"; Operation := "="; Value := ValString assetType |} ] in
  let wheres :=
    if negb (String.eqb (list_Keyword params) "")
    then (wheres ++ [ {| Column := "a.display_name"; Operation := "LIKE";
                         Value := ValString (String.append "%"
                                    (String.append (list_Keyword params) "%")) |} ])%list
    else wheres in
  match list_AssetType params with
  | Some a =>
      (wheres ++ [ {| Column := "a.asset_type"; Operation := "="; Value := ValAssetType a |} ])%list
  | None => wheres
  end.

(** The [switch] on [params.OrderBy]. *)
Definition listOrders (params : ListAssetsParams) : list OrderByCondition :=
  if decide (list_OrderBy params = TimeDesc)
  then [ {| order_Column := "a.c_time"; Direction := "DESC" |} ]
  else if decide (list_OrderBy params = ClickCountDesc)
  then [ {| order_Column := "a.click_count"; Direction := "DESC" |} ]
  else [].

(** [ListUserAssets]: the result and the lines logged, or a panic. *)
Definition ListUserAssets (assetType : string) (params : ListAssetsParams)
  : option (result Page * list Event) :=
  match list_Owner params with
  | None => None
  | Some owner =>
      let wheres := listWheres assetType owner params in
      let orders := listOrders params in
      match model_ListUserAssets (list_Pagination params) wheres orders listQuery with
      | Err err => Some (Err err, [EvPrintf "failed to list user assets: %v" err])
      | Ok assets => Some (Ok assets, [])
      end
  end.

End ListUserAssets.

Arguments ValString {AssetTypeFilter} s.
Arguments ValAssetType {AssetTypeFilter} a.
Arguments mkFilterCondition {AssetTypeFilter} _ _ _.
Arguments Column {AssetTypeFilter} _.
Arguments Operation {AssetTypeFilter} _.
Arguments Value {AssetTypeFilter} _.
Arguments onColumn {AssetTypeFilter} _ _.
Arguments mkListAssetsParams {AssetTypeFilter ListAssetsOrderBy Pagination} _ _ _ _ _.
Arguments list_Owner {AssetTypeFilter ListAssetsOrderBy Pagination} _.
Arguments list_Keyword {AssetTypeFilter ListAssetsOrderBy Pagination} _.
Arguments list_AssetType {AssetTypeFilter ListAssetsOrderBy Pagination} _.
Arguments list_OrderBy {AssetTypeFilter ListAssetsOrderBy Pagination} _.
Arguments list_Pagination {AssetTypeFilter ListAssetsOrderBy Pagination} _.
Arguments listWheres {AssetTypeFilter ListAssetsOrderBy Pagination} _ _ _.
Arguments listOrders {AssetTypeFilter ListAssetsOrderBy _} _ _ {Pagination} _.
Arguments ListUserAssets {AssetTypeFilter ListAssetsOrderBy _} _ _ {Pagination Page} _ _ _.

(** A sample store for [ListUserAssets]: it fails for the page size 0 and
    returns the conditions it was given otherwise. *)
Module ListSample.

Definition Page : Type :=
  (list (FilterCondition model.AssetType) * list OrderByCondition * string)%type.

Definition store (pagination : nat) (wheres : list (FilterCondition model.AssetType))
  (orders : list OrderByCondition) (query : string) : result Page :=
  if Nat.eqb pagination 0 then Err (ErrStore "bad page size")
  else Ok (wheres, orders, query).

Definition params : ListAssetsParams model.AssetType string nat :=
  {| list_Owner := Some "alice";
     list_Keyword := "cat";
     list_AssetType := Some model.AssetTypeSprite;
     list_OrderBy := "clickCount";
     list_Pagination := 20%nat |}.

Definition run (p : ListAssetsParams model.AssetType string nat)
  : option (result Page * list Event) :=
  ListUserAssets "time" "clickCount" store "liked" p.

End ListSample.

(** The decimal numeral of [n] as Go prints an int: its digits without
    leading zero, after a minus sign when [n] is negative. *)
Definition decimal (n : Z) : string :=
  DecimalString.NilEmpty.string_of_int (Z.to_int n).

(** [s] has no colon in it. *)
Definition noColon (s : string) : bool :=
  forallb (fun c => negb (Ascii.eqb c ":")) (list_ascii_of_string s).

(** ** Further sample worlds *)
Module Scenario.

(** [Sample.world1] after the goroutine of [Sample.job1] has run with a
    failed remote call that left the response untouched; the store
    carried out the update that follows. *)
Definition failedCall : World :=
  emit (EvUpdateAssetByID Sample.job1
          {| model.ID := ""; model.AssetType_ := model.zeroAssetType;
             model.FilesHash := "" |}
          (Ok (with_FilesHash "" Sample.record1)))
    (set_db (<[Sample.job1 := with_FilesHash "" Sample.record1]> (db Sample.world1))
       (emit (EvPrintf "failed to call: %v" (ErrTransport "timeout"))
          (emit (EvCall "/generate" Sample.callParams (Some (ErrTransport "timeout")))
             (set_tasks [] Sample.world1)))).

(** [Sample.world1] after the goroutine has run with a successful remote
    call and a failed update. *)
Definition failedUpdate : World :=
  emit (EvPrintf "failed to update asset: %v" (ErrStore "down"))
    (emit (EvUpdateAssetByID Sample.job1 Sample.update1 (Err (ErrStore "down")))
       (emit (EvCall "/generate" Sample.callParams None)
          (set_tasks [] Sample.world1))).

Definition bigParam : GenerateParams :=
  {| Category := ["scene"]; Keyword := "beach"; Width := 640; Height := 480 |}.

End Scenario.

Example sample_parse_meta :
  Sample.Parse "http://169.254.169.254/latest/meta-data"
  = Some (url.mkURL "http" "169.254.169.254").
Proof. reflexivity. Qed.

Example sample_parse_ftp :
  Sample.Parse "ftp://127.0.0.1/" = Some (url.mkURL "ftp" "127.0.0.1").
Proof. reflexivity. Qed.

Example sample_parse_empty : Sample.Parse "" = Some (url.mkURL "" "").
Proof. reflexivity. Qed.

Example sample_parse_port :
  option_map url.Hostname (Sample.Parse "HTTPS://Example.com:8080/a/b") = Some "Example.com".
Proof. reflexivity. Qed.

Example sample_resolver_literal :
  Sample.resolver "169.254.169.254" = Some [[169; 254; 169; 254]].
Proof. reflexivity. Qed.

Example atoi_examples :
  strconv.Atoi "42" = (42, None)
  /\ strconv.Atoi "-7" = (-7, None)
  /\ strconv.Atoi "abc" = (0, Some (ErrSyntax "Atoi" "abc"))
  /\ strconv.Atoi "" = (0, Some (ErrSyntax "Atoi" ""))
  /\ strconv.Atoi "+" = (0, Some (ErrSyntax "Atoi" "+"))
  /\ strconv.Atoi "1_000" = (0, Some (ErrSyntax "Atoi" "1_000"))
  /\ strconv.Atoi "9223372036854775808"
     = (9223372036854775807, Some (ErrRange "Atoi" "9223372036854775808"))
  /\ strconv.Atoi "-9223372036854775808" = (-9223372036854775808, None).
Proof. repeat split; reflexivity. Qed.

(** A range error of [ParseUint] comes before the bytes after it are
    read; a byte that is not a digit met before any overflow is a syntax
    error. *)
Example atoi_overflow_examples :
  strconv.Atoi "99999999999999999999x"
  = (9223372036854775807, Some (ErrRange "Atoi" "99999999999999999999x"))
  /\ strconv.Atoi "-99999999999999999999x"
     = (-9223372036854775808, Some (ErrRange "Atoi" "-99999999999999999999x"))
  /\ strconv.Atoi "18446744073709551616x"
     = (9223372036854775807, Some (ErrRange "Atoi" "18446744073709551616x"))
  /\ strconv.Atoi "18446744073709551615x"
     = (0, Some (ErrSyntax "Atoi" "18446744073709551615x"))
  /\ strconv.Atoi "9223372036854775808x"
     = (0, Some (ErrSyntax "Atoi" "9223372036854775808x"))
  /\ strconv.Atoi "x99999999999999999999"
     = (0, Some (ErrSyntax "Atoi" "x99999999999999999999"))
  /\ strconv.Atoi "99999999999999999999"
     = (9223372036854775807, Some (ErrRange "Atoi" "99999999999999999999")).
Proof. repeat split; vm_compute; reflexivity. Qed.

Example isIPPrivate_examples :
  isIPPrivate [169; 254; 169; 254] = true
  /\ isIPPrivate [127; 0; 0; 1] = true
  /\ isIPPrivate [10; 0; 0; 7] = true
  /\ isIPPrivate [172; 31; 255; 1] = true
  /\ isIPPrivate [172; 32; 0; 1] = false
  /\ isIPPrivate [0; 0; 0; 0; 0; 0; 0; 0; 0; 0; 255; 255; 192; 168; 1; 1] = true
  /\ isIPPrivate net.IPv6loopback = true
  /\ isIPPrivate [254; 128; 0; 0; 0; 0; 0; 0; 0; 0; 0; 0; 0; 0; 0; 1] = true
  /\ isIPPrivate [93; 184; 216; 34] = false
  /\ isIPPrivate [8; 8; 8; 8] = false.
Proof. repeat split; reflexivity. Qed.

(** ** General facts about [exec] and the trace *)

Lemma since_refl w : since w w = [].
Proof. unfold since. apply skipn_all. Qed.

(** Every program returns in every world. *)
Lemma exec_total {A : Type} (p : Prog A) : forall w, exists a w', exec w p a w'.
Proof.
  induction p as [a | f e k IH | x y k IH | k IH | host k IH | x k IH | id x k IH
                 | id k IH | ua k IH | m path params k IH | t k IH]; intros w.
  - exists a, w. constructor.
  - destruct (IH (emit (EvPrintf f e) w)) as (a & w' & H).
    exists a, w'. by constructor.
  - destruct (IH (emit (EvPrintln x y) w)) as (a & w' & H).
    exists a, w'. by constructor.
  - destruct (IH 0 w) as (a & w' & H).
    exists a, w'. by apply exec_Now with (now := 0).
  - destruct (IH (dns w host) (emit (EvLookupIP host) w)) as (a & w' & H).
    exists a, w'. by constructor.
  - destruct (IH (Err (ErrStore "")) (emit (EvAddAsset x (Err (ErrStore ""))) w))
      as (a & w' & H).
    exists a, w'. by apply exec_AddAsset_err with (msg := "").
  - destruct (IH (Err (ErrStore ""))
                (emit (EvUpdateAssetByID id x (Err (ErrStore ""))) w)) as (a & w' & H).
    exists a, w'. by apply exec_UpdateAssetByID_err with (msg := "").
  - destruct (db w !! id) as [rec |] eqn:E.
    + destruct (IH (Ok rec) (emit (EvCheckAssetFilesHashByID id) w)) as (a & w' & H).
      exists a, w'. by apply exec_CheckAssetFilesHashByID_ok with (rec := rec).
    + destruct (IH (Err ErrNotFound) (emit (EvCheckAssetFilesHashByID id) w))
        as (a & w' & H).
      exists a, w'. by apply exec_CheckAssetFilesHashByID_absent.
  - destruct (IH (Ok ua) (emit (EvAddUserAsset ua (Ok ua))
                            (set_user_assets (user_assets w ++ [ua]) w)))
      as (a & w' & H).
    exists a, w'. by constructor.
  - destruct (IH (zeroGetGenerateResult, Some (ErrTransport ""))
                (emit (EvCall path params (Some (ErrTransport ""))) w)) as (a & w' & H).
    exists a, w'.
    by apply exec_Call_err with (res := zeroGetGenerateResult) (msg := "").
  - destruct (IH (emit (EvGo t) (set_tasks (tasks w ++ [t]) w))) as (a & w' & H).
    exists a, w'. by constructor.
Qed.

(** ** [Validate] *)

Lemma isIPPrivate_true ip :
  isIPPrivate ip = true
  <-> net.IsLoopback ip = true \/ net.IsLinkLocalUnicast ip = true
      \/ net.IsLinkLocalMulticast ip = true \/ net.IsPrivate ip = true.
Proof.
  unfold isIPPrivate.
  destruct (net.IsLoopback ip), (net.IsLinkLocalUnicast ip),
    (net.IsLinkLocalMulticast ip), (net.IsPrivate ip); simpl; intuition congruence.
Qed.

(** The loop rejects as soon as one address is private, whatever the
    others are. *)
Lemma Validate_ips_private ips :
  (exists ip, In ip ips /\ isIPPrivate ip = true) ->
  Validate_ips ips = (false, "invalid imageUrl: private IP").
Proof.
  induction ips as [| ip0 rest IH]; intros (ip & Hin & Hp).
  - destruct Hin.
  - simpl. destruct (isIPPrivate ip0) eqn:E; [reflexivity |].
    apply IH. destruct Hin as [-> | Hin]; [congruence |]. eauto.
Qed.

Lemma Validate_ips_public ips :
  (forall ip, In ip ips -> isIPPrivate ip = false) ->
  Validate_ips ips = (true, "").
Proof.
  induction ips as [| ip0 rest IH]; intros H; [reflexivity |].
  simpl. rewrite (H ip0) by (left; reflexivity).
  apply IH. intros ip Hin. apply H. by right.
Qed.

(** The program [Validate] runs once the three checks before the lookup
    have passed. *)
Lemma Validate_reaches_lookup url_Parse p u :
  ImageUrl p <> "" ->
  url_Parse (ImageUrl p) = Some u ->
  url.Host u <> "" ->
  url.Scheme u = "http" \/ url.Scheme u = "https" ->
  Validate url_Parse p
  = net_LookupIP (url.Hostname u) (fun r =>
      match r with
      | None => Ret (false, "invalid imageUrl: lookup IP failed")
      | Some ips => Ret (Validate_ips ips)
      end).
Proof.
  intros Hne Hp Hh Hs. unfold Validate.
  apply String.eqb_neq in Hne. rewrite Hne, Hp.
  apply String.eqb_neq in Hh. rewrite Hh.
  destruct Hs as [-> | ->]; reflexivity.
Qed.

Lemma Validate_scheme_refused url_Parse p u :
  ImageUrl p <> "" ->
  url_Parse (ImageUrl p) = Some u ->
  url.Host u <> "" ->
  url.Scheme u <> "http" ->
  url.Scheme u <> "https" ->
  Validate url_Parse p = Ret (false, "invalid imageUrl: unsupported scheme").
Proof.
  intros Hne Hp Hh H1 H2. unfold Validate.
  apply String.eqb_neq in Hne, Hh, H1, H2.
  rewrite Hne, Hp, Hh, H1, H2. reflexivity.
Qed.

(** A URL that parses with a host is not the empty string, [url.Parse]
    giving the empty string no host. *)
Lemma parsed_with_host_nonempty (url_Parse : string -> option url.URL) p u :
  (forall u0, url_Parse "" = Some u0 -> url.Host u0 = "") ->
  url_Parse (ImageUrl p) = Some u ->
  url.Host u <> "" ->
  ImageUrl p <> "".
Proof. intros He Hp Hh E. rewrite E in Hp. apply Hh, (He _ Hp). Qed.

Lemma exec_Ret_iff {A : Type} w (a r : A) w' :
  exec w (Ret a) r w' <-> r = a /\ w' = w.
Proof.
  split.
  - intros H. exec_inv H. auto.
  - intros [-> ->]. constructor.
Qed.

(** With the lookup answered by [ips], one of them private, [Validate]
    returns the private-IP refusal after that one lookup. *)
Lemma Validate_exec_private url_Parse p u ips w r w' :
  ImageUrl p <> "" ->
  url_Parse (ImageUrl p) = Some u ->
  url.Host u <> "" ->
  url.Scheme u = "http" \/ url.Scheme u = "https" ->
  dns w (url.Hostname u) = Some ips ->
  (exists ip, In ip ips /\ isIPPrivate ip = true) ->
  exec w (Validate url_Parse p) r w'
  <-> r = (false, "invalid imageUrl: private IP")
      /\ w' = emit (EvLookupIP (url.Hostname u)) w.
Proof.
  intros Hne Hp Hh Hs Hd Hex.
  rewrite (Validate_reaches_lookup url_Parse p u Hne Hp Hh Hs).
  split.
  - intros H. exec_inv H. rewrite Hd in *.
    rewrite (Validate_ips_private ips Hex) in *.
    by apply exec_Ret_iff.
  - intros [-> ->]. constructor. rewrite Hd, (Validate_ips_private ips Hex).
    constructor.
Qed.

(** C8, as the code has it: the empty image URL is refused with the reason
    "missing imageUrl", before anything is parsed or looked up. *)
Theorem Validate_empty (url_Parse : string -> option url.URL) :
  Validate url_Parse {| ImageUrl := "" |} = Ret (false, "missing imageUrl")
  /\ forall w r w',
       exec w (Validate url_Parse {| ImageUrl := "" |}) r w'
       <-> r = (false, "missing imageUrl") /\ w' = w.
Proof.
  split; [reflexivity |].
  intros w r w'. change (Validate url_Parse {| ImageUrl := "" |})
    with (@Ret (bool * string) (false, "missing imageUrl")).
  apply exec_Ret_iff.
Qed.

(** C8 as stated fails: for the empty input the reason is not
    "missing URL". *)
Lemma Validate_empty_counterexample :
  exec Sample.world0 (Validate Sample.Parse {| ImageUrl := "" |})
    (false, "missing imageUrl") Sample.world0
  /\ ~ exists w',
         exec Sample.world0 (Validate Sample.Parse {| ImageUrl := "" |})
           (false, "missing URL") w'.
Proof.
  assert (E : Validate Sample.Parse {| ImageUrl := "" |}
              = Ret (false, "missing imageUrl")) by reflexivity.
  split.
  - rewrite E. constructor.
  - intros [w' H]. rewrite E in H. apply exec_Ret_iff in H.
    destruct H as [H _]. discriminate H.
Qed.

(** C7: a URL that parses with a non-empty host and whose scheme is
    neither http nor https is refused with the reason
    "invalid imageUrl: unsupported scheme"; [Validate] returns without any
    call to the resolver, and without any outside call at all.  The
    hypothesis on [url_Parse] is what [url.Parse] does with the empty
    string. *)
Theorem Validate_unsupported_scheme
  (url_Parse : string -> option url.URL) (p : MattingParams) (u : url.URL) :
  (forall u0, url_Parse "" = Some u0 -> url.Host u0 = "") ->
  url_Parse (ImageUrl p) = Some u ->
  url.Host u <> "" ->
  url.Scheme u <> "http" ->
  url.Scheme u <> "https" ->
  Validate url_Parse p = Ret (false, "invalid imageUrl: unsupported scheme")
  /\ forall w r w',
       exec w (Validate url_Parse p) r w'
       <-> r = (false, "invalid imageUrl: unsupported scheme")
           /\ w' = w /\ List.filter is_lookup (since w w') = [].
Proof.
  intros He Hp Hh H1 H2.
  pose proof (parsed_with_host_nonempty url_Parse p u He Hp Hh) as Hne.
  pose proof (Validate_scheme_refused url_Parse p u Hne Hp Hh H1 H2) as E.
  split; [exact E |].
  intros w r w'. rewrite E, exec_Ret_iff.
  split.
  - intros [-> ->]. rewrite since_refl. auto.
  - intros (-> & -> & _). auto.
Qed.

Lemma Validate_unsupported_scheme_witness :
  Validate Sample.Parse {| ImageUrl := "ftp://127.0.0.1/" |}
  = Ret (false, "invalid imageUrl: unsupported scheme")
  /\ forall w r w',
       exec w (Validate Sample.Parse {| ImageUrl := "ftp://127.0.0.1/" |}) r w'
       <-> r = (false, "invalid imageUrl: unsupported scheme")
           /\ w' = w /\ List.filter is_lookup (since w w') = [].
Proof.
  apply (Validate_unsupported_scheme Sample.Parse
           {| ImageUrl := "ftp://127.0.0.1/" |} (url.mkURL "ftp" "127.0.0.1")).
  - intros u0 H. vm_compute in H. injection H as <-. reflexivity.
  - reflexivity.
  - simpl. discriminate.
  - simpl. discriminate.
  - simpl. discriminate.
Defined.

(** C1, as the code has it: for a URL that parses with a non-empty host
    and whose hostname resolves to addresses of which at least one is
    loopback, link-local (unicast or multicast) or private, [Validate]
    returns ok=false whatever the other addresses are; when the scheme is
    http or https the reason is "invalid imageUrl: private IP", given
    after the one lookup of the hostname.  In particular so for
    "http://169.254.169.254/latest/meta-data", which [url.Parse] splits
    into the scheme http and the host 169.254.169.254 and which the
    resolver answers with that address. *)
Theorem Validate_private_ip (url_Parse : string -> option url.URL) :
  (forall u0, url_Parse "" = Some u0 -> url.Host u0 = "") ->
  (forall (p : MattingParams) (u : url.URL) (ips : list net.IP) (w : World),
     url_Parse (ImageUrl p) = Some u ->
     url.Host u <> "" ->
     dns w (url.Hostname u) = Some ips ->
     (exists ip, In ip ips
        /\ (net.IsLoopback ip = true \/ net.IsLinkLocalUnicast ip = true
            \/ net.IsLinkLocalMulticast ip = true \/ net.IsPrivate ip = true)) ->
     (forall r w', exec w (Validate url_Parse p) r w' -> fst r = false)
     /\ (url.Scheme u = "http" \/ url.Scheme u = "https" ->
         forall r w',
           exec w (Validate url_Parse p) r w'
           <-> r = (false, "invalid imageUrl: private IP")
               /\ w' = emit (EvLookupIP (url.Hostname u)) w))
  /\ (forall w : World,
        url_Parse "http://169.254.169.254/latest/meta-data"
        = Some (url.mkURL "http" "169.254.169.254") ->
        dns w "169.254.169.254" = Some [[169; 254; 169; 254]] ->
        forall r w',
          exec w (Validate url_Parse
                    {| ImageUrl := "http://169.254.169.254/latest/meta-data" |}) r w'
          <-> r = (false, "invalid imageUrl: private IP")
              /\ w' = emit (EvLookupIP "169.254.169.254") w).
Proof.
  intros He. split.
  - intros p u ips w Hp Hh Hd (ip & Hin & Hpriv).
    pose proof (parsed_with_host_nonempty url_Parse p u He Hp Hh) as Hne.
    assert (Hex : exists ip, In ip ips /\ isIPPrivate ip = true).
    { exists ip. split; [exact Hin |]. by apply isIPPrivate_true. }
    assert (Hhttp : url.Scheme u = "http" \/ url.Scheme u = "https" ->
                    forall r w',
                      exec w (Validate url_Parse p) r w'
                      <-> r = (false, "invalid imageUrl: private IP")
                          /\ w' = emit (EvLookupIP (url.Hostname u)) w).
    { intros Hs r w'. by apply Validate_exec_private with (ips := ips). }
    split; [| exact Hhttp].
    intros r w' H.
    destruct (string_dec (url.Scheme u) "http") as [E1 | N1].
    { apply Hhttp in H; [| by left]. destruct H as [-> _]. reflexivity. }
    destruct (string_dec (url.Scheme u) "https") as [E2 | N2].
    { apply Hhttp in H; [| by right]. destruct H as [-> _]. reflexivity. }
    rewrite (Validate_scheme_refused url_Parse p u Hne Hp Hh N1 N2) in H.
    apply exec_Ret_iff in H. destruct H as [-> _]. reflexivity.
  - intros w Hp Hd r w'.
    apply (Validate_exec_private url_Parse
             {| ImageUrl := "http://169.254.169.254/latest/meta-data" |}
             (url.mkURL "http" "169.254.169.254") [[169; 254; 169; 254]]).
    + simpl. discriminate.
    + exact Hp.
    + simpl. discriminate.
    + by left.
    + exact Hd.
    + exists [169; 254; 169; 254]. split; [by left | reflexivity].
Qed.

Lemma Validate_private_ip_witness :
  (forall r w',
     exec Sample.world0 (Validate Sample.Parse {| ImageUrl := "https://two.example/x" |}) r w'
     <-> r = (false, "invalid imageUrl: private IP")
         /\ w' = emit (EvLookupIP "two.example") Sample.world0)
  /\ (forall r w',
        exec Sample.world0
          (Validate Sample.Parse
             {| ImageUrl := "http://169.254.169.254/latest/meta-data" |}) r w'
        <-> r = (false, "invalid imageUrl: private IP")
            /\ w' = emit (EvLookupIP "169.254.169.254") Sample.world0).
Proof.
  assert (He : forall u0, Sample.Parse "" = Some u0 -> url.Host u0 = "").
  { intros u0 H. vm_compute in H. injection H as <-. reflexivity. }
  destruct (Validate_private_ip Sample.Parse He) as [Hgen Hmeta].
  split.
  - apply (Hgen {| ImageUrl := "https://two.example/x" |}
             (url.mkURL "https" "two.example")
             [[93; 184; 216; 34]; [10; 0; 0; 7]] Sample.world0).
    + reflexivity.
    + simpl. discriminate.
    + reflexivity.
    + exists [10; 0; 0; 7]. split; [right; left; reflexivity |].
      right. right. right. reflexivity.
    + by right.
  - apply (Hmeta Sample.world0); reflexivity.
Defined.

(** C1 as stated fails without the condition on the scheme: the hostname
    of "ftp://127.0.0.1/" resolves to a loopback address, and [Validate]
    refuses the URL for its scheme, before any lookup. *)
Lemma Validate_private_ip_counterexample :
  (exists u,
     Sample.Parse "ftp://127.0.0.1/" = Some u
     /\ dns Sample.world0 (url.Hostname u) = Some [[127; 0; 0; 1]]
     /\ net.IsLoopback [127; 0; 0; 1] = true)
  /\ exec Sample.world0 (Validate Sample.Parse {| ImageUrl := "ftp://127.0.0.1/" |})
       (false, "invalid imageUrl: unsupported scheme") Sample.world0
  /\ ~ exists w',
         exec Sample.world0 (Validate Sample.Parse {| ImageUrl := "ftp://127.0.0.1/" |})
           (false, "invalid imageUrl: private IP") w'.
Proof.
  assert (E : Validate Sample.Parse {| ImageUrl := "ftp://127.0.0.1/" |}
              = Ret (false, "invalid imageUrl: unsupported scheme")) by reflexivity.
  split; [| split].
  - exists (url.mkURL "ftp" "127.0.0.1"). repeat split; reflexivity.
  - rewrite E. constructor.
  - intros [w' H]. rewrite E in H. apply exec_Ret_iff in H.
    destruct H as [H _]. discriminate H.
Qed.

(** ** What one run of each program does to the world *)

Lemma since_app w (w' : World) evs :
  trace w' = (trace w ++ evs)%list -> since w w' = evs.
Proof. intros E. unfold since. rewrite E. apply drop_app_length. Qed.

(** [GetAIAssetStatus] on a stored record. *)
Lemma GetAIAssetStatus_found w id rec r w' :
  db w !! id = Some rec ->
  exec w (GetAIAssetStatus id) r w'
  <-> r = Ok {| Status := status_of rec; Result := details_of id rec |}
      /\ w' = emit (EvCheckAssetFilesHashByID id) w.
Proof.
  intros Hdb. unfold GetAIAssetStatus. split.
  - intros H. exec_inv H; [| congruence].
    assert (rec0 = rec) as -> by congruence.
    exec_all. auto.
  - intros [-> ->]. eapply exec_CheckAssetFilesHashByID_ok; [exact Hdb |].
    constructor.
Qed.

(** [GetAIAssetStatus] on an ID without record. *)
Lemma GetAIAssetStatus_absent w id r w' :
  db w !! id = None ->
  exec w (GetAIAssetStatus id) r w'
  <-> r = Err ErrNotFound
      /\ w' = emit (EvPrintf "failed to get asset: %v" ErrNotFound)
                (emit (EvCheckAssetFilesHashByID id) w).
Proof.
  intros Hdb. unfold GetAIAssetStatus. split.
  - intros H. exec_inv H; [congruence |]. exec_all. auto.
  - intros [-> ->]. apply exec_CheckAssetFilesHashByID_absent; [exact Hdb |].
    repeat constructor.
Qed.

(** The two ways [Generating] can run: the store fails, or it stores the
    new record under a fresh ID and the goroutine is started. *)
Lemma Generating_exec w param r w' :
  exec w (Generating param) r w'
  <-> (exists msg,
         r = Err (ErrStore msg)
         /\ w' = emit (EvPrintf "failed to add asset: %v" (ErrStore msg))
                   (emit (EvAddAsset (newAsset param) (Err (ErrStore msg))) w))
      \/ (exists id,
            db w !! id = None
            /\ r = Ok {| ImageJobId := id |}
            /\ w' = (let w1 := emit (EvAddAsset (newAsset param)
                                       (Ok (with_ID id (newAsset param))))
                                 (set_db (<[id := with_ID id (newAsset param)]> (db w)) w) in
                     let t := {| task_id := id; task_param := param |} in
                     emit (EvGo t) (set_tasks (tasks w1 ++ [t]) w1))).
Proof.
  unfold Generating. fold (newAsset param). split.
  - intros H. exec_inv H; exec_all.
    + right. exists id. auto.
    + left. exists msg. auto.
  - intros [(msg & -> & ->) | (id & Hf & -> & ->)].
    + apply exec_AddAsset_err with (msg := msg). repeat constructor.
    + apply exec_AddAsset_ok with (id := id); [exact Hf |]. simpl.
      repeat constructor.
Qed.

(** The goroutine leaves the list of pending goroutines alone, and changes
    nothing in the store but, possibly, the result marker of its own
    record. *)
Lemma generatingTask_exec_db StringArrayToString t w w' :
  exec w (generatingTask StringArrayToString t) tt w' ->
  tasks w' = tasks w
  /\ (db w' = db w
      \/ exists old h,
           db w !! task_id t = Some old
           /\ db w' = <[task_id t := with_FilesHash h old]> (db w)).
Proof.
  unfold generatingTask. intros H.
  exec_inv H; exec_all; split; eauto.
Qed.

Lemma GetAIAssetStatus_exec_db id w r w' :
  exec w (GetAIAssetStatus id) r w' -> tasks w' = tasks w /\ db w' = db w.
Proof.
  unfold GetAIAssetStatus. intros H.
  exec_inv H; exec_all; auto.
Qed.

Lemma Validate_exec_db url_Parse p w r w' :
  exec w (Validate url_Parse p) r w' -> tasks w' = tasks w /\ db w' = db w.
Proof.
  unfold Validate. intros H.
  destruct (String.eqb (ImageUrl p) ""); [exec_all; auto |].
  destruct (url_Parse (ImageUrl p)) as [u |]; [| exec_all; auto].
  destruct (String.eqb (url.Host u) ""); [exec_all; auto |].
  destruct (negb (String.eqb (url.Scheme u) "http")
            && negb (String.eqb (url.Scheme u) "https")); [exec_all; auto |].
  exec_inv H. destruct (dns w (url.Hostname u)); exec_all; auto.
Qed.

Lemma AddUserAsset_exec_db params assetType owner w r w' :
  exec w (AddUserAsset params assetType owner) r w' ->
  tasks w' = tasks w /\ db w' = db w.
Proof.
  unfold AddUserAsset. intros H.
  destruct (strconv.Atoi (AssetID params)) as [assetId err].
  exec_inv H. exec_all; auto.
Qed.

(** ** Counting the writes that set a marker *)

Lemma marker_writes_emit id ev w :
  marker_writes id (emit ev w)
  = (marker_writes id w + (if sets_marker id ev then 1 else 0))%nat.
Proof.
  unfold marker_writes, emit; simpl. rewrite List.filter_app, List.length_app.
  simpl. destruct (sets_marker id ev); reflexivity.
Qed.

Lemma marker_writes_set_db id d w : marker_writes id (set_db d w) = marker_writes id w.
Proof. reflexivity. Qed.

Lemma marker_writes_set_tasks id ts w :
  marker_writes id (set_tasks ts w) = marker_writes id w.
Proof. reflexivity. Qed.

Lemma marker_writes_set_user_assets id l w :
  marker_writes id (set_user_assets l w) = marker_writes id w.
Proof. reflexivity. Qed.

Ltac writes_frame :=
  repeat first [ rewrite marker_writes_emit
               | rewrite marker_writes_set_db
               | rewrite marker_writes_set_tasks
               | rewrite marker_writes_set_user_assets ];
  simpl; rewrite ?Nat.add_0_r; try reflexivity.

Lemma Generating_exec_writes param w r w' id :
  exec w (Generating param) r w' -> marker_writes id w' = marker_writes id w.
Proof.
  intros H. apply Generating_exec in H.
  destruct H as [(msg & -> & ->) | (id' & Hf & -> & ->)]; simpl; writes_frame.
Qed.

Lemma GetAIAssetStatus_exec_writes id0 w r w' id :
  exec w (GetAIAssetStatus id0) r w' -> marker_writes id w' = marker_writes id w.
Proof.
  unfold GetAIAssetStatus. intros H. exec_inv H; exec_all; writes_frame.
Qed.

Lemma Validate_exec_writes url_Parse p w r w' id :
  exec w (Validate url_Parse p) r w' -> marker_writes id w' = marker_writes id w.
Proof.
  unfold Validate. intros H.
  destruct (String.eqb (ImageUrl p) ""); [exec_all; reflexivity |].
  destruct (url_Parse (ImageUrl p)) as [u |]; [| exec_all; reflexivity].
  destruct (String.eqb (url.Host u) ""); [exec_all; reflexivity |].
  destruct (negb (String.eqb (url.Scheme u) "http")
            && negb (String.eqb (url.Scheme u) "https")); [exec_all; reflexivity |].
  exec_inv H. destruct (dns w (url.Hostname u)); exec_all; writes_frame.
Qed.

Lemma AddUserAsset_exec_writes params assetType owner w r w' id :
  exec w (AddUserAsset params assetType owner) r w' ->
  marker_writes id w' = marker_writes id w.
Proof.
  unfold AddUserAsset. intros H.
  destruct (strconv.Atoi (AssetID params)) as [assetId err].
  exec_inv H. exec_all; writes_frame.
Qed.

(** The goroutine either leaves the store as it is and sets no marker, or
    writes the marker [h] of its own record, which sets it when [h] is not
    empty. *)
Lemma generatingTask_exec_writes StringArrayToString t w w' :
  exec w (generatingTask StringArrayToString t) tt w' ->
  (db w' = db w /\ forall id, marker_writes id w' = marker_writes id w)
  \/ (exists old h,
        db w !! task_id t = Some old
        /\ db w' = <[task_id t := with_FilesHash h old]> (db w)
        /\ forall id,
             marker_writes id w'
             = (marker_writes id w
                + (if String.eqb (task_id t) id && negb (String.eqb h "")
                   then 1 else 0))%nat).
Proof.
  unfold generatingTask. intros H.
  exec_inv H; exec_all;
    first [ left; split; [reflexivity | intros id0; writes_frame]
          | right; do 2 eexists; split; [eassumption |]; split; [reflexivity |];
            intros id0; writes_frame ].
Qed.

(** ** The invariant of the pending goroutines *)
Section Invariant.

Variable url_Parse : string -> option url.URL.
Variable StringArrayToString : list string -> string.

Local Abbreviation step := (step url_Parse StringArrayToString).
Local Abbreviation steps := (steps url_Parse StringArrayToString).

Lemma initial_pending_ok w : initial w -> pending_ok w.
Proof.
  intros (_ & Ht & _). unfold pending_ok. rewrite Ht. split.
  - constructor.
  - intros t [].
Qed.

Lemma step_pending_ok w w' : step w w' -> pending_ok w -> pending_ok w'.
Proof.
  intros Hs [Hnd Hrec]. destruct Hs as [w param r w' H | w ts1 t ts2 w' Et H
    | w id r w' H | w p r w' H | w params ty owner r w' H].
  - apply Generating_exec in H.
    destruct H as [(msg & -> & ->) | (id & Hf & -> & ->)]; [by split |].
    unfold pending_ok; simpl. split.
    + rewrite map_app; simpl. apply NoDup_app. split; [exact Hnd |]. split.
      * intros x Hx [E | []]%list_elem_of_In. subst x.
        apply list_elem_of_In, in_map_iff in Hx. destruct Hx as (t & Et & Hin).
        destruct (Hrec t Hin) as (rec & Hdb & _). congruence.
      * apply NoDup_singleton.
    + intros t [Hin | [<- | []]]%in_app_iff.
      * destruct (Hrec t Hin) as (rec & Hdb & Hh). exists rec. split; [| exact Hh].
        rewrite lookup_insert_ne; [exact Hdb | congruence].
      * simpl. eexists. rewrite lookup_insert_eq. split; reflexivity.
  - apply generatingTask_exec_db in H. simpl in H. destruct H as [Ht Hdb].
    rewrite Et in Hnd, Hrec. rewrite map_app in Hnd; simpl in Hnd.
    apply NoDup_app in Hnd. destruct Hnd as (Hnd1 & Hdisj & Hnd2).
    apply NoDup_cons in Hnd2. destruct Hnd2 as [Hnotin Hnd2].
    assert (Hother : forall t', In t' (ts1 ++ ts2) -> task_id t' <> task_id t).
    { intros t' [Hin | Hin]%in_app_iff E.
      - apply (Hdisj (task_id t')).
        + apply list_elem_of_In, in_map. exact Hin.
        + rewrite E. left.
      - apply Hnotin. rewrite <- E. apply list_elem_of_In, in_map. exact Hin. }
    unfold pending_ok. rewrite Ht. split.
    + rewrite map_app. apply NoDup_app. split; [exact Hnd1 |]. split; [| exact Hnd2].
      intros x Hx Hx2. apply (Hdisj x Hx). by right.
    + intros t' Hin.
      assert (Hin' : In t' (ts1 ++ t :: ts2)).
      { apply in_app_iff. apply in_app_iff in Hin. destruct Hin; [by left |].
        right. by right. }
      destruct (Hrec t' Hin') as (rec & Hdb' & Hh). exists rec. split; [| exact Hh].
      destruct Hdb as [-> | (old & h & _ & ->)]; [exact Hdb' |].
      rewrite lookup_insert_ne; [exact Hdb' |]. intros E. by apply (Hother t' Hin).
  - apply GetAIAssetStatus_exec_db in H. destruct H as [Ht Hdb].
    unfold pending_ok. rewrite Ht, Hdb. by split.
  - apply Validate_exec_db in H. destruct H as [Ht Hdb].
    unfold pending_ok. rewrite Ht, Hdb. by split.
  - apply AddUserAsset_exec_db in H. destruct H as [Ht Hdb].
    unfold pending_ok. rewrite Ht, Hdb. by split.
Qed.

Lemma steps_pending_ok w w' : steps w w' -> pending_ok w -> pending_ok w'.
Proof.
  induction 1 as [| w w1 w' Hs _ IH]; [auto |].
  intros Hok. apply IH. by apply (step_pending_ok w w1).
Qed.

(** A step changes no record whose result marker is set. *)
Lemma step_keeps_finished w w' id rec :
  step w w' -> pending_ok w ->
  db w !! id = Some rec -> model.FilesHash rec <> "" ->
  db w' !! id = Some rec.
Proof.
  intros Hs Hok Hdb Hne. pose proof Hok as [Hnd Hrec].
  destruct Hs as [w param r w' H | w ts1 t ts2 w' Et H
    | w id' r w' H | w p r w' H | w params ty owner r w' H].
  - apply Generating_exec in H.
    destruct H as [(msg & -> & ->) | (id' & Hf & -> & ->)]; [exact Hdb |].
    simpl. rewrite lookup_insert_ne; [exact Hdb | congruence].
  - apply generatingTask_exec_db in H. simpl in H.
    destruct H as [_ [-> | (old & h & _ & ->)]]; [exact Hdb |].
    rewrite lookup_insert_ne; [exact Hdb |]. intros E.
    destruct (Hrec t) as (rec' & Hdb' & Hh).
    { rewrite Et. apply in_app_iff. right. by left. }
    rewrite E in Hdb'. congruence.
  - apply GetAIAssetStatus_exec_db in H. destruct H as [_ ->]. exact Hdb.
  - apply Validate_exec_db in H. destruct H as [_ ->]. exact Hdb.
  - apply AddUserAsset_exec_db in H. destruct H as [_ ->]. exact Hdb.
Qed.

Lemma steps_keep_finished w w' id rec :
  steps w w' -> pending_ok w ->
  db w !! id = Some rec -> model.FilesHash rec <> "" ->
  db w' !! id = Some rec.
Proof.
  induction 1 as [| w w1 w' Hs _ IH]; [auto |].
  intros Hok Hdb Hne. apply IH.
  - by apply (step_pending_ok w w1).
  - by apply (step_keeps_finished w w1).
  - exact Hne.
Qed.

(** No step removes a record. *)
Lemma step_keeps_record w w' id :
  step w w' -> is_Some (db w !! id) -> is_Some (db w' !! id).
Proof.
  intros Hs Hdb.
  destruct Hs as [w param r w' H | w ts1 t ts2 w' Et H
    | w id' r w' H | w p r w' H | w params ty owner r w' H].
  - apply Generating_exec in H.
    destruct H as [(msg & -> & ->) | (id' & Hf & -> & ->)]; [exact Hdb |].
    simpl. rewrite lookup_insert_is_Some. destruct (decide (id' = id)); auto.
  - apply generatingTask_exec_db in H. simpl in H.
    destruct H as [_ [-> | (old & h & _ & ->)]]; [exact Hdb |].
    rewrite lookup_insert_is_Some. destruct (decide (task_id t = id)); auto.
  - apply GetAIAssetStatus_exec_db in H. destruct H as [_ ->]. exact Hdb.
  - apply Validate_exec_db in H. destruct H as [_ ->]. exact Hdb.
  - apply AddUserAsset_exec_db in H. destruct H as [_ ->]. exact Hdb.
Qed.

Lemma steps_keep_record w w' id :
  steps w w' -> is_Some (db w !! id) -> is_Some (db w' !! id).
Proof.
  induction 1 as [| w w1 w' Hs _ IH]; [auto |].
  intros Hdb. apply IH. by apply (step_keeps_record w w1).
Qed.

Lemma initial_writes_ok w : initial w -> writes_ok w.
Proof.
  intros (Hdb & _ & Htr) id. unfold marker_writes, marker_set.
  rewrite Htr, Hdb, lookup_empty. reflexivity.
Qed.

Lemma marker_set_insert_ne id id' rec w (w' : World) :
  db w' = <[id' := rec]> (db w) -> id' <> id -> marker_set id w' = marker_set id w.
Proof. intros E Hne. unfold marker_set. by rewrite E, lookup_insert_ne. Qed.

Lemma marker_set_insert_eq id rec w (w' : World) :
  db w' = <[id := rec]> (db w) ->
  marker_set id w' = negb (String.eqb (model.FilesHash rec) "").
Proof. intros E. unfold marker_set. by rewrite E, lookup_insert_eq. Qed.

Lemma marker_set_same id w (w' : World) :
  db w' = db w -> marker_set id w' = marker_set id w.
Proof. intros E. unfold marker_set. by rewrite E. Qed.

Lemma step_writes_ok w w' :
  step w w' -> pending_ok w -> writes_ok w -> writes_ok w'.
Proof.
  intros Hs [Hnd Hrec] Hw id.
  destruct Hs as [w param r w' H | w ts1 t ts2 w' Et H
    | w id' r w' H | w p r w' H | w params ty owner r w' H].
  - rewrite (Generating_exec_writes param w r w' id H), (Hw id).
    apply Generating_exec in H.
    destruct H as [(msg & -> & ->) | (id' & Hf & -> & ->)]; [reflexivity |].
    match goal with
    | |- _ = (if marker_set id ?W then _ else _) =>
        assert (E : marker_set id W = marker_set id w); [| by rewrite E]
    end.
    destruct (decide (id' = id)) as [-> | Hne].
    + erewrite marker_set_insert_eq by reflexivity.
      unfold marker_set. rewrite Hf. reflexivity.
    + by apply (marker_set_insert_ne id id' (with_ID id' (newAsset param)) w).
  - apply generatingTask_exec_writes in H. simpl in H.
    destruct H as [[Hdb Hcount] | (old & h & Hold & Hdb & Hcount)].
    + rewrite Hcount. change (marker_writes id (set_tasks (ts1 ++ ts2) w))
        with (marker_writes id w).
      rewrite (Hw id). by rewrite (marker_set_same id w w').
    + rewrite Hcount. change (marker_writes id (set_tasks (ts1 ++ ts2) w))
        with (marker_writes id w).
      rewrite (Hw id).
      destruct (String.eqb_spec (task_id t) id) as [<- | Hne]; simpl.
      * destruct (Hrec t) as (rec & Hdb' & Hh).
        { rewrite Et. apply in_app_iff. right. by left. }
        assert (old = rec) as -> by congruence.
        rewrite (marker_set_insert_eq (task_id t) (with_FilesHash h rec) w w' Hdb).
        unfold marker_set. rewrite Hdb', Hh. simpl.
        destruct (String.eqb h ""); reflexivity.
      * rewrite (marker_set_insert_ne id (task_id t) (with_FilesHash h old) w w' Hdb Hne).
        by rewrite Nat.add_0_r.
  - rewrite (GetAIAssetStatus_exec_writes id' w r w' id H), (Hw id).
    apply GetAIAssetStatus_exec_db in H. destruct H as [_ Hdb].
    by rewrite (marker_set_same id w w').
  - rewrite (Validate_exec_writes url_Parse p w r w' id H), (Hw id).
    apply Validate_exec_db in H. destruct H as [_ Hdb].
    by rewrite (marker_set_same id w w').
  - rewrite (AddUserAsset_exec_writes params ty owner w r w' id H), (Hw id).
    apply AddUserAsset_exec_db in H. destruct H as [_ Hdb].
    by rewrite (marker_set_same id w w').
Qed.

Lemma steps_writes_ok w w' :
  steps w w' -> pending_ok w -> writes_ok w -> writes_ok w'.
Proof.
  induction 1 as [| w w1 w' Hs _ IH]; [auto |].
  intros Hok Hw. apply IH.
  - by apply (step_pending_ok w w1).
  - by apply (step_writes_ok w w1).
Qed.

End Invariant.

(** ** The sample run *)

Lemma sample_dispatch :
  exec Sample.world0 (Generating Sample.catParam)
    (Ok {| ImageJobId := Sample.job1 |}) Sample.world1.
Proof.
  apply Generating_exec. right. exists Sample.job1.
  split; [reflexivity |]. split; reflexivity.
Qed.

Lemma sample_task :
  exec (set_tasks [] Sample.world1) (generatingTask Sample.join Sample.task1) tt
    Sample.world2.
Proof.
  unfold generatingTask.
  apply exec_Call_ok with (res := {| gg_ImageUrl := "https://cdn/x.png" |}).
  apply exec_UpdateAssetByID_ok with (old := Sample.record1).
  - apply lookup_insert_eq.
  - apply exec_Ret.
Qed.

Lemma sample_steps url_Parse :
  steps url_Parse Sample.join Sample.world0 Sample.world1
  /\ steps url_Parse Sample.join Sample.world1 Sample.world2.
Proof.
  split.
  - apply rtc_once. eapply step_Generating. apply sample_dispatch.
  - apply rtc_once.
    apply (step_generatingTask _ _ Sample.world1 [] Sample.task1 [] Sample.world2).
    + reflexivity.
    + apply sample_task.
Qed.

Lemma sample_initial : initial Sample.world0.
Proof. repeat split; reflexivity. Qed.

Lemma status_of_finish rec : status_of rec = finish <-> model.FilesHash rec <> "".
Proof.
  unfold status_of. destruct (String.eqb_spec (model.FilesHash rec) "") as [E | N].
  - split; [discriminate | congruence].
  - split; auto.
Qed.

Lemma status_of_generating rec : status_of rec = generating <-> model.FilesHash rec = "".
Proof.
  unfold status_of. destruct (String.eqb_spec (model.FilesHash rec) "") as [E | N].
  - split; auto.
  - split; [discriminate | congruence].
Qed.

(** A successful answer of [GetAIAssetStatus] is computed from the stored
    record. *)
Lemma GetAIAssetStatus_Ok_inv w id res w' :
  exec w (GetAIAssetStatus id) (Ok res) w' ->
  exists rec, db w !! id = Some rec
              /\ res = {| Status := status_of rec; Result := details_of id rec |}.
Proof.
  intros H. destruct (db w !! id) as [rec |] eqn:E.
  - apply (GetAIAssetStatus_found w id rec) in H; [| exact E].
    destruct H as [H _]. exists rec. split; [reflexivity | congruence].
  - apply (GetAIAssetStatus_absent w id) in H; [| exact E].
    destruct H as [H _]. discriminate H.
Qed.

(** ** Status resolution and dispatch *)

(** C6: in every run of the system from a world without records, once
    [GetAIAssetStatus] has answered finish for an ID, every later
    [GetAIAssetStatus] on that ID answers finish again, with the same
    details, and never generating.  Once the result marker of a record is
    non-empty, no later step changes the record, so it is never emptied;
    a non-empty marker was set by exactly one write, and no marker has
    been set by more than one. *)
Theorem finished_never_reverts
  (url_Parse : string -> option url.URL) (StringArrayToString : list string -> string)
  (w0 w : World) :
  initial w0 ->
  steps url_Parse StringArrayToString w0 w ->
  (forall id rec w',
     steps url_Parse StringArrayToString w w' ->
     db w !! id = Some rec -> model.FilesHash rec <> "" ->
     db w' !! id = Some rec)
  /\ (forall id res w1 w',
        exec w (GetAIAssetStatus id) (Ok res) w1 ->
        Status res = finish ->
        steps url_Parse StringArrayToString w1 w' ->
        forall r w2,
          exec w' (GetAIAssetStatus id) r w2 ->
          exists res', r = Ok res' /\ Status res' = finish
                       /\ Status res' <> generating /\ Result res' = Result res)
  /\ (forall id rec,
        db w !! id = Some rec -> model.FilesHash rec <> "" ->
        marker_writes id w = 1%nat)
  /\ (forall id, (marker_writes id w <= 1)%nat).
Proof.
  intros Hinit Hsteps.
  assert (Hok : pending_ok w).
  { apply (steps_pending_ok url_Parse StringArrayToString w0 w Hsteps).
    by apply initial_pending_ok. }
  assert (Hw : writes_ok w).
  { apply (steps_writes_ok url_Parse StringArrayToString w0 w Hsteps).
    - by apply initial_pending_ok.
    - by apply initial_writes_ok. }
  split; [| split; [| split]]; cycle 2.
  - intros id rec Hdb Hne. rewrite (Hw id). unfold marker_set. rewrite Hdb.
    apply String.eqb_neq in Hne. rewrite Hne. reflexivity.
  - intros id. rewrite (Hw id). destruct (marker_set id w); lia.
  - intros id rec w' Hs Hdb Hne.
    by apply (steps_keep_finished url_Parse StringArrayToString w w').
  - intros id res w1 w' H1 Hfin Hs r w2 H2.
    destruct (GetAIAssetStatus_Ok_inv w id res w1 H1) as (rec & Hdb & ->).
    simpl in Hfin. apply status_of_finish in Hfin.
    assert (Hs' : steps url_Parse StringArrayToString w w').
    { eapply rtc_l; [| exact Hs]. eapply step_GetAIAssetStatus. exact H1. }
    assert (Hdb' : db w' !! id = Some rec).
    { by apply (steps_keep_finished url_Parse StringArrayToString w w'). }
    apply (GetAIAssetStatus_found w' id rec) in H2; [| exact Hdb'].
    destruct H2 as [-> _]. eexists. split; [reflexivity |]. simpl.
    apply status_of_finish in Hfin. rewrite Hfin. repeat split. discriminate.
Qed.

Lemma finished_never_reverts_witness :
  marker_writes Sample.job1 Sample.world2 = 1%nat
  /\ (forall w', steps Sample.Parse Sample.join Sample.world2 w' ->
     db w' !! Sample.job1 = Some (with_FilesHash "https://cdn/x.png" Sample.record1))
  /\ (forall w',
        steps Sample.Parse Sample.join
          (emit (EvCheckAssetFilesHashByID Sample.job1) Sample.world2) w' ->
        forall r w2,
          exec w' (GetAIAssetStatus Sample.job1) r w2 ->
          exists res', r = Ok res' /\ Status res' = finish
                       /\ Status res' <> generating
                       /\ Result res'
                          = details_of Sample.job1
                              (with_FilesHash "https://cdn/x.png" Sample.record1)).
Proof.
  destruct (sample_steps Sample.Parse) as [S1 S2].
  destruct (finished_never_reverts Sample.Parse Sample.join Sample.world0 Sample.world2)
    as (Hkeep & Hfin & Hone & _).
  - exact sample_initial.
  - eapply rtc_trans; [exact S1 | exact S2].
  - split; [| split].
    + apply (Hone Sample.job1 (with_FilesHash "https://cdn/x.png" Sample.record1)).
      * apply lookup_insert_eq.
      * simpl. discriminate.
    + intros w' Hs. apply (Hkeep Sample.job1 _ w' Hs).
      * apply lookup_insert_eq.
      * simpl. discriminate.
    + intros w' Hs r w2 H2.
      apply (Hfin Sample.job1
               {| Status := finish;
                  Result := details_of Sample.job1
                              (with_FilesHash "https://cdn/x.png" Sample.record1) |}
               (emit (EvCheckAssetFilesHashByID Sample.job1) Sample.world2) w'
               ltac:(apply (GetAIAssetStatus_found Sample.world2 Sample.job1
                              (with_FilesHash "https://cdn/x.png" Sample.record1));
                     [apply lookup_insert_eq | split; reflexivity])
               eq_refl Hs r w2 H2).
Defined.

(** C4: for a record found in the store, [GetAIAssetStatus] answers
    generating when the result marker is empty and finish when it is not,
    never waiting, and the details are the job ID, the record's asset type,
    the marker as image URL and an empty skeleton URL. *)
Theorem GetAIAssetStatus_of_record (w : World) (id : string) (rec : model.Asset) :
  db w !! id = Some rec ->
  (exists res w', exec w (GetAIAssetStatus id) (Ok res) w')
  /\ forall r w',
       exec w (GetAIAssetStatus id) r w' ->
       exists res,
         r = Ok res
         /\ (model.FilesHash rec = "" -> Status res = generating)
         /\ (model.FilesHash rec <> "" -> Status res = finish)
         /\ Status res <> waiting
         /\ Result res
            = {| JobId := id;
                 Type_ := model.AssetType_ rec;
                 Files := {| files_ImageUrl := model.FilesHash rec;
                             SkeletonUrl := "" |} |}
         /\ db w' = db w.
Proof.
  intros Hdb. split.
  - do 2 eexists. apply (GetAIAssetStatus_found w id rec _ _ Hdb). split; reflexivity.
  - intros r w' H. apply (GetAIAssetStatus_found w id rec _ _ Hdb) in H.
    destruct H as [-> ->]. eexists. split; [reflexivity |]. simpl.
    split; [apply status_of_generating |].
    split; [apply status_of_finish |].
    split; [| split; reflexivity].
    unfold status_of. destruct (String.eqb (model.FilesHash rec) ""); discriminate.
Qed.

Lemma GetAIAssetStatus_of_record_witness :
  (exists res w', exec Sample.world1 (GetAIAssetStatus Sample.job1) (Ok res) w')
  /\ (forall r w',
        exec Sample.world1 (GetAIAssetStatus Sample.job1) r w' ->
        exists res, r = Ok res /\ Status res = generating)
  /\ (forall r w',
        exec Sample.world2 (GetAIAssetStatus Sample.job1) r w' ->
        exists res,
          r = Ok res /\ Status res = finish
          /\ files_ImageUrl (Files (Result res)) = "https://cdn/x.png").
Proof.
  pose proof (GetAIAssetStatus_of_record Sample.world1 Sample.job1 Sample.record1
                (lookup_insert_eq _ _ _)) as [Hex H1].
  pose proof (GetAIAssetStatus_of_record Sample.world2 Sample.job1
                (with_FilesHash "https://cdn/x.png" Sample.record1)
                (lookup_insert_eq _ _ _)) as [_ H2].
  split; [exact Hex |]. split.
  - intros r w' H. destruct (H1 r w' H) as (res & -> & Hg & _).
    exists res. split; [reflexivity |]. apply Hg. reflexivity.
  - intros r w' H. destruct (H2 r w' H) as (res & -> & _ & Hf & _ & Hres & _).
    exists res. split; [reflexivity |]. split.
    + apply Hf. simpl. discriminate.
    + rewrite Hres. reflexivity.
Defined.

(** C9: [GetAIAssetStatus] hands back the error of the store lookup
    unchanged; so for an ID without record, the lookup failing with
    NotFound, it fails with NotFound and with nothing else. *)
Theorem GetAIAssetStatus_unknown_id (id : string) :
  (exists k,
     GetAIAssetStatus id = model_CheckAssetFilesHashByID id k
     /\ forall e, k (Err e) = logger_Printf "failed to get asset: %v" e (Ret (Err e)))
  /\ forall w : World,
       db w !! id = None ->
       (exists r w', exec w (GetAIAssetStatus id) r w')
       /\ forall r w',
            exec w (GetAIAssetStatus id) r w' -> r = Err ErrNotFound /\ db w' = db w.
Proof.
  split.
  - eexists. split; [reflexivity |]. intros e. reflexivity.
  - intros w Hdb. split.
    + do 2 eexists. apply (GetAIAssetStatus_absent w id _ _ Hdb). split; reflexivity.
    + intros r w' H. apply (GetAIAssetStatus_absent w id _ _ Hdb) in H.
      destruct H as [-> ->]. split; reflexivity.
Qed.

Lemma GetAIAssetStatus_unknown_id_witness :
  db Sample.world1 !! "no-such-job" = None
  /\ (exists r w', exec Sample.world1 (GetAIAssetStatus "no-such-job") r w')
  /\ forall r w',
       exec Sample.world1 (GetAIAssetStatus "no-such-job") r w' ->
       r = Err ErrNotFound /\ db w' = db Sample.world1.
Proof.
  assert (Hdb : db Sample.world1 !! "no-such-job" = None).
  { simpl. rewrite lookup_insert_ne by discriminate. apply lookup_empty. }
  split; [exact Hdb |].
  destruct (GetAIAssetStatus_unknown_id "no-such-job") as [_ H].
  exact (H Sample.world1 Hdb).
Defined.

(** A fresh ID is always at hand, so [Generating] can succeed in every
    world. *)
Lemma Generating_can_succeed w param :
  exists id w', db w !! id = None
                /\ exec w (Generating param) (Ok {| ImageJobId := id |}) w'.
Proof.
  destruct (exist_fresh (dom (db w))) as [id Hid].
  apply not_elem_of_dom in Hid.
  exists id. eexists. split; [exact Hid |].
  apply Generating_exec. right. exists id. split; [exact Hid |]. split; reflexivity.
Qed.

(** C3: [Generating] calls the store first.  When that call fails, the
    error it returned is logged and returned at once: nothing is stored and
    no goroutine is started.  When it succeeds, the goroutine is started
    after it, and the ID returned is the ID of a record that is in the
    store at the return and after any number of later steps.  Both kinds of
    run exist in every world. *)
Theorem Generating_creates_record_first
  (url_Parse : string -> option url.URL) (StringArrayToString : list string -> string)
  (param : GenerateParams) :
  (exists k,
     Generating param = model_AddAsset (newAsset param) k
     /\ forall e, k (Err e) = logger_Printf "failed to add asset: %v" e (Ret (Err e)))
  /\ (forall w e w',
        exec w (Generating param) (Err e) w' ->
        since w w' = [EvAddAsset (newAsset param) (Err e);
                      EvPrintf "failed to add asset: %v" e]
        /\ db w' = db w /\ tasks w' = tasks w)
  /\ (forall w res w',
        exec w (Generating param) (Ok res) w' ->
        since w w' = [EvAddAsset (newAsset param)
                        (Ok (with_ID (ImageJobId res) (newAsset param)));
                      EvGo {| task_id := ImageJobId res; task_param := param |}]
        /\ (exists rec, db w' !! ImageJobId res = Some rec
                        /\ model.ID rec = ImageJobId res)
        /\ tasks w' = (tasks w ++ [{| task_id := ImageJobId res; task_param := param |}])%list
        /\ forall w'',
             steps url_Parse StringArrayToString w' w'' ->
             is_Some (db w'' !! ImageJobId res))
  /\ (forall w,
        (exists e w', exec w (Generating param) (Err e) w')
        /\ (exists res w', exec w (Generating param) (Ok res) w')).
Proof.
  split; [| split; [| split]]; cycle 3.
  - intros w. split.
    + exists (ErrStore ""). eexists. apply Generating_exec. left.
      exists "". split; reflexivity.
    + destruct (Generating_can_succeed w param) as (id & w' & _ & H). eauto.
  - eexists. split; [reflexivity |]. intros e. reflexivity.
  - intros w e w' H. apply Generating_exec in H.
    destruct H as [(msg & E & ->) | (id & _ & E & _)]; [| discriminate E].
    injection E as ->. split; [| split; reflexivity].
    apply since_app. simpl. by rewrite <- app_assoc.
  - intros w res w' H. apply Generating_exec in H.
    destruct H as [(msg & E & _) | (id & Hf & E & ->)]; [discriminate E |].
    injection E as ->. simpl.
    split. { apply since_app. simpl. by rewrite <- app_assoc. }
    split. { eexists. split; [apply lookup_insert_eq | reflexivity]. }
    split; [reflexivity |].
    intros w'' Hs.
    apply (steps_keep_record url_Parse StringArrayToString _ w'' id Hs).
    simpl. rewrite lookup_insert_eq. by eexists.
Qed.

Lemma Generating_creates_record_first_witness :
  (forall w'',
     steps Sample.Parse Sample.join Sample.world1 w'' ->
     is_Some (db w'' !! Sample.job1))
  /\ since Sample.world0 Sample.world1
     = [EvAddAsset (newAsset Sample.catParam) (Ok Sample.record1); EvGo Sample.task1]
  /\ since Sample.world0
       (emit (EvPrintf "failed to add asset: %v" (ErrStore "down"))
          (emit (EvAddAsset (newAsset Sample.catParam) (Err (ErrStore "down")))
             Sample.world0))
     = [EvAddAsset (newAsset Sample.catParam) (Err (ErrStore "down"));
        EvPrintf "failed to add asset: %v" (ErrStore "down")].
Proof.
  destruct (Generating_creates_record_first Sample.Parse Sample.join Sample.catParam)
    as (_ & Herr & Hok & _).
  destruct (Hok Sample.world0 {| ImageJobId := Sample.job1 |} Sample.world1)
    as (Htrace & _ & _ & Hkeep).
  { apply Generating_exec. right. exists Sample.job1.
    split; [reflexivity |]. split; reflexivity. }
  split; [exact Hkeep |]. split; [exact Htrace |].
  apply (Herr Sample.world0 (ErrStore "down")).
  apply Generating_exec. left. exists "down". split; reflexivity.
Defined.

(** C5: [Generating] asks for a Backdrop record exactly when width and
    height are both positive, and for a Sprite record otherwise, and that
    is the type of the record stored.  For the request with category
    animal, keyword cat, width 0 and height 0, a successful call returns an
    ID that no record had before, the record stored under it is a Sprite
    with an empty result marker, and [GetAIAssetStatus] on that ID right
    after the return answers generating. *)
Theorem Generating_classification :
  (forall param : GenerateParams,
     exists ty k,
       Generating param
       = model_AddAsset {| model.ID := ""; model.AssetType_ := ty; model.FilesHash := "" |} k
       /\ (ty = model.AssetTypeBackdrop <-> Width param > 0 /\ Height param > 0)
       /\ (ty = model.AssetTypeSprite <-> ~ (Width param > 0 /\ Height param > 0)))
  /\ (forall (param : GenerateParams) w res w',
        exec w (Generating param) (Ok res) w' ->
        exists rec,
          db w' !! ImageJobId res = Some rec
          /\ (model.AssetType_ rec = model.AssetTypeBackdrop
              <-> Width param > 0 /\ Height param > 0)
          /\ (model.AssetType_ rec = model.AssetTypeSprite
              <-> ~ (Width param > 0 /\ Height param > 0)))
  /\ (forall w : World,
        let param := {| Category := ["animal"]; Keyword := "cat";
                        Width := 0; Height := 0 |} in
        (exists res w', exec w (Generating param) (Ok res) w')
        /\ forall res w',
             exec w (Generating param) (Ok res) w' ->
             db w !! ImageJobId res = None
             /\ db w' !! ImageJobId res
                = Some {| model.ID := ImageJobId res;
                          model.AssetType_ := model.AssetTypeSprite;
                          model.FilesHash := "" |}
             /\ forall r w2,
                  exec w' (GetAIAssetStatus (ImageJobId res)) r w2 ->
                  r = Ok {| Status := generating;
                            Result := {| JobId := ImageJobId res;
                                         Type_ := model.AssetTypeSprite;
                                         Files := {| files_ImageUrl := "";
                                                     SkeletonUrl := "" |} |} |}).
Proof.
  assert (Hty : forall param : GenerateParams,
            let ty := if (Height param >? 0) && (Width param >? 0)
                      then model.AssetTypeBackdrop else model.AssetTypeSprite in
            (ty = model.AssetTypeBackdrop <-> Width param > 0 /\ Height param > 0)
            /\ (ty = model.AssetTypeSprite <-> ~ (Width param > 0 /\ Height param > 0))).
  { intros param. simpl.
    destruct (Z.gtb_spec (Height param) 0), (Z.gtb_spec (Width param) 0); simpl;
      split; split; intros; first [discriminate | reflexivity | lia | exfalso; lia]. }
  split; [| split].
  - intros param. do 2 eexists. split; [reflexivity |]. apply Hty.
  - intros param w res w' H. apply Generating_exec in H.
    destruct H as [(msg & E & _) | (id & Hf & E & ->)]; [discriminate E |].
    injection E as ->. simpl. eexists. split; [apply lookup_insert_eq |].
    simpl. apply Hty.
  - intros w param. split.
    + destruct (Generating_can_succeed w param) as (id & w' & _ & H). eauto.
    + intros res w' H. apply Generating_exec in H.
      destruct H as [(msg & E & _) | (id & Hf & E & ->)]; [discriminate E |].
      injection E as ->. simpl.
      split; [exact Hf |]. split; [apply lookup_insert_eq |].
      intros r w2 H2.
      eapply GetAIAssetStatus_found in H2; [| simpl; apply lookup_insert_eq].
      destruct H2 as [-> _]. reflexivity.
Qed.

Lemma Generating_classification_witness :
  db Sample.world0 !! Sample.job1 = None
  /\ db Sample.world1 !! Sample.job1 = Some Sample.record1
  /\ forall r w2,
       exec Sample.world1 (GetAIAssetStatus Sample.job1) r w2 ->
       r = Ok {| Status := generating;
                 Result := {| JobId := Sample.job1;
                              Type_ := model.AssetTypeSprite;
                              Files := {| files_ImageUrl := "";
                                          SkeletonUrl := "" |} |} |}.
Proof.
  destruct Generating_classification as (_ & _ & H).
  destruct (H Sample.world0) as [_ Hcat].
  apply (Hcat {| ImageJobId := Sample.job1 |} Sample.world1).
  apply Generating_exec. right. exists Sample.job1.
  split; [reflexivity |]. split; reflexivity.
Defined.

(** ** The goroutine of [Generating] *)

(** The events after a call of [model.UpdateAssetByID] that returned [r]. *)
Lemma generatingTask_exec_trace StringArrayToString t w w' :
  exec w (generatingTask StringArrayToString t) tt w' ->
  let params := {| gg_Category := StringArrayToString (Category (task_param t));
                   gg_Prompt := Keyword (task_param t) |} in
  let update h := {| model.ID := ""; model.AssetType_ := model.zeroAssetType;
                     model.FilesHash := h |} in
  let after r := match r with
                 | Ok _ => []
                 | Err e' => [EvPrintf "failed to update asset: %v" e']
                 end in
  (exists res r,
     since w w' = EvCall "/generate" params None
                  :: EvUpdateAssetByID (task_id t) (update (gg_ImageUrl res)) r
                  :: after r)
  \/ (exists e res r,
        since w w' = EvCall "/generate" params (Some e)
                     :: EvPrintf "failed to call: %v" e
                     :: EvUpdateAssetByID (task_id t) (update (gg_ImageUrl res)) r
                     :: after r).
Proof.
  unfold generatingTask. intros H. simpl.
  exec_inv H; exec_all;
    [left; exists res | left; exists res | left; exists res
    | right; eexists; exists res | right; eexists; exists res
    | right; eexists; exists res];
    first [ eexists (Ok _); apply since_app; simpl; rewrite <- ?app_assoc; reflexivity
          | eexists (Err _); apply since_app; simpl; rewrite <- ?app_assoc; reflexivity ].
Qed.

(** C2, what the code does on the failure path: when the remote call
    fails, the goroutine logs the failure and goes on to call
    [model.UpdateAssetByID] for its record, once, with the image URL that
    the response variable holds after the failed call (the empty string
    when the call left it untouched), and the store carries the write out
    when it can; when the remote call succeeds it makes that call once
    too, with the image URL returned. *)
Theorem generatingTask_updates_after_failed_call
  (StringArrayToString : list string -> string) (t : Task) :
  (exists k,
     generatingTask StringArrayToString t
     = aigcClient_Call MethodPost "/generate"
         {| gg_Category := StringArrayToString (Category (task_param t));
            gg_Prompt := Keyword (task_param t) |} k
     /\ forall generateResult e,
          exists k',
            k (generateResult, Some e)
            = logger_Printf "failed to call: %v" e
                (model_UpdateAssetByID (task_id t)
                   {| model.ID := ""; model.AssetType_ := model.zeroAssetType;
                      model.FilesHash := gg_ImageUrl generateResult |} k'))
  /\ (forall w w',
        exec w (generatingTask StringArrayToString t) tt w' ->
        length (List.filter is_update (since w w')) = 1%nat
        /\ forall path params e,
             hd_error (since w w') = Some (EvCall path params (Some e)) ->
             exists generateResult r,
               since w w'
               = EvCall path params (Some e)
                 :: EvPrintf "failed to call: %v" e
                 :: EvUpdateAssetByID (task_id t)
                      {| model.ID := ""; model.AssetType_ := model.zeroAssetType;
                         model.FilesHash := gg_ImageUrl generateResult |} r
                 :: match r with
                    | Ok _ => []
                    | Err e' => [EvPrintf "failed to update asset: %v" e']
                    end)
  /\ forall w generateResult msg old,
       db w !! task_id t = Some old ->
       exists w',
         exec w (generatingTask StringArrayToString t) tt w'
         /\ since w w'
            = [EvCall "/generate"
                 {| gg_Category := StringArrayToString (Category (task_param t));
                    gg_Prompt := Keyword (task_param t) |}
                 (Some (ErrTransport msg));
               EvPrintf "failed to call: %v" (ErrTransport msg);
               EvUpdateAssetByID (task_id t)
                 {| model.ID := ""; model.AssetType_ := model.zeroAssetType;
                    model.FilesHash := gg_ImageUrl generateResult |}
                 (Ok (with_FilesHash (gg_ImageUrl generateResult) old))]
         /\ db w' !! task_id t
            = Some (with_FilesHash (gg_ImageUrl generateResult) old).
Proof.
  split; [| split].
  - eexists. split; [reflexivity |]. intros generateResult e.
    eexists. reflexivity.
  - intros w w' H. apply generatingTask_exec_trace in H. simpl in H.
    destruct H as [(res & r & ->) | (e & res & r & ->)].
    + split; [destruct r; reflexivity |]. intros path params e H. discriminate H.
    + split; [destruct r; reflexivity |]. intros path params e' H.
      simpl in H. injection H as <- <- <-. exists res, r. reflexivity.
  - intros w generateResult msg old Hdb. eexists. split; [| split].
    + unfold generatingTask.
      apply exec_Call_err with (res := generateResult) (msg := msg).
      apply exec_Printf.
      apply exec_UpdateAssetByID_ok with (old := old); [exact Hdb |].
      apply exec_Ret.
    + apply since_app. simpl. rewrite <- !app_assoc. reflexivity.
    + simpl. apply lookup_insert_eq.
Qed.

Lemma generatingTask_updates_after_failed_call_witness :
  exists w',
    exec (set_tasks [] Sample.world1) (generatingTask Sample.join Sample.task1) tt w'
    /\ since (set_tasks [] Sample.world1) w'
       = [EvCall "/generate" Sample.callParams (Some (ErrTransport "timeout"));
          EvPrintf "failed to call: %v" (ErrTransport "timeout");
          EvUpdateAssetByID Sample.job1
            {| model.ID := ""; model.AssetType_ := model.zeroAssetType;
               model.FilesHash := "" |}
            (Ok Sample.record1)]
    /\ length (List.filter is_update (since (set_tasks [] Sample.world1) w')) = 1%nat.
Proof.
  eexists. split; [| split].
  - unfold generatingTask.
    apply exec_Call_err with (res := zeroGetGenerateResult) (msg := "timeout").
    apply exec_Printf.
    apply exec_UpdateAssetByID_ok with (old := Sample.record1).
    + apply lookup_insert_eq.
    + apply exec_Ret.
  - reflexivity.
  - apply (generatingTask_updates_after_failed_call Sample.join Sample.task1).
    unfold generatingTask.
    apply exec_Call_err with (res := zeroGetGenerateResult) (msg := "timeout").
    apply exec_Printf.
    apply exec_UpdateAssetByID_ok with (old := Sample.record1).
    + apply lookup_insert_eq.
    + apply exec_Ret.
Defined.

(** ** [AddUserAsset] *)

Lemma digitVal_None c : strconv.digitVal c = None <-> url.isDigit c = false.
Proof. unfold strconv.digitVal. destruct (url.isDigit c); split; congruence. Qed.

Lemma digitVal_range c d : strconv.digitVal c = Some d -> 0 <= d <= 9.
Proof.
  unfold strconv.digitVal, url.isDigit.
  destruct (48 <=? Z.of_nat (nat_of_ascii c)) eqn:E1; simpl; [| discriminate].
  destruct (Z.of_nat (nat_of_ascii c) <=? 57) eqn:E2; [| discriminate].
  intros [= <-]. apply Z.leb_le in E1, E2. lia.
Qed.

(** The two overflow tests of the loop of [ParseUint] amount to one: the
    next value does not fit 64 bits. *)
Lemma parseUintLoop_step s0 c rest n :
  0 <= n <= strconv.maxUint64 ->
  strconv.parseUintLoop s0 (String c rest) n
  = match strconv.digitVal c with
    | None => (0, Some (ErrSyntax "ParseUint" s0))
    | Some d =>
        if strconv.maxUint64 <? n * 10 + d
        then (strconv.maxUint64, Some (ErrRange "ParseUint" s0))
        else strconv.parseUintLoop s0 rest (n * 10 + d)
    end.
Proof.
  intros Hn. cbn [strconv.parseUintLoop].
  destruct (strconv.digitVal c) as [d |] eqn:Ed; [| reflexivity].
  apply digitVal_range in Ed.
  change strconv.cutoff with 1844674407370955162.
  change strconv.maxUint64 with 18446744073709551615 in *.
  change (2 ^ 64) with 18446744073709551616.
  cbv zeta.
  destruct (1844674407370955162 <=? n) eqn:E1;
    [apply Z.leb_le in E1 | apply Z.leb_gt in E1].
  - destruct (18446744073709551615 <? n * 10 + d) eqn:E2; [reflexivity |].
    apply Z.ltb_ge in E2. lia.
  - rewrite (Z.mod_small (n * 10)) by lia.
    destruct (18446744073709551615 <? n * 10 + d) eqn:E2;
      [apply Z.ltb_lt in E2 | apply Z.ltb_ge in E2].
    + assert (E : (n * 10 + d) mod 18446744073709551616
                  = n * 10 + d - 18446744073709551616).
      { symmetry. apply (Z.mod_unique _ _ 1); lia. }
      rewrite E.
      replace (n * 10 + d - 18446744073709551616 <? n * 10) with true
        by (symmetry; apply Z.ltb_lt; lia).
      reflexivity.
    + rewrite (Z.mod_small (n * 10 + d)) by lia.
      replace (n * 10 + d <? n * 10) with false by (symmetry; apply Z.ltb_ge; lia).
      replace (18446744073709551615 <? n * 10 + d) with false
        by (symmetry; apply Z.ltb_ge; lia).
      reflexivity.
Qed.

Lemma leadingValue_ge s : forall acc, 0 <= acc -> acc <= leadingValue s acc.
Proof.
  induction s as [| c rest IH]; intros acc Hacc; simpl; [lia |].
  destruct (strconv.digitVal c) as [d |] eqn:Ed; [| lia].
  apply digitVal_range in Ed.
  specialize (IH (acc * 10 + d)). lia.
Qed.

Lemma leadingValue_bound s : forall acc,
  0 <= acc -> leadingValue s acc + 1 <= (acc + 1) * 10 ^ Z.of_nat (String.length s).
Proof.
  induction s as [| c rest IH]; intros acc Hacc.
  - simpl. lia.
  - cbn [String.length leadingValue].
    rewrite Nat2Z.inj_succ, Z.pow_succ_r by lia.
    assert (Hp : 0 < 10 ^ Z.of_nat (String.length rest)) by (apply Z.pow_pos_nonneg; lia).
    destruct (strconv.digitVal c) as [d |] eqn:Ed.
    + apply digitVal_range in Ed.
      specialize (IH (acc * 10 + d) ltac:(lia)). nia.
    + nia.
Qed.

Lemma fastDigits_spec s : forall n,
  strconv.fastDigits s n
  = if forallb url.isDigit (list_ascii_of_string s)
    then Some (leadingValue s n) else None.
Proof.
  induction s as [| c rest IH]; intros n; simpl; [reflexivity |].
  unfold strconv.digitVal. destruct (url.isDigit c); simpl; [apply IH | reflexivity].
Qed.

(** The loop of [ParseUint], by what the string starts with. *)
Lemma parseUintLoop_spec s0 s : forall n,
  0 <= n <= strconv.maxUint64 ->
  strconv.parseUintLoop s0 s n
  = if strconv.maxUint64 <? leadingValue s n
    then (strconv.maxUint64, Some (ErrRange "ParseUint" s0))
    else if forallb url.isDigit (list_ascii_of_string s)
         then (leadingValue s n, None)
         else (0, Some (ErrSyntax "ParseUint" s0)).
Proof.
  induction s as [| c rest IH]; intros n Hn.
  - simpl. replace (strconv.maxUint64 <? n) with false
      by (symmetry; apply Z.ltb_ge; lia).
    reflexivity.
  - rewrite parseUintLoop_step by exact Hn.
    cbn [leadingValue list_ascii_of_string forallb].
    destruct (strconv.digitVal c) as [d |] eqn:Ed.
    + assert (Hc : url.isDigit c = true).
      { destruct (url.isDigit c) eqn:E; [reflexivity |].
        apply digitVal_None in E. congruence. }
      rewrite Hc. cbn [andb].
      apply digitVal_range in Ed.
      destruct (strconv.maxUint64 <? n * 10 + d) eqn:E;
        [apply Z.ltb_lt in E | apply Z.ltb_ge in E].
      * pose proof (leadingValue_ge rest (n * 10 + d) ltac:(lia)).
        replace (strconv.maxUint64 <? leadingValue rest (n * 10 + d)) with true
          by (symmetry; apply Z.ltb_lt; lia).
        reflexivity.
      * apply IH. lia.
    + apply digitVal_None in Ed. rewrite Ed. cbn [andb].
      replace (strconv.maxUint64 <? n) with false
        by (symmetry; apply Z.ltb_ge; lia).
      reflexivity.
Qed.

Lemma length_lt_1 (s : string) : (String.length s <? 1)%nat = String.eqb s "".
Proof. destruct s; reflexivity. Qed.

(** [ParseUint], by what the string starts with. *)
Lemma ParseUint_spec s :
  strconv.ParseUint s
  = if String.eqb s "" then (0, Some (ErrSyntax "ParseUint" s))
    else if 2 ^ 64 <=? leadingValue s 0
    then (strconv.maxUint64, Some (ErrRange "ParseUint" s))
    else if forallb url.isDigit (list_ascii_of_string s)
         then (leadingValue s 0, None)
         else (0, Some (ErrSyntax "ParseUint" s)).
Proof.
  destruct s as [| c rest]; [reflexivity |].
  change (String.eqb (String c rest) "") with false. cbv iota.
  unfold strconv.ParseUint. rewrite parseUintLoop_spec by (vm_compute; split; discriminate).
  replace (strconv.maxUint64 <? leadingValue (String c rest) 0)
    with (2 ^ 64 <=? leadingValue (String c rest) 0); [reflexivity |].
  change strconv.maxUint64 with 18446744073709551615.
  change (2 ^ 64) with 18446744073709551616.
  destruct (18446744073709551616 <=? leadingValue (String c rest) 0) eqn:E;
    [apply Z.leb_le in E; symmetry; apply Z.ltb_lt
    | apply Z.leb_gt in E; symmetry; apply Z.ltb_ge]; lia.
Qed.

(** What [Atoi] returns, by what the string is: the fast path and the path
    through [ParseInt] agree. *)
Lemma Atoi_spec s :
  strconv.Atoi s
  = let v := leadingValue (unsignedPart s) 0 in
    if validDecimal s then
      if hasMinus s
      then if 2 ^ 63 <? v then (strconv.minInt, Some (ErrRange "Atoi" s)) else (- v, None)
      else if 2 ^ 63 <=? v then (strconv.maxInt, Some (ErrRange "Atoi" s)) else (v, None)
    else if 2 ^ 64 <=? v
         then (if hasMinus s then strconv.minInt else strconv.maxInt,
               Some (ErrRange "Atoi" s))
         else (0, Some (ErrSyntax "Atoi" s)).
Proof.
  destruct s as [| c rest]; [reflexivity |].
  unfold strconv.Atoi, validDecimal, unsignedPart, hasMinus.
  set (s := String c rest).
  assert (Hbody : (if Ascii.eqb c "+" then rest else if Ascii.eqb c "-" then rest else s)
                  = (if Ascii.eqb c "+" || Ascii.eqb c "-" then rest else s)).
  { destruct (Ascii.eqb c "+"), (Ascii.eqb c "-"); reflexivity. }
  assert (Hsign : Ascii.eqb c "-" || Ascii.eqb c "+" = Ascii.eqb c "+" || Ascii.eqb c "-")
    by apply orb_comm.
  assert (Hlen : (String.length
                    (if Ascii.eqb c "+" || Ascii.eqb c "-" then rest else s)
                  <= String.length s)%nat).
  { destruct (Ascii.eqb c "+" || Ascii.eqb c "-"); simpl; lia. }
  assert (Hne : Ascii.eqb c "+" || Ascii.eqb c "-" = false ->
                String.eqb (if Ascii.eqb c "+" || Ascii.eqb c "-" then rest else s) ""
                = false).
  { intros ->. reflexivity. }
  destruct ((0 <? String.length s)%nat && (String.length s <? 19)%nat) eqn:Efast.
  - (* the fast path *)
    apply andb_prop in Efast. destruct Efast as [_ E19]. apply Nat.ltb_lt in E19.
    rewrite Hsign, length_lt_1, fastDigits_spec.
    set (body := if Ascii.eqb c "+" || Ascii.eqb c "-" then rest else s) in *.
    pose proof (leadingValue_bound body 0 ltac:(lia)) as Hb.
    pose proof (leadingValue_ge body 0 ltac:(lia)) as Hge.
    assert (Hpow : 10 ^ Z.of_nat (String.length body) <= 10 ^ 18)
      by (apply Z.pow_le_mono_r; lia).
    change (10 ^ 18) with 1000000000000000000 in Hpow.
    change (2 ^ 63) with 9223372036854775808.
    change (2 ^ 64) with 18446744073709551616.
    cbv zeta.
    replace (18446744073709551616 <=? leadingValue body 0) with false
      by (symmetry; apply Z.leb_gt; lia).
    replace (9223372036854775808 <=? leadingValue body 0) with false
      by (symmetry; apply Z.leb_gt; lia).
    replace (9223372036854775808 <? leadingValue body 0) with false
      by (symmetry; apply Z.ltb_ge; lia).
    destruct (Ascii.eqb c "+" || Ascii.eqb c "-") eqn:Es.
    + destruct (String.eqb body ""); cbn [negb andb]; [reflexivity |].
      destruct (forallb url.isDigit (list_ascii_of_string body)); [| reflexivity].
      destruct (Ascii.eqb c "-"); reflexivity.
    + rewrite (Hne eq_refl). cbn [negb andb].
      destruct (forallb url.isDigit (list_ascii_of_string body)); [| reflexivity].
      destruct (Ascii.eqb c "-"); reflexivity.
  - (* through ParseInt *)
    unfold strconv.ParseInt. cbv delta [s]. cbv iota. fold s. rewrite Hbody.
    set (body := if Ascii.eqb c "+" || Ascii.eqb c "-" then rest else s) in *.
    rewrite ParseUint_spec.
    pose proof (leadingValue_ge body 0 ltac:(lia)) as Hge.
    change strconv.intSize with 64. change (2 ^ (64 - 1)) with 9223372036854775808.
    change strconv.maxUint64 with 18446744073709551615.
    change strconv.minInt with (- 9223372036854775808).
    change strconv.maxInt with 9223372036854775807.
    change (2 ^ 63) with 9223372036854775808.
    change (2 ^ 64) with 18446744073709551616.
    cbv zeta.
    destruct (String.eqb body "") eqn:Eb.
    { apply String.eqb_eq in Eb. rewrite Eb. reflexivity. }
    cbn [negb andb].
    destruct (18446744073709551616 <=? leadingValue body 0) eqn:E64;
      [apply Z.leb_le in E64 | apply Z.leb_gt in E64].
    + replace (9223372036854775808 <=? leadingValue body 0) with true
        by (symmetry; apply Z.leb_le; lia).
      replace (9223372036854775808 <? leadingValue body 0) with true
        by (symmetry; apply Z.ltb_lt; lia).
      destruct (Ascii.eqb c "-"), (forallb url.isDigit (list_ascii_of_string body));
        reflexivity.
    + destruct (forallb url.isDigit (list_ascii_of_string body)); [| reflexivity].
      destruct (Ascii.eqb c "-"); cbn [negb andb].
      * destruct (9223372036854775808 <? leadingValue body 0); reflexivity.
      * destruct (9223372036854775808 <=? leadingValue body 0); reflexivity.
Qed.

(** On a string that is not an optional sign followed by digits, [Atoi]
    reports a syntax error with the value 0, unless the digits the string
    starts with overflow 64 bits first: then it reports a range error with
    the nearest int. *)
Lemma Atoi_not_decimal s :
  validDecimal s = false ->
  strconv.Atoi s
  = if overflowsUint64 s
    then (if hasMinus s then strconv.minInt else strconv.maxInt, Some (ErrRange "Atoi" s))
    else (0, Some (ErrSyntax "Atoi" s)).
Proof. intros Hv. rewrite Atoi_spec, Hv. reflexivity. Qed.

(** Fewer than 20 bytes cannot overflow 64 bits. *)
Lemma overflowsUint64_short s :
  (String.length s < 20)%nat -> overflowsUint64 s = false.
Proof.
  intros Hlen. unfold overflowsUint64. apply Z.leb_gt.
  pose proof (leadingValue_bound (unsignedPart s) 0 ltac:(lia)) as Hb.
  assert (Hl : (String.length (unsignedPart s) <= 19)%nat).
  { destruct s as [| c rest]; simpl in *; [lia |].
    destruct (Ascii.eqb c "+" || Ascii.eqb c "-"); simpl; lia. }
  assert (Hpow : 10 ^ Z.of_nat (String.length (unsignedPart s)) <= 10 ^ 19)
    by (apply Z.pow_le_mono_r; lia).
  change (10 ^ 19) with 10000000000000000000 in Hpow.
  change (2 ^ 64) with 18446744073709551616. lia.
Qed.

(** The value [Atoi] returns is an int, whatever the string. *)
Lemma Atoi_in_range s : strconv.minInt <= fst (strconv.Atoi s) <= strconv.maxInt.
Proof.
  rewrite Atoi_spec. cbv zeta.
  pose proof (leadingValue_ge (unsignedPart s) 0 ltac:(lia)) as Hge.
  change strconv.minInt with (- 9223372036854775808).
  change strconv.maxInt with 9223372036854775807.
  change (2 ^ 63) with 9223372036854775808.
  destruct (validDecimal s).
  - destruct (hasMinus s).
    + destruct (9223372036854775808 <? leadingValue (unsignedPart s) 0) eqn:E;
        [simpl; lia | apply Z.ltb_ge in E; simpl; lia].
    + destruct (9223372036854775808 <=? leadingValue (unsignedPart s) 0) eqn:E;
        [simpl; lia | apply Z.leb_gt in E; simpl; lia].
  - destruct (2 ^ 64 <=? leadingValue (unsignedPart s) 0); [| simpl; lia].
    destruct (hasMinus s); simpl; lia.
Qed.

Lemma leadingValue_of_uint_acc d : forall acc,
  leadingValue (DecimalString.NilEmpty.string_of_uint d) (Z.pos acc)
  = Z.pos (Pos.of_uint_acc d acc).
Proof.
  induction d; intros acc; simpl; try reflexivity;
    rewrite <- IHd; f_equal;
    match goal with
    | |- context [Z.of_nat (nat_of_ascii ?c)] =>
        let v := eval vm_compute in (Z.of_nat (nat_of_ascii c)) in
        change (Z.of_nat (nat_of_ascii c)) with v
    end; lia.
Qed.

Lemma leadingValue_of_uint d :
  leadingValue (DecimalString.NilEmpty.string_of_uint d) 0 = Z.of_N (Pos.of_uint d).
Proof.
  induction d; simpl; try reflexivity; try exact IHd; apply leadingValue_of_uint_acc.
Qed.

Lemma string_of_uint_digits d :
  forallb url.isDigit (list_ascii_of_string (DecimalString.NilEmpty.string_of_uint d))
  = true.
Proof. induction d; simpl; try reflexivity; exact IHd. Qed.

Lemma string_of_uint_unsigned d :
  unsignedPart (DecimalString.NilEmpty.string_of_uint d)
  = DecimalString.NilEmpty.string_of_uint d.
Proof. destruct d; reflexivity. Qed.

(** [Atoi] reads the decimal numeral of [n] back as [n] when [n] is an int,
    and as the nearest int, with a range error, when it is not. *)
Lemma Atoi_decimal n :
  strconv.Atoi (decimal n)
  = if strconv.maxInt <? n then (strconv.maxInt, Some (ErrRange "Atoi" (decimal n)))
    else if n <? strconv.minInt then (strconv.minInt, Some (ErrRange "Atoi" (decimal n)))
    else (n, None).
Proof.
  rewrite Atoi_spec. cbv zeta.
  unfold decimal.
  change strconv.minInt with (- 9223372036854775808).
  change strconv.maxInt with 9223372036854775807.
  change (2 ^ 63) with 9223372036854775808.
  destruct n as [| p | p].
  - reflexivity.
  - change (Z.to_int (Z.pos p)) with (Decimal.Pos (Pos.to_uint p)).
    change (DecimalString.NilEmpty.string_of_int (Decimal.Pos (Pos.to_uint p)))
      with (DecimalString.NilEmpty.string_of_uint (Pos.to_uint p)).
    pose proof (DecimalPos.Unsigned.to_uint_nonnil p) as Hnn.
    set (d := Pos.to_uint p) in *.
    assert (Hv : validDecimal (DecimalString.NilEmpty.string_of_uint d) = true).
    { pose proof (string_of_uint_digits d) as Hd.
      destruct d; [congruence | ..]; exact Hd. }
    assert (Hm : hasMinus (DecimalString.NilEmpty.string_of_uint d) = false)
      by (destruct d; reflexivity).
    rewrite Hv, Hm, string_of_uint_unsigned, leadingValue_of_uint.
    unfold d. rewrite DecimalPos.Unsigned.of_to. cbn [Z.of_N].
    destruct (9223372036854775808 <=? Z.pos p) eqn:E1;
      [apply Z.leb_le in E1 | apply Z.leb_gt in E1];
      (destruct (9223372036854775807 <? Z.pos p) eqn:E2;
       [apply Z.ltb_lt in E2 | apply Z.ltb_ge in E2]); try lia; try reflexivity.
  - change (Z.to_int (Z.neg p)) with (Decimal.Neg (Pos.to_uint p)).
    change (DecimalString.NilEmpty.string_of_int (Decimal.Neg (Pos.to_uint p)))
      with (String "-" (DecimalString.NilEmpty.string_of_uint (Pos.to_uint p))).
    pose proof (DecimalPos.Unsigned.to_uint_nonnil p) as Hnn.
    set (d := Pos.to_uint p) in *.
    assert (Hv : validDecimal (String "-" (DecimalString.NilEmpty.string_of_uint d))
                 = true).
    { unfold validDecimal. cbn [Ascii.eqb Bool.eqb orb].
      rewrite string_of_uint_digits.
      destruct d; [congruence | ..]; reflexivity. }
    rewrite Hv.
    change (hasMinus (String "-" (DecimalString.NilEmpty.string_of_uint d))) with true.
    change (unsignedPart (String "-" (DecimalString.NilEmpty.string_of_uint d)))
      with (DecimalString.NilEmpty.string_of_uint d).
    rewrite leadingValue_of_uint.
    unfold d. rewrite DecimalPos.Unsigned.of_to. cbn [Z.of_N].
    change (9223372036854775807 <? Z.neg p) with false. cbv iota.
    change (- Z.pos p) with (Z.neg p).
    destruct (9223372036854775808 <? Z.pos p) eqn:E1;
      [apply Z.ltb_lt in E1 | apply Z.ltb_ge in E1];
      (destruct (Z.neg p <? - 9223372036854775808) eqn:E3;
       [apply Z.ltb_lt in E3 | apply Z.ltb_ge in E3]); try lia; reflexivity.
Qed.

(** The two ways [AddUserAsset] can run. *)
Lemma AddUserAsset_exec params assetType owner w r w' :
  exec w (AddUserAsset params assetType owner) r w'
  <-> exists now,
        let ua := {| model.Owner := owner;
                     model.AssetID := fst (strconv.Atoi (AssetID params));
                     model.RelationType := assetType;
                     model.RelationTimestamp := now |} in
        let w1 := emit (EvPrintln "AddUserAsset, assetType: " assetType) w in
        (r = None
         /\ w' = emit (EvAddUserAsset ua (Ok ua))
                   (set_user_assets (user_assets w1 ++ [ua]) w1))
        \/ (exists msg,
              r = Some (ErrStore msg)
              /\ w' = emit (EvPrintf "failed to add asset: %v" (ErrStore msg))
                        (emit (EvAddUserAsset ua (Err (ErrStore msg))) w1)).
Proof.
  unfold AddUserAsset.
  destruct (strconv.Atoi (AssetID params)) as [assetId err]. simpl. split.
  - intros H. exec_inv H.
    match goal with H : exec _ (time_Now _) _ _ |- _ => exec_inv H end.
    exists now.
    match goal with H : exec _ (model_AddUserAsset _ _) _ _ |- _ => exec_inv H end;
      exec_all; [left | right; exists msg]; auto.
  - intros (now & [[-> ->] | (msg & -> & ->)]).
    + apply exec_Println, exec_Now with (now := now), exec_AddUserAsset_ok, exec_Ret.
    + apply exec_Println, exec_Now with (now := now).
      apply exec_AddUserAsset_err with (msg := msg). apply exec_Printf, exec_Ret.
Qed.

(** C10, as the code has it: when [AssetID] is not a decimal integer, the
    error of [strconv.Atoi] is dropped: [AddUserAsset] asks the store for
    a record with the value that [Atoi] returned beside its error, returns
    nil and leaves that record when the store accepts it, and returns the
    store's error, not the parse error, when it does not.  That value is
    0, with a syntax error, unless the digits that the string starts with
    (after its sign) overflow 64 bits: [Atoi] then reports a range error
    before it reads the byte that is not a digit, and the value is the
    nearest int, 2^63-1, or -2^63 after a minus sign.  A string of fewer
    than 20 bytes always gets 0. *)
Theorem AddUserAsset_drops_Atoi_error
  (params : AddUserAssetParams) (assetType owner : string) :
  validDecimal (AssetID params) = false ->
  exists assetId,
    strconv.Atoi (AssetID params)
    = (assetId, Some (if overflowsUint64 (AssetID params)
                      then ErrRange "Atoi" (AssetID params)
                      else ErrSyntax "Atoi" (AssetID params)))
    /\ assetId = (if overflowsUint64 (AssetID params)
                  then if hasMinus (AssetID params)
                       then strconv.minInt else strconv.maxInt
                  else 0)
    /\ ((String.length (AssetID params) < 20)%nat -> assetId = 0)
    /\ (exists k,
          AddUserAsset params assetType owner
          = fmt_Println "AddUserAsset, assetType: " assetType
              (time_Now (fun now =>
                 model_AddUserAsset
                   {| model.Owner := owner; model.AssetID := assetId;
                      model.RelationType := assetType;
                      model.RelationTimestamp := now |} k))
          /\ (forall e, k (Err e) = logger_Printf "failed to add asset: %v" e (Ret (Some e)))
          /\ (forall ua, k (Ok ua) = Ret None))
    /\ forall w : World,
         (exists now w',
            exec w (AddUserAsset params assetType owner) None w'
            /\ user_assets w'
               = (user_assets w
                  ++ [{| model.Owner := owner; model.AssetID := assetId;
                         model.RelationType := assetType;
                         model.RelationTimestamp := now |}])%list)
         /\ forall r w',
              exec w (AddUserAsset params assetType owner) r w' ->
              exists now,
                let ua := {| model.Owner := owner; model.AssetID := assetId;
                             model.RelationType := assetType;
                             model.RelationTimestamp := now |} in
                (r = None
                 /\ user_assets w' = (user_assets w ++ [ua])%list
                 /\ since w w' = [EvPrintln "AddUserAsset, assetType: " assetType;
                                  EvAddUserAsset ua (Ok ua)])
                \/ (exists msg,
                      r = Some (ErrStore msg)
                      /\ user_assets w' = user_assets w
                      /\ since w w' = [EvPrintln "AddUserAsset, assetType: " assetType;
                                       EvAddUserAsset ua (Err (ErrStore msg));
                                       EvPrintf "failed to add asset: %v" (ErrStore msg)]).
Proof.
  intros Hv. pose proof (Atoi_not_decimal _ Hv) as Ha.
  set (assetId := if overflowsUint64 (AssetID params)
                  then if hasMinus (AssetID params)
                       then strconv.minInt else strconv.maxInt
                  else 0).
  assert (Hv' : strconv.Atoi (AssetID params)
                = (assetId, Some (if overflowsUint64 (AssetID params)
                                  then ErrRange "Atoi" (AssetID params)
                                  else ErrSyntax "Atoi" (AssetID params)))).
  { rewrite Ha. unfold assetId. destruct (overflowsUint64 (AssetID params)); reflexivity. }
  exists assetId. split; [exact Hv' |]. split; [reflexivity |].
  split.
  { intros Hl. unfold assetId. rewrite (overflowsUint64_short _ Hl). reflexivity. }
  split.
  { unfold AddUserAsset. rewrite Hv'. eexists. split; [reflexivity |].
    split; intros; reflexivity. }
  intros w. unfold AddUserAsset. rewrite Hv'. split.
  - exists 0. eexists. split.
    + apply exec_Println. apply exec_Now with (now := 0).
      apply exec_AddUserAsset_ok. apply exec_Ret.
    + reflexivity.
  - intros r w' H. exec_inv H.
    match goal with H : exec _ (time_Now _) _ _ |- _ => exec_inv H end.
    exists now.
    match goal with H : exec _ (model_AddUserAsset _ _) _ _ |- _ => exec_inv H end;
      exec_all.
    + left. split; [reflexivity |]. split; [reflexivity |].
      apply since_app. simpl. by rewrite <- app_assoc.
    + right. exists msg. split; [reflexivity |]. split; [reflexivity |].
      apply since_app. simpl. by rewrite <- !app_assoc.
Qed.

Lemma AddUserAsset_drops_Atoi_error_witness :
  validDecimal "abc" = false
  /\ strconv.Atoi "abc" = (0, Some (ErrSyntax "Atoi" "abc"))
  /\ (forall r w',
        exec Sample.world0 (AddUserAsset {| AssetID := "abc" |} "liked" "alice") r w' ->
        exists now,
          (r = None
           /\ user_assets w'
              = [{| model.Owner := "alice"; model.AssetID := 0;
                    model.RelationType := "liked"; model.RelationTimestamp := now |}])
          \/ (exists msg, r = Some (ErrStore msg) /\ user_assets w' = []))
  /\ validDecimal "-99999999999999999999 " = false
  /\ strconv.Atoi "-99999999999999999999 "
     = (-9223372036854775808, Some (ErrRange "Atoi" "-99999999999999999999 "))
  /\ (forall r w',
        exec Sample.world0
          (AddUserAsset {| AssetID := "-99999999999999999999 " |} "liked" "alice") r w' ->
        exists now,
          (r = None
           /\ user_assets w'
              = [{| model.Owner := "alice"; model.AssetID := -9223372036854775808;
                    model.RelationType := "liked"; model.RelationTimestamp := now |}])
          \/ (exists msg, r = Some (ErrStore msg) /\ user_assets w' = [])).
Proof.
  destruct (AddUserAsset_drops_Atoi_error {| AssetID := "abc" |} "liked" "alice")
    as (id1 & Ha1 & Hid1 & _ & _ & Hw1); [reflexivity |].
  destruct (AddUserAsset_drops_Atoi_error
              {| AssetID := "-99999999999999999999 " |} "liked" "alice")
    as (id2 & Ha2 & Hid2 & _ & _ & Hw2); [reflexivity |].
  vm_compute in Hid1. vm_compute in Hid2. subst id1 id2.
  split; [reflexivity |]. split; [exact Ha1 |]. split; [| split; [reflexivity |]; split;
    [exact Ha2 |]].
  - intros r w' H. destruct (Hw1 Sample.world0) as [_ Hall].
    destruct (Hall r w' H) as (now & [(-> & Hu & _) | (msg & -> & Hu & _)]);
      exists now; [left | right; exists msg]; split; try reflexivity; exact Hu.
  - intros r w' H. destruct (Hw2 Sample.world0) as [_ Hall].
    destruct (Hall r w' H) as (now & [(-> & Hu & _) | (msg & -> & Hu & _)]);
      exists now; [left | right; exists msg]; split; try reflexivity; exact Hu.
Defined.

(** C10 as it is stated does not hold: "99999999999999999999x" is not a
    decimal integer, yet [Atoi] gives up at the twentieth digit with a
    range error and the value 2^63-1, and that value, not 0, is the asset
    ID of the record that [AddUserAsset] creates. *)
Lemma AddUserAsset_drops_Atoi_error_counterexample :
  validDecimal "99999999999999999999x" = false
  /\ strconv.Atoi "99999999999999999999x"
     = (9223372036854775807, Some (ErrRange "Atoi" "99999999999999999999x"))
  /\ (exists w',
        exec Sample.world0
          (AddUserAsset {| AssetID := "99999999999999999999x" |} "liked" "alice") None w'
        /\ user_assets w'
           = [{| model.Owner := "alice"; model.AssetID := 9223372036854775807;
                 model.RelationType := "liked"; model.RelationTimestamp := 0 |}])
  /\ forall r w',
       exec Sample.world0
         (AddUserAsset {| AssetID := "99999999999999999999x" |} "liked" "alice") r w' ->
       forall ua, In ua (user_assets w') -> model.AssetID ua <> 0.
Proof.
  assert (Ha : strconv.Atoi "99999999999999999999x"
               = (9223372036854775807, Some (ErrRange "Atoi" "99999999999999999999x")))
    by (vm_compute; reflexivity).
  split; [reflexivity |]. split; [exact Ha |]. split.
  - eexists. split.
    + apply AddUserAsset_exec. exists 0. left. split; reflexivity.
    + cbn [AssetID]. rewrite Ha. reflexivity.
  - intros r w' H. apply AddUserAsset_exec in H. destruct H as (now & H).
    cbn [AssetID] in H. rewrite Ha in H. cbn [fst] in H.
    destruct H as [[-> ->] | (msg & -> & ->)]; simpl; intros ua Hin.
    + destruct Hin as [<- | []]. simpl. discriminate.
    + destruct Hin.
Qed.

(** ** The life of a job *)
Section Lifecycle.

Variable url_Parse : string -> option url.URL.
Variable StringArrayToString : list string -> string.

Local Abbreviation step := (step url_Parse StringArrayToString).
Local Abbreviation steps := (steps url_Parse StringArrayToString).

(** A stored job whose goroutine is not pending never gets a pending
    goroutine again. *)
Lemma step_not_pending w w' id :
  step w w' -> is_Some (db w !! id) -> ~ pending id w -> ~ pending id w'.
Proof.
  intros Hs [rec Hdb] Hn (t & Hin & Hid).
  destruct Hs as [w param r w' H | w ts1 t0 ts2 w' Et H
    | w id' r w' H | w p r w' H | w params ty owner r w' H].
  - apply Generating_exec in H.
    destruct H as [(msg & -> & ->) | (id' & Hf & -> & ->)].
    + apply Hn. exists t. auto.
    + simpl in Hin. apply in_app_iff in Hin. destruct Hin as [Hin | [<- | []]].
      * apply Hn. exists t. auto.
      * simpl in Hid. congruence.
  - apply generatingTask_exec_db in H. simpl in H. destruct H as [Ht _].
    apply Hn. exists t. split; [| exact Hid].
    rewrite Ht in Hin. rewrite Et. apply in_app_iff.
    apply in_app_iff in Hin. destruct Hin; [by left | right; by right].
  - apply GetAIAssetStatus_exec_db in H. destruct H as [Ht _].
    apply Hn. exists t. rewrite <- Ht. auto.
  - apply Validate_exec_db in H. destruct H as [Ht _].
    apply Hn. exists t. rewrite <- Ht. auto.
  - apply AddUserAsset_exec_db in H. destruct H as [Ht _].
    apply Hn. exists t. rewrite <- Ht. auto.
Qed.

(** The record of a job whose goroutine is not pending does not change. *)
Lemma step_done_frozen w w' id rec :
  step w w' -> db w !! id = Some rec -> ~ pending id w -> db w' !! id = Some rec.
Proof.
  intros Hs Hdb Hn.
  destruct Hs as [w param r w' H | w ts1 t0 ts2 w' Et H
    | w id' r w' H | w p r w' H | w params ty owner r w' H].
  - apply Generating_exec in H.
    destruct H as [(msg & -> & ->) | (id' & Hf & -> & ->)]; [exact Hdb |].
    simpl. rewrite lookup_insert_ne; [exact Hdb | congruence].
  - apply generatingTask_exec_db in H. simpl in H.
    destruct H as [_ [-> | (old & h & _ & ->)]]; [exact Hdb |].
    rewrite lookup_insert_ne; [exact Hdb |]. intros E.
    apply Hn. exists t0. split; [| exact E].
    rewrite Et. apply in_app_iff. right. by left.
  - apply GetAIAssetStatus_exec_db in H. destruct H as [_ ->]. exact Hdb.
  - apply Validate_exec_db in H. destruct H as [_ ->]. exact Hdb.
  - apply AddUserAsset_exec_db in H. destruct H as [_ ->]. exact Hdb.
Qed.

Lemma steps_done_frozen w w' id rec :
  steps w w' -> db w !! id = Some rec -> ~ pending id w -> db w' !! id = Some rec.
Proof.
  induction 1 as [| w w1 w' Hs _ IH]; [auto |].
  intros Hdb Hn. apply IH.
  - by apply (step_done_frozen w w1).
  - apply (step_not_pending w w1 id Hs); [by eexists | exact Hn].
Qed.

(** The ID and the asset type of a stored record never change. *)
Lemma step_keeps_type w w' id rec :
  step w w' -> db w !! id = Some rec ->
  exists rec', db w' !! id = Some rec'
               /\ model.ID rec' = model.ID rec
               /\ model.AssetType_ rec' = model.AssetType_ rec.
Proof.
  intros Hs Hdb.
  destruct Hs as [w param r w' H | w ts1 t0 ts2 w' Et H
    | w id' r w' H | w p r w' H | w params ty owner r w' H].
  - apply Generating_exec in H.
    destruct H as [(msg & -> & ->) | (id' & Hf & -> & ->)]; [by exists rec |].
    exists rec. simpl. rewrite lookup_insert_ne; [auto | congruence].
  - apply generatingTask_exec_db in H. simpl in H.
    destruct H as [_ [-> | (old & h & Hold & ->)]]; [by exists rec |].
    destruct (decide (task_id t0 = id)) as [E | Hne].
    + subst id. assert (old = rec) as -> by congruence.
      exists (with_FilesHash h rec). rewrite lookup_insert_eq. auto.
    + exists rec. rewrite lookup_insert_ne; auto.
  - apply GetAIAssetStatus_exec_db in H. destruct H as [_ ->]. by exists rec.
  - apply Validate_exec_db in H. destruct H as [_ ->]. by exists rec.
  - apply AddUserAsset_exec_db in H. destruct H as [_ ->]. by exists rec.
Qed.

Lemma steps_keep_type w w' id rec :
  steps w w' -> db w !! id = Some rec ->
  exists rec', db w' !! id = Some rec'
               /\ model.ID rec' = model.ID rec
               /\ model.AssetType_ rec' = model.AssetType_ rec.
Proof.
  intros Hs. revert rec. induction Hs as [| w w1 w' Hs _ IH]; intros rec Hdb.
  - by exists rec.
  - destruct (step_keeps_type w w1 id rec Hs Hdb) as (rec1 & Hdb1 & Hid1 & Hty1).
    destruct (IH rec1 Hdb1) as (rec' & Hdb' & Hid' & Hty').
    exists rec'. split; [exact Hdb' |]. split; congruence.
Qed.

(** After its run the goroutine is not pending any more. *)
Lemma ran_not_pending w (ts1 ts2 : list Task) t w' :
  pending_ok w -> tasks w = (ts1 ++ t :: ts2)%list ->
  tasks w' = (ts1 ++ ts2)%list -> ~ pending (task_id t) w'.
Proof.
  intros [Hnd _] Et Ht' (t' & Hin & Hid).
  rewrite Et, map_app in Hnd. simpl in Hnd.
  apply NoDup_app in Hnd. destruct Hnd as (_ & Hdisj & Hnd2).
  apply NoDup_cons in Hnd2. destruct Hnd2 as [Hnotin _].
  rewrite Ht' in Hin. apply in_app_iff in Hin. destruct Hin as [Hin | Hin].
  - apply (Hdisj (task_id t')).
    + apply list_elem_of_In, in_map. exact Hin.
    + rewrite Hid. left.
  - apply Hnotin. rewrite <- Hid. apply list_elem_of_In, in_map. exact Hin.
Qed.

End Lifecycle.

Ltac since_compute :=
  unfold since in *; simpl in *; rewrite <- ?app_assoc in *;
  rewrite ?drop_app_length in *; simpl in *.

Lemma since_compute1 w (w' : World) ev :
  trace w' = (trace w ++ [ev])%list -> since w w' = [ev].
Proof. apply since_app. Qed.

Lemma scenario_failedCall :
  exec (set_tasks [] Sample.world1) (generatingTask Sample.join Sample.task1) tt
    Scenario.failedCall.
Proof.
  unfold generatingTask.
  apply exec_Call_err with (res := zeroGetGenerateResult) (msg := "timeout").
  apply exec_Printf.
  apply exec_UpdateAssetByID_ok with (old := Sample.record1).
  - apply lookup_insert_eq.
  - apply exec_Ret.
Qed.

Lemma scenario_failedUpdate :
  exec (set_tasks [] Sample.world1) (generatingTask Sample.join Sample.task1) tt
    Scenario.failedUpdate.
Proof.
  unfold generatingTask.
  apply exec_Call_ok with (res := {| gg_ImageUrl := "https://cdn/x.png" |}).
  apply exec_UpdateAssetByID_err with (msg := "down").
  apply exec_Printf. apply exec_Ret.
Qed.

Lemma sample_reach1 url_Parse :
  steps url_Parse Sample.join Sample.world0 Sample.world1.
Proof. apply (sample_steps url_Parse). Qed.

Lemma sample_reach2 url_Parse :
  steps url_Parse Sample.join Sample.world0 Sample.world2.
Proof.
  destruct (sample_steps url_Parse) as [S1 S2].
  eapply rtc_trans; [exact S1 | exact S2].
Qed.

(** What the run of a goroutine whose update the store carried out did to
    the store. *)
Lemma generatingTask_update_ok StringArrayToString t w w' a rec' :
  exec w (generatingTask StringArrayToString t) tt w' ->
  In (EvUpdateAssetByID (task_id t) a (Ok rec')) (since w w') ->
  exists old,
    db w !! task_id t = Some old
    /\ rec' = with_FilesHash (model.FilesHash a) old
    /\ db w' = <[task_id t := rec']> (db w)
    /\ tasks w' = tasks w.
Proof.
  unfold generatingTask. intros H Hin.
  exec_inv H; exec_all; since_compute;
    repeat match goal with
      | H : _ \/ _ |- _ => destruct H
      | H : False |- _ => destruct H
      | H : _ = _ |- _ => discriminate H
      end;
    match goal with
    | H : EvUpdateAssetByID _ _ _ = EvUpdateAssetByID _ _ _ |- _ =>
        injection H as Ha Hr; subst a rec'
    end;
    (eexists; split; [eassumption |]; repeat split).
Qed.

(** What the run of a goroutine whose update failed, or was made with an
    empty image URL, did to the store: the marker of its record is as
    before, or empty. *)
Lemma generatingTask_failed StringArrayToString t w w' :
  exec w (generatingTask StringArrayToString t) tt w' ->
  (exists a e, In (EvUpdateAssetByID (task_id t) a (Err e)) (since w w'))
  \/ (exists a r, In (EvUpdateAssetByID (task_id t) a r) (since w w')
                  /\ model.FilesHash a = "") ->
  tasks w' = tasks w
  /\ (db w' = db w
      \/ exists old, db w !! task_id t = Some old
                     /\ db w' = <[task_id t := with_FilesHash "" old]> (db w)).
Proof.
  unfold generatingTask. intros H Hf.
  exec_inv H; exec_all; (split; [reflexivity |]); since_compute;
    try (left; reflexivity);
    (right; eexists; split; [eassumption |]);
    (destruct Hf as [(a & e & Hf) | (a & r & Hf & Ha)];
     [ repeat match goal with
         | H : _ \/ _ |- _ => destruct H
         | H : False |- _ => destruct H
         | H : _ = _ |- _ => discriminate H
         end
     | repeat match goal with
         | H : _ \/ _ |- _ => destruct H
         | H : False |- _ => destruct H
         | H : EvUpdateAssetByID _ _ _ = EvUpdateAssetByID _ _ _ |- _ =>
             injection H as <- <-
         | H : _ = _ |- _ => discriminate H
         end;
       simpl in Ha; rewrite Ha; reflexivity ]).
Qed.

(** X1: as long as the goroutine of a job has not run, [GetAIAssetStatus]
    on the job answers generating, with an empty image URL. *)
Theorem pending_job_reads_generating
  (url_Parse : string -> option url.URL) (StringArrayToString : list string -> string)
  (w0 w : World) (t : Task) :
  initial w0 ->
  steps url_Parse StringArrayToString w0 w ->
  In t (tasks w) ->
  forall r w',
    exec w (GetAIAssetStatus (task_id t)) r w' ->
    exists res,
      r = Ok res /\ Status res = generating
      /\ JobId (Result res) = task_id t
      /\ files_ImageUrl (Files (Result res)) = "".
Proof.
  intros Hinit Hsteps Hin r w' H.
  assert (Hok : pending_ok w).
  { apply (steps_pending_ok url_Parse StringArrayToString w0 w Hsteps).
    by apply initial_pending_ok. }
  destruct Hok as [_ Hrec]. destruct (Hrec t Hin) as (rec & Hdb & Hh).
  apply (GetAIAssetStatus_found w (task_id t) rec) in H; [| exact Hdb].
  destruct H as [-> _]. eexists. split; [reflexivity |]. simpl.
  split; [by apply status_of_generating |]. split; [reflexivity | exact Hh].
Qed.

Lemma pending_job_reads_generating_witness :
  In Sample.task1 (tasks Sample.world1)
  /\ forall r w',
       exec Sample.world1 (GetAIAssetStatus Sample.job1) r w' ->
       exists res,
         r = Ok res /\ Status res = generating
         /\ JobId (Result res) = Sample.job1
         /\ files_ImageUrl (Files (Result res)) = "".
Proof.
  split; [left; reflexivity |].
  apply (pending_job_reads_generating Sample.Parse Sample.join
           Sample.world0 Sample.world1 Sample.task1).
  - exact sample_initial.
  - apply sample_reach1.
  - left. reflexivity.
Defined.

(** X2: the goroutine sends the image URL of a successful remote answer
    to the store as the result marker of its job; once the store has
    carried out that update, every later [GetAIAssetStatus] on the job
    returns that URL as image URL, with finish when the URL is not empty
    and generating when it is. *)
Theorem completed_job_reads_result
  (url_Parse : string -> option url.URL) (StringArrayToString : list string -> string)
  (t : Task) :
  (exists k,
     generatingTask StringArrayToString t
     = aigcClient_Call MethodPost "/generate"
         {| gg_Category := StringArrayToString (Category (task_param t));
            gg_Prompt := Keyword (task_param t) |} k
     /\ forall generateResult,
          exists k',
            k (generateResult, None)
            = model_UpdateAssetByID (task_id t)
                {| model.ID := ""; model.AssetType_ := model.zeroAssetType;
                   model.FilesHash := gg_ImageUrl generateResult |} k')
  /\ forall (w0 w w1 w2 : World) (ts1 ts2 : list Task) (a rec' : model.Asset),
       initial w0 ->
       steps url_Parse StringArrayToString w0 w ->
       tasks w = (ts1 ++ t :: ts2)%list ->
       exec (set_tasks (ts1 ++ ts2) w) (generatingTask StringArrayToString t) tt w1 ->
       In (EvUpdateAssetByID (task_id t) a (Ok rec'))
          (since (set_tasks (ts1 ++ ts2) w) w1) ->
       steps url_Parse StringArrayToString w1 w2 ->
       forall r w3,
         exec w2 (GetAIAssetStatus (task_id t)) r w3 ->
         exists res,
           r = Ok res
           /\ files_ImageUrl (Files (Result res)) = model.FilesHash a
           /\ (Status res = finish <-> model.FilesHash a <> "")
           /\ (Status res = generating <-> model.FilesHash a = "").
Proof.
  split.
  { eexists. split; [reflexivity |]. intros generateResult. eexists. reflexivity. }
  intros w0 w w1 w2 ts1 ts2 a rec' Hinit Hsteps Et Hrun Hin Hlater r w3 H.
  assert (Hok : pending_ok w).
  { apply (steps_pending_ok url_Parse StringArrayToString w0 w Hsteps).
    by apply initial_pending_ok. }
  destruct (generatingTask_update_ok _ _ _ _ _ _ Hrun Hin)
    as (old & Hold & -> & Hdb1 & Ht1).
  simpl in Hold, Hdb1, Ht1.
  assert (Hn1 : ~ pending (task_id t) w1).
  { by apply (ran_not_pending w ts1 ts2 t w1). }
  assert (Hdb2 : db w2 !! task_id t = Some (with_FilesHash (model.FilesHash a) old)).
  { apply (steps_done_frozen url_Parse StringArrayToString w1 w2); [exact Hlater | | exact Hn1].
    rewrite Hdb1. apply lookup_insert_eq. }
  apply (GetAIAssetStatus_found w2 (task_id t) _ _ _ Hdb2) in H.
  destruct H as [-> _]. eexists. split; [reflexivity |]. simpl.
  split; [reflexivity |]. split.
  - apply (status_of_finish (with_FilesHash (model.FilesHash a) old)).
  - apply (status_of_generating (with_FilesHash (model.FilesHash a) old)).
Qed.

Lemma completed_job_reads_result_witness :
  In (EvUpdateAssetByID Sample.job1 Sample.update1
        (Ok (with_FilesHash "https://cdn/x.png" Sample.record1)))
     (since (set_tasks [] Sample.world1) Sample.world2)
  /\ forall w2,
       steps Sample.Parse Sample.join Sample.world2 w2 ->
       forall r w3,
         exec w2 (GetAIAssetStatus Sample.job1) r w3 ->
         exists res,
           r = Ok res
           /\ files_ImageUrl (Files (Result res)) = "https://cdn/x.png"
           /\ Status res = finish.
Proof.
  split; [right; left; reflexivity |].
  intros w2 Hlater r w3 H.
  destruct (completed_job_reads_result Sample.Parse Sample.join Sample.task1) as [_ Hall].
  destruct (Hall Sample.world0 Sample.world1 Sample.world2 w2 [] []
              Sample.update1 (with_FilesHash "https://cdn/x.png" Sample.record1)
              sample_initial (sample_reach1 Sample.Parse) eq_refl sample_task
              ltac:(right; left; reflexivity) Hlater r w3 H)
    as (res & -> & Hurl & Hfin & _).
  exists res. split; [reflexivity |]. split; [exact Hurl |].
  apply Hfin. simpl. discriminate.
Defined.

(** X3: when the goroutine of a job has run and its update of the store
    has failed, or was made with an empty image URL (as after a failed
    call that left the response untouched), every later
    [GetAIAssetStatus] on the job answers generating: nothing retries and
    nothing sets the marker of that job afterwards. *)
Theorem failed_job_stays_generating
  (url_Parse : string -> option url.URL) (StringArrayToString : list string -> string)
  (w0 w w1 w2 : World) (ts1 ts2 : list Task) (t : Task) :
  initial w0 ->
  steps url_Parse StringArrayToString w0 w ->
  tasks w = (ts1 ++ t :: ts2)%list ->
  exec (set_tasks (ts1 ++ ts2) w) (generatingTask StringArrayToString t) tt w1 ->
  (exists a e,
     In (EvUpdateAssetByID (task_id t) a (Err e)) (since (set_tasks (ts1 ++ ts2) w) w1))
  \/ (exists a r,
        In (EvUpdateAssetByID (task_id t) a r) (since (set_tasks (ts1 ++ ts2) w) w1)
        /\ model.FilesHash a = "") ->
  steps url_Parse StringArrayToString w1 w2 ->
  forall r w3,
    exec w2 (GetAIAssetStatus (task_id t)) r w3 ->
    exists res,
      r = Ok res /\ Status res = generating
      /\ files_ImageUrl (Files (Result res)) = "".
Proof.
  intros Hinit Hsteps Et Hrun Hfail Hlater r w3 H.
  assert (Hok : pending_ok w).
  { apply (steps_pending_ok url_Parse StringArrayToString w0 w Hsteps).
    by apply initial_pending_ok. }
  destruct (proj2 Hok t) as (rec & Hdb & Hh).
  { rewrite Et. apply in_app_iff. right. by left. }
  destruct (generatingTask_failed _ _ _ _ Hrun Hfail) as [Ht1 Hdb1].
  simpl in Ht1, Hdb1.
  assert (Hn1 : ~ pending (task_id t) w1).
  { by apply (ran_not_pending w ts1 ts2 t w1). }
  assert (Hrec1 : db w1 !! task_id t = Some rec).
  { destruct Hdb1 as [-> | (old & Hold & ->)]; [exact Hdb |].
    rewrite lookup_insert_eq. assert (old = rec) as -> by congruence.
    destruct rec as [i ty h]. simpl in Hh. subst h. reflexivity. }
  assert (Hdb2 : db w2 !! task_id t = Some rec).
  { by apply (steps_done_frozen url_Parse StringArrayToString w1 w2). }
  apply (GetAIAssetStatus_found w2 (task_id t) _ _ _ Hdb2) in H.
  destruct H as [-> _]. eexists. split; [reflexivity |]. simpl.
  split; [by apply status_of_generating | exact Hh].
Qed.

Lemma failed_job_stays_generating_witness :
  (forall w2,
     steps Sample.Parse Sample.join Scenario.failedCall w2 ->
     forall r w3,
       exec w2 (GetAIAssetStatus Sample.job1) r w3 ->
       exists res, r = Ok res /\ Status res = generating
                   /\ files_ImageUrl (Files (Result res)) = "")
  /\ (forall w2,
        steps Sample.Parse Sample.join Scenario.failedUpdate w2 ->
        forall r w3,
          exec w2 (GetAIAssetStatus Sample.job1) r w3 ->
          exists res, r = Ok res /\ Status res = generating
                      /\ files_ImageUrl (Files (Result res)) = "").
Proof.
  split; intros w2 Hlater.
  - apply (failed_job_stays_generating Sample.Parse Sample.join
             Sample.world0 Sample.world1 Scenario.failedCall w2 [] [] Sample.task1
             sample_initial (sample_reach1 Sample.Parse) eq_refl scenario_failedCall).
    + right. do 2 eexists. split; [right; right; left; reflexivity | reflexivity].
    + exact Hlater.
  - apply (failed_job_stays_generating Sample.Parse Sample.join
             Sample.world0 Sample.world1 Scenario.failedUpdate w2 [] [] Sample.task1
             sample_initial (sample_reach1 Sample.Parse) eq_refl scenario_failedUpdate).
    + left. do 2 eexists. right. left. reflexivity.
    + exact Hlater.
Defined.

(** X4: an ID returned by [Generating] can be polled at any later time:
    [GetAIAssetStatus] never answers NotFound for it, and the type it
    reports is the classification made at dispatch, whatever has happened
    to the job in between. *)
Theorem handle_always_resolves
  (url_Parse : string -> option url.URL) (StringArrayToString : list string -> string)
  (param : GenerateParams) (w w1 w2 : World) (res : GenerateResult) :
  exec w (Generating param) (Ok res) w1 ->
  steps url_Parse StringArrayToString w1 w2 ->
  (exists r w3, exec w2 (GetAIAssetStatus (ImageJobId res)) r w3)
  /\ forall r w3,
       exec w2 (GetAIAssetStatus (ImageJobId res)) r w3 ->
       exists st,
         r = Ok st
         /\ JobId (Result st) = ImageJobId res
         /\ Type_ (Result st)
            = (if (Height param >? 0) && (Width param >? 0)
               then model.AssetTypeBackdrop else model.AssetTypeSprite).
Proof.
  intros H Hlater. apply Generating_exec in H.
  destruct H as [(msg & E & _) | (id & Hf & E & ->)]; [discriminate E |].
  injection E as ->. simpl.
  destruct (steps_keep_type url_Parse StringArrayToString _ w2 id
              (with_ID id (newAsset param)) Hlater)
    as (rec' & Hdb' & _ & Hty).
  { simpl. apply lookup_insert_eq. }
  split.
  - do 2 eexists. apply (GetAIAssetStatus_found w2 id rec' _ _ Hdb'). split; reflexivity.
  - intros r w3 H. apply (GetAIAssetStatus_found w2 id rec' _ _ Hdb') in H.
    destruct H as [-> _]. eexists. split; [reflexivity |]. simpl.
    split; [reflexivity | exact Hty].
Qed.

Lemma handle_always_resolves_witness :
  exec Sample.world0 (Generating Sample.catParam)
    (Ok {| ImageJobId := Sample.job1 |}) Sample.world1
  /\ forall r w3,
       exec Sample.world2 (GetAIAssetStatus Sample.job1) r w3 ->
       exists st,
         r = Ok st /\ JobId (Result st) = Sample.job1
         /\ Type_ (Result st) = model.AssetTypeSprite.
Proof.
  split; [exact sample_dispatch |].
  destruct (handle_always_resolves Sample.Parse Sample.join Sample.catParam
              Sample.world0 Sample.world1 Sample.world2
              {| ImageJobId := Sample.job1 |} sample_dispatch
              (proj2 (sample_steps Sample.Parse))) as [_ H].
  exact H.
Defined.

(** X5: two successful calls of [Generating] never return the same ID,
    however far apart they are. *)
Theorem handles_are_distinct
  (url_Parse : string -> option url.URL) (StringArrayToString : list string -> string)
  (param1 param2 : GenerateParams) (w w1 w2 w3 : World) (res1 res2 : GenerateResult) :
  exec w (Generating param1) (Ok res1) w1 ->
  steps url_Parse StringArrayToString w1 w2 ->
  exec w2 (Generating param2) (Ok res2) w3 ->
  ImageJobId res1 <> ImageJobId res2.
Proof.
  intros H1 Hlater H2 E.
  apply Generating_exec in H1.
  destruct H1 as [(msg & E1 & _) | (id1 & _ & E1 & ->)]; [discriminate E1 |].
  injection E1 as ->.
  apply Generating_exec in H2.
  destruct H2 as [(msg & E2 & _) | (id2 & Hf2 & E2 & _)]; [discriminate E2 |].
  injection E2 as ->. simpl in E. subst id2.
  destruct (steps_keep_record url_Parse StringArrayToString _ w2 id1 Hlater) as [rec Hrec].
  { simpl. rewrite lookup_insert_eq. by eexists. }
  congruence.
Qed.

Lemma handles_are_distinct_witness :
  exec Sample.world0 (Generating Sample.catParam)
    (Ok {| ImageJobId := Sample.job1 |}) Sample.world1
  /\ forall res2 w3,
       exec Sample.world2 (Generating Scenario.bigParam) (Ok res2) w3 ->
       Sample.job1 <> ImageJobId res2.
Proof.
  split; [exact sample_dispatch |].
  intros res2 w3 H.
  exact (handles_are_distinct Sample.Parse Sample.join Sample.catParam Scenario.bigParam
           Sample.world0 Sample.world1 Sample.world2 w3
           {| ImageJobId := Sample.job1 |} res2 sample_dispatch
           (proj2 (sample_steps Sample.Parse)) H).
Defined.

(** X6: [GetAIAssetStatus] only reads: it leaves the store, the pending
    goroutines and the user assets as they are, and asked again right
    away it gives the same answer. *)
Theorem GetAIAssetStatus_read_only (id : string) (w w' : World)
  (r : result GetAIAssetStatusResult) :
  exec w (GetAIAssetStatus id) r w' ->
  db w' = db w /\ tasks w' = tasks w /\ user_assets w' = user_assets w
  /\ forall r2 w2, exec w' (GetAIAssetStatus id) r2 w2 -> r2 = r.
Proof.
  intros H. destruct (db w !! id) as [rec |] eqn:E.
  - apply (GetAIAssetStatus_found w id rec _ _ E) in H. destruct H as [-> ->].
    repeat split. intros r2 w2 H2.
    apply (GetAIAssetStatus_found _ id rec) in H2; [| exact E].
    by destruct H2.
  - apply (GetAIAssetStatus_absent w id _ _ E) in H. destruct H as [-> ->].
    repeat split. intros r2 w2 H2.
    apply (GetAIAssetStatus_absent _ id) in H2; [| exact E].
    by destruct H2.
Qed.

Lemma GetAIAssetStatus_read_only_witness :
  db Sample.world2 !! Sample.job1
  = Some (with_FilesHash "https://cdn/x.png" Sample.record1)
  /\ forall r2 w2,
       exec (emit (EvCheckAssetFilesHashByID Sample.job1) Sample.world2)
         (GetAIAssetStatus Sample.job1) r2 w2 ->
       r2 = Ok {| Status := finish;
                  Result := details_of Sample.job1
                              (with_FilesHash "https://cdn/x.png" Sample.record1) |}.
Proof.
  split; [apply lookup_insert_eq |].
  apply (GetAIAssetStatus_read_only Sample.job1 Sample.world2).
  apply (GetAIAssetStatus_found Sample.world2 Sample.job1
           (with_FilesHash "https://cdn/x.png" Sample.record1)).
  - apply lookup_insert_eq.
  - split; reflexivity.
Defined.

(** X7: jobs do not touch each other.  The goroutine of a job changes no
    record but its own, and of its own neither the ID nor the asset type;
    [Generating] changes no record that is already stored. *)
Theorem jobs_are_isolated (StringArrayToString : list string -> string) :
  (forall t w w',
     exec w (generatingTask StringArrayToString t) tt w' ->
     forall id rec,
       db w !! id = Some rec ->
       (id <> task_id t -> db w' !! id = Some rec)
       /\ exists rec', db w' !! id = Some rec'
                       /\ model.ID rec' = model.ID rec
                       /\ model.AssetType_ rec' = model.AssetType_ rec)
  /\ (forall param w r w',
        exec w (Generating param) r w' ->
        forall id rec, db w !! id = Some rec -> db w' !! id = Some rec).
Proof.
  split.
  - intros t w w' H id rec Hdb. apply generatingTask_exec_db in H.
    destruct H as [_ [-> | (old & h & Hold & ->)]].
    + split; [auto |]. by exists rec.
    + split.
      * intros Hne. rewrite lookup_insert_ne; [exact Hdb | congruence].
      * destruct (decide (task_id t = id)) as [<- | Hne].
        -- assert (old = rec) as -> by congruence.
           exists (with_FilesHash h rec). rewrite lookup_insert_eq. auto.
        -- exists rec. rewrite lookup_insert_ne; auto.
  - intros param w r w' H id rec Hdb. apply Generating_exec in H.
    destruct H as [(msg & -> & ->) | (id' & Hf & -> & ->)]; [exact Hdb |].
    simpl. rewrite lookup_insert_ne; [exact Hdb | congruence].
Qed.

Lemma jobs_are_isolated_witness :
  (forall id rec,
     db Sample.world2 !! id = Some rec ->
     forall r w',
       exec Sample.world2 (Generating Scenario.bigParam) r w' ->
       db w' !! id = Some rec)
  /\ (forall w',
        exec (set_tasks [] Sample.world1) (generatingTask Sample.join Sample.task1) tt w' ->
        exists rec', db w' !! Sample.job1 = Some rec'
                     /\ model.AssetType_ rec' = model.AssetTypeSprite).
Proof.
  destruct (jobs_are_isolated Sample.join) as [Htask Hgen].
  split.
  - intros id rec Hdb r w' H. exact (Hgen _ _ _ _ H id rec Hdb).
  - intros w' H.
    destruct (Htask _ _ _ H Sample.job1 Sample.record1 (lookup_insert_eq _ _ _))
      as (_ & rec' & Hdb' & _ & Hty).
    exists rec'. split; [exact Hdb' | exact Hty].
Defined.

(** ** More on [Validate] *)

(** The four ways through [Validate]: three refusals before the lookup,
    or the lookup of the hostname. *)
Lemma Validate_cases (url_Parse : string -> option url.URL) (p : MattingParams) :
  (ImageUrl p = "" /\ Validate url_Parse p = Ret (false, "missing imageUrl"))
  \/ (ImageUrl p <> ""
      /\ (url_Parse (ImageUrl p) = None
          \/ exists u, url_Parse (ImageUrl p) = Some u /\ url.Host u = "")
      /\ Validate url_Parse p = Ret (false, "invalid imageUrl"))
  \/ (exists u,
        ImageUrl p <> "" /\ url_Parse (ImageUrl p) = Some u /\ url.Host u <> ""
        /\ url.Scheme u <> "http" /\ url.Scheme u <> "https"
        /\ Validate url_Parse p = Ret (false, "invalid imageUrl: unsupported scheme"))
  \/ (exists u,
        ImageUrl p <> "" /\ url_Parse (ImageUrl p) = Some u /\ url.Host u <> ""
        /\ (url.Scheme u = "http" \/ url.Scheme u = "https")
        /\ Validate url_Parse p
           = net_LookupIP (url.Hostname u) (fun r =>
               match r with
               | None => Ret (false, "invalid imageUrl: lookup IP failed")
               | Some ips => Ret (Validate_ips ips)
               end)).
Proof.
  unfold Validate.
  destruct (String.eqb_spec (ImageUrl p) "") as [E | Hne]; [left; auto |].
  right.
  destruct (url_Parse (ImageUrl p)) as [u |] eqn:Hp; [| left; auto].
  destruct (String.eqb_spec (url.Host u) "") as [Eh | Hh].
  { left. split; [exact Hne |]. split; [right; eauto | reflexivity]. }
  right.
  destruct (String.eqb_spec (url.Scheme u) "http") as [E1 | N1]; simpl.
  { right. exists u. repeat split; auto. }
  destruct (String.eqb_spec (url.Scheme u) "https") as [E2 | N2]; simpl.
  { right. exists u. repeat split; auto. }
  left. exists u. repeat split; auto.
Qed.

Lemma Validate_ips_cases ips :
  (Validate_ips ips = (true, "") /\ forall ip, In ip ips -> isIPPrivate ip = false)
  \/ (Validate_ips ips = (false, "invalid imageUrl: private IP")
      /\ exists ip, In ip ips /\ isIPPrivate ip = true).
Proof.
  induction ips as [| ip0 rest IH]; simpl.
  - left. split; [reflexivity |]. intros ip [].
  - destruct (isIPPrivate ip0) eqn:E.
    + right. split; [reflexivity |]. exists ip0. auto.
    + destruct IH as [[-> Hall] | [-> (ip & Hin & Hp)]].
      * left. split; [reflexivity |]. intros ip [<- | Hin]; auto.
      * right. split; [reflexivity |]. exists ip. auto.
Qed.

Lemma exec_LookupIP_iff {A : Type} w host (k : option (list net.IP) -> Prog A) r w' :
  exec w (net_LookupIP host k) r w'
  <-> exec (emit (EvLookupIP host) w) (k (dns w host)) r w'.
Proof.
  split.
  - intros H. by exec_inv H.
  - intros H. by constructor.
Qed.

(** X8: [Validate] accepts exactly the non-empty URLs that parse with a
    non-empty host and the scheme http or https, whose hostname the
    resolver answers, with no loopback, link-local or private address
    among the answers; the reason is then empty and the hostname has been
    looked up once. *)
Theorem Validate_accepts_iff
  (url_Parse : string -> option url.URL) (p : MattingParams) (w w' : World)
  (msg : string) :
  exec w (Validate url_Parse p) (true, msg) w'
  <-> exists u ips,
        ImageUrl p <> ""
        /\ url_Parse (ImageUrl p) = Some u
        /\ url.Host u <> ""
        /\ (url.Scheme u = "http" \/ url.Scheme u = "https")
        /\ dns w (url.Hostname u) = Some ips
        /\ (forall ip, In ip ips ->
              net.IsLoopback ip = false /\ net.IsLinkLocalUnicast ip = false
              /\ net.IsLinkLocalMulticast ip = false /\ net.IsPrivate ip = false)
        /\ msg = ""
        /\ w' = emit (EvLookupIP (url.Hostname u)) w.
Proof.
  assert (Hpub : forall ip,
            isIPPrivate ip = false
            <-> net.IsLoopback ip = false /\ net.IsLinkLocalUnicast ip = false
                /\ net.IsLinkLocalMulticast ip = false /\ net.IsPrivate ip = false).
  { intros ip. unfold isIPPrivate.
    destruct (net.IsLoopback ip), (net.IsLinkLocalUnicast ip),
      (net.IsLinkLocalMulticast ip), (net.IsPrivate ip); simpl; intuition congruence. }
  split.
  - intros H.
    destruct (Validate_cases url_Parse p)
      as [[_ E] | [(_ & _ & E) | [(u & _ & _ & _ & _ & _ & E)
                                 | (u & Hne & Hp & Hh & Hs & E)]]];
      rewrite E in H;
      try (apply exec_Ret_iff in H; destruct H as [H _]; discriminate H).
    apply exec_LookupIP_iff in H.
    destruct (dns w (url.Hostname u)) as [ips |] eqn:Hd;
      apply exec_Ret_iff in H; destruct H as [H ->]; [| discriminate H].
    destruct (Validate_ips_cases ips) as [[Ev Hall] | [Ev _]];
      rewrite Ev in H; [| discriminate H].
    injection H as ->. exists u, ips. repeat split; auto; by apply Hpub, Hall.
  - intros (u & ips & Hne & Hp & Hh & Hs & Hd & Hall & -> & ->).
    rewrite (Validate_reaches_lookup url_Parse p u Hne Hp Hh Hs).
    constructor. rewrite Hd, Validate_ips_public; [constructor |].
    intros ip Hin. by apply Hpub, Hall.
Qed.

Lemma Validate_accepts_iff_witness :
  exec Sample.world0 (Validate Sample.Parse {| ImageUrl := "https://93.184.216.34:443/a.png" |})
    (true, "") (emit (EvLookupIP "93.184.216.34") Sample.world0).
Proof.
  apply (Validate_accepts_iff Sample.Parse).
  exists (url.mkURL "https" "93.184.216.34:443"), [[93; 184; 216; 34]].
  split; [simpl; discriminate |]. split; [reflexivity |].
  split; [simpl; discriminate |]. split; [by right |].
  split; [reflexivity |]. split; [| split; reflexivity].
  intros ip [<- | []]. repeat split; reflexivity.
Defined.

(** X9: the refusals of [Validate] that come from the URL itself or from
    the resolver.  A non-empty URL that does not parse, or parses without
    host, is refused with "invalid imageUrl" and nothing is looked up; a
    URL that passes the checks and whose hostname the resolver cannot
    answer is refused with "invalid imageUrl: lookup IP failed". *)
Theorem Validate_invalid_or_unresolved
  (url_Parse : string -> option url.URL) (p : MattingParams) :
  (ImageUrl p <> "" ->
   url_Parse (ImageUrl p) = None
   \/ (exists u, url_Parse (ImageUrl p) = Some u /\ url.Host u = "") ->
   forall w r w',
     exec w (Validate url_Parse p) r w' <-> r = (false, "invalid imageUrl") /\ w' = w)
  /\ (forall u w,
        ImageUrl p <> "" ->
        url_Parse (ImageUrl p) = Some u ->
        url.Host u <> "" ->
        url.Scheme u = "http" \/ url.Scheme u = "https" ->
        dns w (url.Hostname u) = None ->
        forall r w',
          exec w (Validate url_Parse p) r w'
          <-> r = (false, "invalid imageUrl: lookup IP failed")
              /\ w' = emit (EvLookupIP (url.Hostname u)) w).
Proof.
  split.
  - intros Hne Hbad w r w'.
    destruct (Validate_cases url_Parse p)
      as [[E _] | [(_ & _ & E) | [(u & _ & Hp & Hh & _) | (u & _ & Hp & Hh & _)]]].
    + contradiction.
    + rewrite E. apply exec_Ret_iff.
    + destruct Hbad as [Hn | (u' & Hp' & Hh')]; congruence.
    + destruct Hbad as [Hn | (u' & Hp' & Hh')]; congruence.
  - intros u w Hne Hp Hh Hs Hd r w'.
    rewrite (Validate_reaches_lookup url_Parse p u Hne Hp Hh Hs).
    rewrite exec_LookupIP_iff, Hd. apply exec_Ret_iff.
Qed.

Lemma Validate_invalid_or_unresolved_witness :
  (forall w r w',
     exec w (Validate Sample.Parse {| ImageUrl := "http:///only/a/path" |}) r w'
     <-> r = (false, "invalid imageUrl") /\ w' = w)
  /\ (forall r w',
        exec Sample.world0 (Validate Sample.Parse {| ImageUrl := "http://no.such.host/" |}) r w'
        <-> r = (false, "invalid imageUrl: lookup IP failed")
            /\ w' = emit (EvLookupIP "no.such.host") Sample.world0).
Proof.
  split.
  - apply (proj1 (Validate_invalid_or_unresolved Sample.Parse
                    {| ImageUrl := "http:///only/a/path" |})).
    + simpl. discriminate.
    + right. exists (url.mkURL "http" ""). split; reflexivity.
  - apply (proj2 (Validate_invalid_or_unresolved Sample.Parse
                    {| ImageUrl := "http://no.such.host/" |})
             (url.mkURL "http" "no.such.host") Sample.world0).
    + simpl. discriminate.
    + reflexivity.
    + simpl. discriminate.
    + by left.
    + reflexivity.
Defined.

(** X10: all [Validate] ever does outside is to look up one hostname, at
    most once, and only for a URL that has passed the checks on the URL
    itself: it does not touch the store, the goroutines or the user
    assets, and it fetches nothing. *)
Theorem Validate_only_looks_up
  (url_Parse : string -> option url.URL) (p : MattingParams) (w w' : World)
  (r : bool * string) :
  exec w (Validate url_Parse p) r w' ->
  db w' = db w /\ tasks w' = tasks w /\ user_assets w' = user_assets w
  /\ (since w w' = []
      \/ exists u,
           url_Parse (ImageUrl p) = Some u
           /\ url.Host u <> ""
           /\ (url.Scheme u = "http" \/ url.Scheme u = "https")
           /\ since w w' = [EvLookupIP (url.Hostname u)]).
Proof.
  intros H.
  destruct (Validate_cases url_Parse p)
    as [[_ E] | [(_ & _ & E) | [(u & _ & _ & _ & _ & _ & E)
                               | (u & Hne & Hp & Hh & Hs & E)]]];
    rewrite E in H.
  1-3: apply exec_Ret_iff in H; destruct H as [_ ->];
       repeat split; left; apply since_refl.
  apply exec_LookupIP_iff in H.
  destruct (dns w (url.Hostname u)); apply exec_Ret_iff in H; destruct H as [_ ->];
    repeat split; right; exists u; repeat split; auto; by apply since_compute1.
Qed.

Lemma Validate_only_looks_up_witness :
  exec Sample.world2
    (Validate Sample.Parse {| ImageUrl := "http://169.254.169.254/latest/meta-data" |})
    (false, "invalid imageUrl: private IP")
    (emit (EvLookupIP "169.254.169.254") Sample.world2)
  /\ forall r w',
       exec Sample.world2
         (Validate Sample.Parse {| ImageUrl := "http://169.254.169.254/latest/meta-data" |})
         r w' ->
       db w' = db Sample.world2 /\ tasks w' = tasks Sample.world2.
Proof.
  split; [apply exec_LookupIP, exec_Ret |].
  intros r w' H.
  destruct (Validate_only_looks_up Sample.Parse _ _ _ _ H) as (Hdb & Ht & _).
  split; [exact Hdb | exact Ht].
Defined.

(** X11: the verdict of [Validate] depends on which addresses the resolver
    gives, not on their order or number: when every address answered in
    one world is also answered in another, a refusal in the first is the
    same refusal in the second.  So more addresses never turn a refusal
    into an acceptance, and the same addresses in another order give the
    same result. *)
Theorem Validate_more_addresses
  (url_Parse : string -> option url.URL) (p : MattingParams) (u : url.URL)
  (w1 w2 : World) (ips1 ips2 : list net.IP) :
  url_Parse (ImageUrl p) = Some u ->
  dns w1 (url.Hostname u) = Some ips1 ->
  dns w2 (url.Hostname u) = Some ips2 ->
  (forall ip, In ip ips1 -> In ip ips2) ->
  (forall msg w1',
     exec w1 (Validate url_Parse p) (false, msg) w1' ->
     forall r w2', exec w2 (Validate url_Parse p) r w2' -> r = (false, msg))
  /\ ((forall ip, In ip ips2 -> In ip ips1) ->
      forall r1 w1' r2 w2',
        exec w1 (Validate url_Parse p) r1 w1' ->
        exec w2 (Validate url_Parse p) r2 w2' ->
        r1 = r2).
Proof.
  intros Hp Hd1 Hd2 Hsub.
  assert (Hrun : forall w ips r w',
            dns w (url.Hostname u) = Some ips ->
            exec w (Validate url_Parse p) r w' ->
            (Validate url_Parse p = Ret r)
            \/ (r = Validate_ips ips
                /\ forall w0 r0 w0' ips0,
                     dns w0 (url.Hostname u) = Some ips0 ->
                     exec w0 (Validate url_Parse p) r0 w0' -> r0 = Validate_ips ips0)).
  { intros w ips r w' Hd H.
    destruct (Validate_cases url_Parse p)
      as [[_ E] | [(_ & _ & E) | [(u' & _ & _ & _ & _ & _ & E)
                                 | (u' & Hne & Hp' & Hh & Hs & E)]]].
    1-3: left; rewrite E in H; apply exec_Ret_iff in H; destruct H as [-> _]; exact E.
    right. assert (u' = u) as -> by congruence.
    assert (Hall : forall w0 r0 w0' ips0,
              dns w0 (url.Hostname u) = Some ips0 ->
              exec w0 (Validate url_Parse p) r0 w0' -> r0 = Validate_ips ips0).
    { intros w0 r0 w0' ips0 Hd0 H0. rewrite E in H0.
      apply exec_LookupIP_iff in H0. rewrite Hd0 in H0.
      apply exec_Ret_iff in H0. by destruct H0. }
    split; [by apply (Hall w r w') | exact Hall]. }
  assert (Hmono : forall m, Validate_ips ips1 = (false, m) -> Validate_ips ips2 = (false, m)).
  { intros m E1. destruct (Validate_ips_cases ips1) as [[E _] | [E (ip & Hin & Hpr)]].
    - rewrite E in E1. discriminate E1.
    - rewrite E in E1. injection E1 as <-.
      apply Validate_ips_private. exists ip. auto. }
  split.
  - intros msg w1' H1 r w2' H2.
    destruct (Hrun w1 ips1 _ w1' Hd1 H1) as [E | [E Hall]].
    + rewrite E in H2. apply exec_Ret_iff in H2. by destruct H2.
    + rewrite (Hall w2 r w2' ips2 Hd2 H2). apply Hmono. by symmetry.
  - intros Hsup r1 w1' r2 w2' H1 H2.
    destruct (Hrun w1 ips1 _ w1' Hd1 H1) as [E | [E Hall]].
    + rewrite E in H2. apply exec_Ret_iff in H2. by destruct H2.
    + rewrite E, (Hall w2 r2 w2' ips2 Hd2 H2).
      destruct (Validate_ips_cases ips1) as [[E1 Hall1] | [E1 (ip & Hin & Hpr)]].
      * rewrite E1. symmetry. apply Validate_ips_public. intros ip Hin. auto.
      * rewrite E1. symmetry. apply Validate_ips_private. exists ip. auto.
Qed.

Lemma Validate_more_addresses_witness :
  dns Sample.world0 "two.example" = Some [[93; 184; 216; 34]; [10; 0; 0; 7]]
  /\ forall r w2',
       exec Sample.world0 (Validate Sample.Parse {| ImageUrl := "http://two.example/" |})
         r w2' ->
       r = (false, "invalid imageUrl: private IP").
Proof.
  split; [reflexivity |].
  intros r w2' H.
  pose (w1 := {| db := ∅; user_assets := []; tasks := [];
                 dns := fun _ => Some [[10; 0; 0; 7]]; trace := [] |}).
  destruct (Validate_more_addresses Sample.Parse {| ImageUrl := "http://two.example/" |}
              (url.mkURL "http" "two.example") w1 Sample.world0
              [[10; 0; 0; 7]] [[93; 184; 216; 34]; [10; 0; 0; 7]]
              eq_refl eq_refl eq_refl) as [Hmono _].
  - intros ip [<- | []]. right. by left.
  - refine (Hmono "invalid imageUrl: private IP" (emit (EvLookupIP "two.example") w1)
              _ r w2' H).
    apply exec_LookupIP. apply exec_Ret.
Defined.

(** ** More on [isIPPrivate] *)

(** X12: an IPv4 address written in the 16-byte IPv4-mapped form is
    classified like its 4-byte form, by [isIPPrivate] and by each of the
    four predicates it asks. *)
Theorem isIPPrivate_v4_mapped (a b c d : Z) :
  let ip4 := [a; b; c; d] in
  let ip16 := (net.v4InV6Prefix ++ [a; b; c; d])%list in
  isIPPrivate ip16 = isIPPrivate ip4
  /\ net.IsLoopback ip16 = net.IsLoopback ip4
  /\ net.IsLinkLocalUnicast ip16 = net.IsLinkLocalUnicast ip4
  /\ net.IsLinkLocalMulticast ip16 = net.IsLinkLocalMulticast ip4
  /\ net.IsPrivate ip16 = net.IsPrivate ip4.
Proof. repeat split; reflexivity. Qed.

Lemma land_240_16 b : 0 <= b < 256 -> (Z.land b 240 =? 16) = ((16 <=? b) && (b <=? 31)).
Proof.
  intros Hb.
  assert (Hall : forallb (fun n => Bool.eqb (Z.land (Z.of_nat n) 240 =? 16)
                                     ((16 <=? Z.of_nat n) && (Z.of_nat n <=? 31)))
                   (seq 0 256) = true) by (vm_compute; reflexivity).
  rewrite forallb_forall in Hall.
  specialize (Hall (Z.to_nat b)).
  rewrite Z2Nat.id in Hall by lia.
  apply Bool.eqb_prop, Hall. apply in_seq. lia.
Qed.

(** X13: which IPv4 addresses [isIPPrivate] refuses: 127.0.0.0/8,
    10.0.0.0/8, 172.16.0.0/12, 192.168.0.0/16, 169.254.0.0/16 and
    224.0.0.0/24, and no other.  So 0.0.0.0, 100.64.0.0/10 and the
    multicast and broadcast addresses outside 224.0.0.0/24 pass. *)
Theorem isIPPrivate_v4_ranges (a b c d : Z) :
  0 <= b < 256 ->
  isIPPrivate [a; b; c; d] = true
  <-> a = 127
      \/ a = 10
      \/ (a = 172 /\ 16 <= b <= 31)
      \/ (a = 192 /\ b = 168)
      \/ (a = 169 /\ b = 254)
      \/ (a = 224 /\ b = 0 /\ c = 0).
Proof.
  intros Hb. rewrite isIPPrivate_true.
  unfold net.IsLoopback, net.IsLinkLocalUnicast, net.IsLinkLocalMulticast, net.IsPrivate.
  change (net.To4 [a; b; c; d]) with (Some [a; b; c; d]).
  cbv beta iota. unfold net.at_. cbn [nth].
  rewrite (land_240_16 b Hb).
  rewrite !orb_true_iff, !andb_true_iff, !Z.eqb_eq, !Z.leb_le.
  intuition lia.
Qed.

Lemma isIPPrivate_v4_ranges_witness :
  (isIPPrivate [172; 20; 1; 1] = true
   <-> 172 = 127 \/ 172 = 10 \/ (172 = 172 /\ 16 <= 20 <= 31) \/ (172 = 192 /\ 20 = 168)
       \/ (172 = 169 /\ 20 = 254) \/ (172 = 224 /\ 20 = 0 /\ 1 = 0))
  /\ isIPPrivate [100; 64; 0; 1] = false.
Proof.
  split.
  - apply (isIPPrivate_v4_ranges 172 20 1 1). lia.
  - destruct (isIPPrivate [100; 64; 0; 1]) eqn:E; [| reflexivity].
    apply (isIPPrivate_v4_ranges 100 64 0 1) in E; [lia | lia].
Defined.

(** X14: a byte slice that is neither 4 nor 16 bytes long, the nil
    address among them, is never private for [isIPPrivate]. *)
Theorem isIPPrivate_wrong_length (ip : net.IP) :
  length ip <> 4%nat -> length ip <> 16%nat -> isIPPrivate ip = false.
Proof.
  intros H4 H16.
  apply Nat.eqb_neq in H4, H16.
  unfold isIPPrivate, net.IsLoopback, net.IsLinkLocalUnicast, net.IsLinkLocalMulticast,
    net.IsPrivate, net.To4, net.Equal, net.IPv4len, net.IPv6len.
  rewrite H4, H16. simpl. rewrite H16. reflexivity.
Qed.

Lemma isIPPrivate_wrong_length_witness :
  isIPPrivate [] = false /\ isIPPrivate [127; 0; 0; 1; 0] = false.
Proof.
  split.
  - apply isIPPrivate_wrong_length; simpl; lia.
  - apply isIPPrivate_wrong_length; simpl; lia.
Defined.

(** ** More on [AddUserAsset] *)

Example decimal_examples :
  decimal 42 = "42" /\ decimal 0 = "0" /\ decimal (-7) = "-7"
  /\ decimal 9223372036854775807 = "9223372036854775807".
Proof. repeat split; reflexivity. Qed.

(** X15: whatever string [AssetID] is, [AddUserAsset] returns nil or the
    error of the store, never the error of [strconv.Atoi]; the record it
    asks the store to add carries the value [Atoi] returned, which is an
    int.  It adds at most one record, after the ones there are, and leaves
    the asset table and the goroutines alone. *)
Theorem AddUserAsset_any_string
  (params : AddUserAssetParams) (assetType owner : string) (w w' : World)
  (r : option error) :
  exec w (AddUserAsset params assetType owner) r w' ->
  db w' = db w /\ tasks w' = tasks w
  /\ exists now,
       let ua := {| model.Owner := owner;
                    model.AssetID := fst (strconv.Atoi (AssetID params));
                    model.RelationType := assetType;
                    model.RelationTimestamp := now |} in
       strconv.minInt <= model.AssetID ua <= strconv.maxInt
       /\ ((r = None /\ user_assets w' = (user_assets w ++ [ua])%list)
           \/ (exists msg, r = Some (ErrStore msg) /\ user_assets w' = user_assets w)).
Proof.
  intros H. apply AddUserAsset_exec in H. destruct H as (now & H). simpl in H.
  destruct H as [[-> ->] | (msg & -> & ->)].
  - repeat split. exists now. simpl. split; [apply Atoi_in_range | left; auto].
  - repeat split. exists now. simpl. split; [apply Atoi_in_range | right; eauto].
Qed.

Lemma AddUserAsset_any_string_witness :
  strconv.Atoi "12x" = (0, Some (ErrSyntax "Atoi" "12x"))
  /\ (forall r w',
        exec Sample.world1 (AddUserAsset {| AssetID := "12x" |} "liked" "alice") r w' ->
        db w' = db Sample.world1 /\ tasks w' = [Sample.task1]
        /\ exists now,
             (r = None
              /\ user_assets w'
                 = [{| model.Owner := "alice"; model.AssetID := 0;
                       model.RelationType := "liked"; model.RelationTimestamp := now |}])
             \/ (exists msg, r = Some (ErrStore msg) /\ user_assets w' = []))
  /\ strconv.Atoi "99999999999999999999x"
     = (9223372036854775807, Some (ErrRange "Atoi" "99999999999999999999x"))
  /\ (forall r w',
        exec Sample.world1
          (AddUserAsset {| AssetID := "99999999999999999999x" |} "liked" "alice") r w' ->
        db w' = db Sample.world1 /\ tasks w' = [Sample.task1]
        /\ exists now,
             (r = None
              /\ user_assets w'
                 = [{| model.Owner := "alice"; model.AssetID := 9223372036854775807;
                       model.RelationType := "liked"; model.RelationTimestamp := now |}])
             \/ (exists msg, r = Some (ErrStore msg) /\ user_assets w' = [])).
Proof.
  assert (Ha : strconv.Atoi "99999999999999999999x"
               = (9223372036854775807, Some (ErrRange "Atoi" "99999999999999999999x")))
    by (vm_compute; reflexivity).
  split; [reflexivity |]. split; [| split; [exact Ha |]].
  - intros r w' H.
    destruct (AddUserAsset_any_string {| AssetID := "12x" |} "liked" "alice"
                Sample.world1 w' r H) as (Hdb & Ht & now & _ & Hr).
    split; [exact Hdb |]. split; [exact Ht |]. exists now. exact Hr.
  - intros r w' H.
    destruct (AddUserAsset_any_string {| AssetID := "99999999999999999999x" |}
                "liked" "alice" Sample.world1 w' r H) as (Hdb & Ht & now & _ & Hr).
    split; [exact Hdb |]. split; [exact Ht |]. exists now.
    cbn [AssetID] in Hr. rewrite Ha in Hr. exact Hr.
Defined.

(** X16: when [AssetID] is the decimal numeral of a number [n] that is an
    int, the record [AddUserAsset] asks the store to add has the asset ID
    [n]; when [n] is beyond the ints the record gets the nearest int,
    and the call goes on as if nothing had happened. *)
Theorem AddUserAsset_decimal (n : Z) (assetType owner : string) (w w' : World)
  (r : option error) :
  exec w (AddUserAsset {| AssetID := decimal n |} assetType owner) r w' ->
  exists now,
    let ua := {| model.Owner := owner;
                 model.AssetID := Z.max strconv.minInt (Z.min strconv.maxInt n);
                 model.RelationType := assetType;
                 model.RelationTimestamp := now |} in
    (r = None /\ user_assets w' = (user_assets w ++ [ua])%list)
    \/ (exists msg, r = Some (ErrStore msg) /\ user_assets w' = user_assets w).
Proof.
  intros H. apply AddUserAsset_exec in H. destruct H as (now & H).
  cbn [AssetID] in H. rewrite Atoi_decimal in H.
  assert (E : fst (if strconv.maxInt <? n
                   then (strconv.maxInt, Some (ErrRange "Atoi" (decimal n)))
                   else if n <? strconv.minInt
                        then (strconv.minInt, Some (ErrRange "Atoi" (decimal n)))
                        else (n, None))
              = Z.max strconv.minInt (Z.min strconv.maxInt n)).
  { unfold strconv.maxInt, strconv.minInt.
    destruct (2 ^ 63 - 1 <? n) eqn:E1;
      [apply Z.ltb_lt in E1 | apply Z.ltb_ge in E1]; simpl; [lia |].
    destruct (n <? - 2 ^ 63) eqn:E2;
      [apply Z.ltb_lt in E2 | apply Z.ltb_ge in E2]; simpl; lia. }
  rewrite E in H. exists now. simpl in H.
  destruct H as [[-> ->] | (msg & -> & ->)]; [left | right; exists msg]; auto.
Qed.

Lemma AddUserAsset_decimal_witness :
  (forall r w',
     exec Sample.world0 (AddUserAsset {| AssetID := "42" |} "liked" "alice") r w' ->
     exists now,
       (r = None
        /\ user_assets w'
           = [{| model.Owner := "alice"; model.AssetID := 42;
                 model.RelationType := "liked"; model.RelationTimestamp := now |}])
       \/ (exists msg, r = Some (ErrStore msg) /\ user_assets w' = []))
  /\ (forall r w',
        exec Sample.world0
          (AddUserAsset {| AssetID := "99999999999999999999" |} "liked" "alice") r w' ->
        exists now,
          (r = None
           /\ user_assets w'
              = [{| model.Owner := "alice"; model.AssetID := 9223372036854775807;
                    model.RelationType := "liked"; model.RelationTimestamp := now |}])
          \/ (exists msg, r = Some (ErrStore msg) /\ user_assets w' = [])).
Proof.
  split; intros r w' H.
  - exact (AddUserAsset_decimal 42 "liked" "alice" Sample.world0 w' r H).
  - exact (AddUserAsset_decimal 99999999999999999999 "liked" "alice"
             Sample.world0 w' r H).
Defined.

(** ** What [Validate] resolves *)

Lemma substring_0_length s : String.substring 0 (String.length s) s = s.
Proof. induction s as [| c s IH]; simpl; [reflexivity | by rewrite IH]. Qed.

Lemma substring_append_l h r :
  String.substring 0 (String.length h) (String.append h r) = h.
Proof.
  induction h as [| c h IH]; simpl.
  - destruct r; reflexivity.
  - by rewrite IH.
Qed.

Lemma substring_append_r h r :
  String.substring (String.length h)
    (String.length (String.append h r) - String.length h) (String.append h r) = r.
Proof.
  induction h as [| c h IH]; simpl.
  - rewrite Nat.sub_0_r. apply substring_0_length.
  - exact IH.
Qed.

Lemma lastIndexByte_noColon s : noColon s = true -> url.lastIndexByte s ":" = None.
Proof.
  unfold noColon. induction s as [| c s IH]; simpl; [reflexivity |].
  intros H. apply andb_true_iff in H. destruct H as [Hc Hs].
  rewrite (IH Hs). destruct (Ascii.eqb c ":"); [discriminate Hc | reflexivity].
Qed.

Lemma lastIndexByte_append h r :
  noColon r = true ->
  url.lastIndexByte (String.append h (String ":" r)) ":" = Some (String.length h).
Proof.
  intros Hr. induction h as [| c h IH]; simpl.
  - by rewrite (lastIndexByte_noColon r Hr).
  - by rewrite IH.
Qed.

Lemma digits_noColon port :
  forallb url.isDigit (list_ascii_of_string port) = true -> noColon port = true.
Proof.
  unfold noColon. induction port as [| c s IH]; simpl; [reflexivity |].
  intros H. apply andb_true_iff in H. destruct H as [Hc Hs].
  rewrite (IH Hs), andb_true_r.
  destruct (Ascii.eqb_spec c ":") as [-> | _]; [discriminate Hc | reflexivity].
Qed.

(** [Hostname] of a host that is a name or an IPv4 literal, alone or
    followed by a port. *)
Lemma Hostname_bare s h port :
  noColon h = true ->
  url.hasPrefix h "[" = false ->
  forallb url.isDigit (list_ascii_of_string port) = true ->
  url.Hostname (url.mkURL s h) = h
  /\ url.Hostname (url.mkURL s (String.append h (String ":" port))) = h.
Proof.
  intros Hh Hb Hp. unfold url.Hostname. simpl url.Host. split.
  - rewrite (lastIndexByte_noColon h Hh). by rewrite Hb.
  - rewrite (lastIndexByte_append h port (digits_noColon port Hp)).
    rewrite substring_append_r. simpl url.validOptionalPort. rewrite Hp.
    rewrite substring_append_l. by rewrite Hb.
Qed.

(** X17: what [Validate] asks the resolver for is the host without its
    port: for a URL that passes the checks and whose host is [h] or
    [h:port], with [h] a name or an IPv4 literal and [port] made of
    digits, the one lookup is for [h]. *)
Theorem Validate_resolves_host_without_port
  (url_Parse : string -> option url.URL) (p : MattingParams)
  (s h port : string) (w w' : World) (r : bool * string) :
  ImageUrl p <> "" ->
  s = "http" \/ s = "https" ->
  h <> "" ->
  noColon h = true ->
  url.hasPrefix h "[" = false ->
  forallb url.isDigit (list_ascii_of_string port) = true ->
  url_Parse (ImageUrl p) = Some (url.mkURL s h)
  \/ url_Parse (ImageUrl p) = Some (url.mkURL s (String.append h (String ":" port))) ->
  exec w (Validate url_Parse p) r w' ->
  since w w' = [EvLookupIP h] /\ r = match dns w h with
                                     | None => (false, "invalid imageUrl: lookup IP failed")
                                     | Some ips => Validate_ips ips
                                     end.
Proof.
  intros Hne Hs Hhne Hh Hb Hp Hparse H.
  destruct (Hostname_bare s h port Hh Hb Hp) as [E1 E2].
  assert (Hu : exists u, url_Parse (ImageUrl p) = Some u /\ url.Host u <> ""
                         /\ url.Scheme u = s /\ url.Hostname u = h).
  { destruct Hparse as [Hparse | Hparse]; eexists; (split; [exact Hparse |]).
    - simpl. auto.
    - simpl. split; [| auto]. destruct h; [congruence | discriminate]. }
  destruct Hu as (u & Hpu & Hhost & Hsch & Hname).
  rewrite (Validate_reaches_lookup url_Parse p u Hne Hpu Hhost) in H
    by (rewrite Hsch; exact Hs).
  rewrite Hname in H. apply exec_LookupIP_iff in H.
  destruct (dns w h); apply exec_Ret_iff in H; destruct H as [-> ->];
    (split; [by apply since_compute1 | reflexivity]).
Qed.

Lemma Validate_resolves_host_without_port_witness :
  Sample.Parse "http://10.0.0.7:8080/x" = Some (url.mkURL "http" "10.0.0.7:8080")
  /\ forall r w',
       exec Sample.world0
         (Validate Sample.Parse {| ImageUrl := "http://10.0.0.7:8080/x" |}) r w' ->
       since Sample.world0 w' = [EvLookupIP "10.0.0.7"]
       /\ r = (false, "invalid imageUrl: private IP").
Proof.
  split; [reflexivity |].
  intros r w' H.
  apply (Validate_resolves_host_without_port Sample.Parse
           {| ImageUrl := "http://10.0.0.7:8080/x" |} "http" "10.0.0.7" "8080"
           Sample.world0 w' r); try reflexivity; try (simpl; discriminate).
  - by left.
  - right. reflexivity.
  - exact H.
Defined.

(** ** Invariants of the system *)

(** X18: in every world reached from a world without records, no two
    pending goroutines belong to the same job, the job of every pending
    goroutine is stored with an empty result marker, and every stored
    record carries the ID it is stored under. *)
Theorem one_goroutine_per_job
  (url_Parse : string -> option url.URL) (StringArrayToString : list string -> string)
  (w0 w : World) :
  initial w0 ->
  steps url_Parse StringArrayToString w0 w ->
  NoDup (map task_id (tasks w))
  /\ (forall t, In t (tasks w) ->
        exists rec, db w !! task_id t = Some rec /\ model.FilesHash rec = "")
  /\ (forall id rec, db w !! id = Some rec -> model.ID rec = id).
Proof.
  intros Hinit Hsteps.
  assert (Hok : pending_ok w).
  { apply (steps_pending_ok url_Parse StringArrayToString w0 w Hsteps).
    by apply initial_pending_ok. }
  destruct Hok as [Hnd Hrec]. split; [exact Hnd |]. split; [exact Hrec |].
  assert (H0 : forall id rec, db w0 !! id = Some rec -> model.ID rec = id).
  { intros id rec. destruct Hinit as (-> & _). by rewrite lookup_empty. }
  clear Hinit Hnd Hrec. induction Hsteps as [w | w w1 w' Hs _ IH]; [exact H0 |].
  apply IH. clear IH. intros id rec Hdb.
  destruct Hs as [w param r w1 H | w ts1 t ts2 w1 Et H
    | w id' r w1 H | w p r w1 H | w params ty owner r w1 H].
  - apply Generating_exec in H.
    destruct H as [(msg & -> & ->) | (id' & Hf & -> & ->)]; [by apply H0 |].
    simpl in Hdb. destruct (decide (id' = id)) as [-> | Hne].
    + rewrite lookup_insert_eq in Hdb. by injection Hdb as <-.
    + rewrite lookup_insert_ne in Hdb by exact Hne. by apply H0.
  - apply generatingTask_exec_db in H. simpl in H.
    destruct H as [_ [E | (old & h & Hold & E)]]; rewrite E in Hdb; [by apply H0 |].
    destruct (decide (task_id t = id)) as [<- | Hne].
    + rewrite lookup_insert_eq in Hdb. injection Hdb as <-. simpl. by apply H0.
    + rewrite lookup_insert_ne in Hdb by exact Hne. by apply H0.
  - apply GetAIAssetStatus_exec_db in H. destruct H as [_ E]. rewrite E in Hdb. by apply H0.
  - apply Validate_exec_db in H. destruct H as [_ E]. rewrite E in Hdb. by apply H0.
  - apply AddUserAsset_exec_db in H. destruct H as [_ E]. rewrite E in Hdb. by apply H0.
Qed.

Lemma one_goroutine_per_job_witness :
  NoDup (map task_id (tasks Sample.world1))
  /\ (forall t, In t (tasks Sample.world1) ->
        exists rec, db Sample.world1 !! task_id t = Some rec /\ model.FilesHash rec = "")
  /\ (forall id rec, db Sample.world2 !! id = Some rec -> model.ID rec = id).
Proof.
  destruct (one_goroutine_per_job Sample.Parse Sample.join Sample.world0 Sample.world1
              sample_initial (sample_reach1 Sample.Parse)) as (Hnd & Hrec & _).
  destruct (one_goroutine_per_job Sample.Parse Sample.join Sample.world0 Sample.world2
              sample_initial (sample_reach2 Sample.Parse)) as (_ & _ & Hid).
  split; [exact Hnd |]. split; [exact Hrec | exact Hid].
Defined.

(** ** [ListUserAssets] *)
Section ListUserAssetsFacts.

Context {AssetTypeFilter ListAssetsOrderBy Pagination Page : Type}.
Context `{EqDecision ListAssetsOrderBy}.
Variable TimeDesc ClickCountDesc : ListAssetsOrderBy.
Variable store :
  Pagination -> list (FilterCondition AssetTypeFilter) -> list OrderByCondition ->
  string -> result Page.

(** X19: every query of [ListUserAssets] is tied to the owner and to the
    relation type: the conditions handed to the store start with
    [ua.owner = owner] and [ua.relation_type = assetType], these are the
    only conditions on those two columns, and the at most two conditions
    that follow are on [a.display_name] and [a.asset_type].  The keyword
    condition is there exactly when the keyword is not empty, and is the
    keyword as given between two percent signs. *)
Theorem ListUserAssets_scoped
  (assetType owner : string)
  (params : ListAssetsParams AssetTypeFilter ListAssetsOrderBy Pagination) :
  list_Owner params = Some owner ->
  let ownerCond := {| Column := "ua.owner"; Operation := "="; Value := ValString owner |} in
  let typeCond :=
    {| Column := "ua.relation_type"; Operation := "="; Value := ValString assetType |} in
  let keywordCond :=
    {| Column := "a.display_name"; Operation := "LIKE";
       Value := ValString (String.append "%" (String.append (list_Keyword params) "%")) |} in
  exists rest,
    ListUserAssets TimeDesc ClickCountDesc store assetType params
    = match store (list_Pagination params) (ownerCond :: typeCond :: rest)
              (listOrders TimeDesc ClickCountDesc params) listQuery with
      | Err err => Some (Err err, [EvPrintf "failed to list user assets: %v" err])
      | Ok assets => Some (Ok assets, [])
      end
    /\ (length rest <= 2)%nat
    /\ List.filter (onColumn "ua.owner") (ownerCond :: typeCond :: rest) = [ownerCond]
    /\ List.filter (onColumn "ua.relation_type") (ownerCond :: typeCond :: rest) = [typeCond]
    /\ (forall c, In c rest -> Column c = "a.display_name" \/ Column c = "a.asset_type")
    /\ (In keywordCond rest <-> list_Keyword params <> "")
    /\ (forall c, In c rest -> Column c = "a.display_name" -> c = keywordCond).
Proof.
  intros Ho. simpl.
  unfold ListUserAssets. rewrite Ho. unfold listWheres.
  destruct (String.eqb_spec (list_Keyword params) "") as [Ek | Nk];
    destruct (list_AssetType params) as [a |]; simpl;
    eexists; (split; [reflexivity |]); simpl;
    (split; [lia |]); (split; [reflexivity |]); (split; [reflexivity |]);
    (split; [intros c Hc; simpl in Hc; intuition (subst; auto) |]);
    (split; [split; [intros Hc; simpl in Hc; intuition (try discriminate; try congruence)
                    | intros Hn; simpl; intuition congruence] |]);
    intros c Hc Hcol; simpl in Hc; intuition (subst; try discriminate; auto).
Qed.

End ListUserAssetsFacts.

Lemma ListUserAssets_scoped_witness :
  exists rest,
    ListSample.run ListSample.params
    = Some (Ok ({| Column := "ua.owner"; Operation := "="; Value := ValString "alice" |}
                :: {| Column := "ua.relation_type"; Operation := "=";
                      Value := ValString "liked" |} :: rest,
                [ {| order_Column := "a.click_count"; Direction := "DESC" |} ],
                listQuery), [])
    /\ (length rest <= 2)%nat.
Proof.
  destruct (ListUserAssets_scoped "time" "clickCount" ListSample.store "liked" "alice"
              ListSample.params eq_refl) as (rest & Hrun & Hlen & _).
  exists rest. split; [| exact Hlen]. exact Hrun.
Defined.

(** ** [isIPPrivate] on IPv6 addresses *)

Lemma bytesEqual_eq a : forall b, net.bytesEqual a b = true <-> a = b.
Proof.
  unfold net.bytesEqual.
  induction a as [| x a IH]; intros [| y b]; simpl; try (split; [discriminate | congruence]).
  - split; reflexivity.
  - specialize (IH b). rewrite andb_true_iff in *. rewrite andb_true_iff, Z.eqb_eq.
    split.
    + intros (Hl & Hx & Hr). f_equal; [exact Hx |]. apply IH. auto.
    + intros [= -> ->]. split; [apply Nat.eqb_refl |]. split; [reflexivity |].
      apply IH. reflexivity.
Qed.

Lemma byte_masks b :
  0 <= b < 256 ->
  (Z.land b 192 =? 128) = ((128 <=? b) && (b <=? 191))
  /\ (Z.land b 15 =? 2) = (b mod 16 =? 2)
  /\ (Z.land b 254 =? 252) = ((b =? 252) || (b =? 253)).
Proof.
  intros Hb.
  assert (Hall : forallb (fun n =>
                    let b := Z.of_nat n in
                    Bool.eqb (Z.land b 192 =? 128) ((128 <=? b) && (b <=? 191))
                    && Bool.eqb (Z.land b 15 =? 2) (b mod 16 =? 2)
                    && Bool.eqb (Z.land b 254 =? 252) ((b =? 252) || (b =? 253)))
                   (seq 0 256) = true) by (vm_compute; reflexivity).
  rewrite forallb_forall in Hall.
  specialize (Hall (Z.to_nat b)). cbv zeta in Hall.
  rewrite Z2Nat.id in Hall by lia.
  assert (Hin : In (Z.to_nat b) (seq 0 256)) by (apply in_seq; lia).
  apply Hall in Hin. apply andb_true_iff in Hin. destruct Hin as [Hin H3].
  apply andb_true_iff in Hin. destruct Hin as [H1 H2].
  repeat split; by apply Bool.eqb_prop.
Qed.

(** X20: which IPv6 addresses [isIPPrivate] refuses.  A 16-byte address
    that is not IPv4-mapped is refused exactly when it is ::1, or in
    fe80::/10 (link-local unicast), or a multicast address ff?2:: of
    link-local scope, or in fc00::/7 (unique local); the unspecified
    address ::, site-local fec0::/10 and multicast of any other scope
    pass. *)
Theorem isIPPrivate_v6_ranges (ip : net.IP) :
  length ip = 16%nat ->
  net.To4 ip = None ->
  0 <= net.at_ ip 0 < 256 ->
  0 <= net.at_ ip 1 < 256 ->
  isIPPrivate ip = true
  <-> ip = net.IPv6loopback
      \/ (net.at_ ip 0 = 254 /\ 128 <= net.at_ ip 1 <= 191)
      \/ (net.at_ ip 0 = 255 /\ net.at_ ip 1 mod 16 = 2)
      \/ net.at_ ip 0 = 252
      \/ net.at_ ip 0 = 253.
Proof.
  intros Hlen H4 H0 H1.
  destruct (byte_masks _ H0) as (_ & _ & M0).
  destruct (byte_masks _ H1) as (M1 & M2 & _).
  rewrite isIPPrivate_true.
  unfold net.IsLoopback, net.IsLinkLocalUnicast, net.IsLinkLocalMulticast, net.IsPrivate,
    net.Equal, net.IPv6len.
  rewrite H4, Hlen. change (length net.IPv6loopback) with 16%nat.
  cbn [Nat.eqb andb]. rewrite M0, M1, M2, bytesEqual_eq.
  rewrite !andb_true_iff, !orb_true_iff, !Z.eqb_eq, !Z.leb_le.
  intuition lia.
Qed.

Lemma isIPPrivate_v6_ranges_witness :
  (isIPPrivate [253; 0; 0; 0; 0; 0; 0; 0; 0; 0; 0; 0; 0; 0; 0; 9] = true)
  /\ isIPPrivate [0; 0; 0; 0; 0; 0; 0; 0; 0; 0; 0; 0; 0; 0; 0; 0] = false
  /\ isIPPrivate [254; 192; 0; 0; 0; 0; 0; 0; 0; 0; 0; 0; 0; 0; 0; 1] = false.
Proof.
  split; [| split].
  - apply (isIPPrivate_v6_ranges [253; 0; 0; 0; 0; 0; 0; 0; 0; 0; 0; 0; 0; 0; 0; 9]);
      try reflexivity; cbv [net.at_ nth]; lia.
  - destruct (isIPPrivate [0; 0; 0; 0; 0; 0; 0; 0; 0; 0; 0; 0; 0; 0; 0; 0]) eqn:E;
      [| reflexivity].
    apply (isIPPrivate_v6_ranges [0; 0; 0; 0; 0; 0; 0; 0; 0; 0; 0; 0; 0; 0; 0; 0]) in E;
      try reflexivity; try (cbv [net.at_ nth]; lia).
    cbv [net.at_ nth] in E. destruct E as [E | E]; [discriminate E | lia].
  - destruct (isIPPrivate [254; 192; 0; 0; 0; 0; 0; 0; 0; 0; 0; 0; 0; 0; 0; 1]) eqn:E;
      [| reflexivity].
    apply (isIPPrivate_v6_ranges [254; 192; 0; 0; 0; 0; 0; 0; 0; 0; 0; 0; 0; 0; 0; 1]) in E;
      try reflexivity; try (cbv [net.at_ nth]; lia).
    cbv [net.at_ nth] in E. destruct E as [E | E]; [discriminate E | lia].
Defined.
